(** * ib_platform: pacing, correlation and option-chain pruning

    A shallow embedding of the request admission and correlation logic of
    [getHistoricalData.py], [IBApp.py] and [IBUtils.py].

    Conventions of the embedding:
    - a [datetime] is an integer number of microseconds since the epoch, a
      [timedelta] an integer number of microseconds;
    - a Python [float] (strike, price, band) is the rational number it
      stands for; where the code computes with floats, every operation
      rounds to the nearest double, as laid down by the binary64 format of
      the standard library's [SpecFloat];
    - a Python [dict] is an association list in insertion order, keys
      compared with the key type's equality test;
    - an exception is a value of [exn]; code that can raise returns an
      [outcome];
    - the response thread (the reader loop of [EClient.run]) acts while
      the orchestration thread sleeps: every [time.sleep] consumes one
      [tick] of a schedule that says how much time passes and which
      provider events are dispatched meanwhile. *)

From Stdlib Require Import ZArith QArith Qabs List String Ascii Bool Lia Lqa.
From Stdlib Require Import SpecFloat.
From Stdlib Require Import Sorting.Sorted Sorting.Permutation SetoidList.
Import ListNotations.
Open Scope string_scope.
Open Scope list_scope.
Open Scope Z_scope.

(** ** Exceptions and outcomes *)

Inductive exn : Type :=
| KeyError
| IndexError
| ValueError
| ZeroDivisionError
| AttributeError
| TypeError
| OverflowError
| Exception (msg : string).

(** [Pending]: the code is still inside a loop when the schedule, the
    entropy or the loop budget of the model ends. *)
Inductive outcome (A : Type) : Type :=
| Ok (a : A)
| Raise (e : exn)
| Pending.

Arguments Ok {A} a.
Arguments Raise {A} e.
Arguments Pending {A}.

Definition bind {A B : Type} (m : outcome A) (f : A -> outcome B) : outcome B :=
  match m with
  | Ok a => f a
  | Raise e => Raise e
  | Pending => Pending
  end.

Notation "x <- m ;; k" := (bind m (fun x => k))
  (at level 61, m at next level, right associativity).
Notation "' pat <- m ;; k" := (bind m (fun x => match x with pat => k end))
  (at level 61, pat pattern, m at next level, right associativity).

Definition of_option {A : Type} (e : exn) (o : option A) : outcome A :=
  match o with
  | Some a => Ok a
  | None => Raise e
  end.

(** ** Python dictionaries *)

Section Dict.
Context {K V : Type}.
Variable eqb : K -> K -> bool.

Definition dict : Type := list (K * V).

Fixpoint dict_get (d : dict) (k : K) : option V :=
  match d with
  | [] => None
  | (k', v) :: d' => if eqb k' k then Some v else dict_get d' k
  end.

Definition dict_mem (d : dict) (k : K) : bool :=
  match dict_get d k with
  | Some _ => true
  | None => false
  end.

(** [d[k] = v]: an existing key keeps its position. *)
Fixpoint dict_set (d : dict) (k : K) (v : V) : dict :=
  match d with
  | [] => [(k, v)]
  | (k', v') :: d' =>
      if eqb k' k then (k', v) :: d' else (k', v') :: dict_set d' k v
  end.

(** [del d[k]]: [None] stands for [KeyError]. *)
Fixpoint dict_del (d : dict) (k : K) : option dict :=
  match d with
  | [] => None
  | (k', v') :: d' =>
      if eqb k' k then Some d'
      else match dict_del d' k with
           | Some r => Some ((k', v') :: r)
           | None => None
           end
  end.

Definition dict_keys (d : dict) : list K := map fst d.
Definition dict_values (d : dict) : list V := map snd d.
End Dict.

(** ** Strings *)

(** [s.split(sep)] for a one-character separator. *)
Fixpoint split (sep : ascii) (s : string) : list string :=
  match s with
  | EmptyString => [EmptyString]
  | String c s' =>
      if Ascii.eqb c sep then EmptyString :: split sep s'
      else match split sep s' with
           | [] => [String c EmptyString]
           | w :: ws => String c w :: ws
           end
  end.

(** ** Dates and durations *)

Definition usec_per_sec : Z := 1000000.
Definition usec_per_min : Z := 60 * usec_per_sec.
Definition usec_per_hour : Z := 60 * usec_per_min.
Definition usec_per_day : Z := 24 * usec_per_hour.

Definition timedelta_minutes (n : Z) : Z := n * usec_per_min.

(** The [seconds] attribute of a normalised [timedelta]: the whole seconds
    within the day part, never negative. *)
Definition td_seconds (d : Z) : Z := (d / usec_per_sec) mod 86400.

Definition dt_hour (t : Z) : Z := (t / usec_per_hour) mod 24.
Definition dt_minute (t : Z) : Z := (t / usec_per_min) mod 60.

(** [t.replace(hour=h, minute=m)]: day, second and microsecond are kept. *)
Definition dt_replace_hm (t h m : Z) : Z :=
  t - t mod usec_per_day + h * usec_per_hour + m * usec_per_min
  + t mod usec_per_min.

(** [t.date()] as a day number. *)
Definition dt_date (t : Z) : Z := t / usec_per_day.

(** ** Random numbers

    [randint a b] draws from the generator; the generator is a list of raw
    draws and [randint] reduces the next one into [a..b]. *)
Definition randint (a b raw : Z) : Z := a + raw mod (b - a + 1).

(** ** IBUtils.get_req_id *)

Fixpoint get_req_id (used_ids : list Z) (rng : list Z) : outcome (Z * list Z) :=
  match rng with
  | [] => Pending
  | raw :: rng' =>
      let req_id := randint 10 99999 raw in
      if existsb (Z.eqb req_id) used_ids then get_req_id used_ids rng'
      else Ok (req_id, rng')
  end.

(** ** Data model *)

(** [ibapi.contract.Contract], the fields this program sets or reads. *)
Record Contract : Type := mkContract
  { symbol : string;
    secType : string;
    exchange : string;
    currency : string;
    strike : Q;
    right : string;
    lastTradeDateOrContractMonth : option Z }.

(** [Contract()]: the provider library's defaults. The expiry, a
    [%Y%m%d] string in the source, is kept as a day number. *)
Definition Contract_new : Contract :=
  mkContract EmptyString EmptyString EmptyString EmptyString 0%Q
    EmptyString None.

Record DataRequest : Type := mkDataRequest
  { contract : Contract;
    query_time : Z;
    interval_size : Z;
    bid_or_ask : string;
    req_id : Z }.

(** [DataRequest(contract, query_time, interval_size, bid_or_ask)]. *)
Definition DataRequest_new (c : Contract) (qt sz : Z) (side : string) : DataRequest :=
  mkDataRequest c qt sz side (-1).

(** The values stored in a registry entry, itself a dict keyed by field
    name. *)
Inductive value : Type :=
| VStr (s : string)
| VInt (n : Z)
| VRequest (r : DataRequest)
| VTime (t : Z).

Definition entry : Type := list (string * value).

Definition side_map : Type := list (string * Contract).

(** [option_chain_data]. [all_contracts] starts as a [defaultdict] and is
    rebound to an [OrderedDict] by [keep_close_strikes]; only the former
    creates a missing strike on subscript. *)
Record option_chain_data : Type := mkChain
  { underline : string;
    open_spot_price : Q;
    all_contracts : list (Q * side_map);
    all_contracts_is_defaultdict : bool;
    all_contracts_fetched : bool }.

Definition option_chain_data_new (asset : string) : option_chain_data :=
  mkChain asset (-1)%Q [] true false.

(** A bar as delivered by the provider: wall time of the bar and prices. *)
Record Bar : Type := mkBar
  { bar_hour : Z;
    bar_minute : Z;
    bar_second : Z;
    bar_open : Q;
    bar_high : Q;
    bar_low : Q;
    bar_close : Q }.

(** The logical record handed to the output sink: the fields of the
    delimited text line, or the numeric array made from them. Decimal
    rendering and the byte layout are left to the sink. *)
Inductive field : Type :=
| FDate (h m s : Z)
| FNum (q : Q)
| FStr (s : string).

Inductive sink_record : Type :=
| TxtLine (fields : list field)
| BinArr (arr : list Q).

(** What the application sends to the provider through [EClient]. *)
Inductive api_call : Type :=
| reqHistoricalData (id : Z) (c : Contract) (end_time : Z) (duration_s : Z)
    (bar_size : string) (what : string)
| reqMktData (id : Z) (c : Contract)
| cancelMktData (id : Z)
| reqContractDetails (id : Z) (c : Contract).

(** What the provider delivers to the [EWrapper] callbacks. *)
Inductive event : Type :=
| EvHistoricalData (id : Z) (bar : Bar)
| EvHistoricalDataEnd (id : Z)
| EvContractDetails (id : Z) (c : Contract)
| EvContractDetailsEnd (id : Z)
| EvError (id : Z) (error_code : Z) (error_string : string).

Inductive sec_type : Type := OPT | STK | FX.

Definition OPEN_SPOT_PRICE_REQ_ID : Z := 1.
Definition ALL_OPTION_CONTRACTS_DETAILS_REQ_ID : Z := 2.

(** The application object. [kind] is the concrete subclass; [chain] is
    the attribute [option_chain_data], whose name the class above has
    taken; [connected] and [wire] are the [EClient] part: the connection
    state and the calls sent through it. *)
Record IBapi : Type := mkIBapi
  { kind : sec_type;
    output_type : string;
    output_file : option (list sink_record);
    chain : option option_chain_data;
    contracts_to_delete : list (Q * list string);
    req_id_to_contract : list (Z * entry);
    open_requests : Z;
    sent_time_queue : list Z;
    mode : string;
    shift_hours : Z;
    connected : bool;
    wire : list api_call }.

(** [IBapi.__init__], already connected by [init_app_listener]. *)
Definition IBapi_new (k : sec_type) (out : string) : IBapi :=
  mkIBapi k out None None [] [] 0 [] "historical" 0 true [].

Definition set_output_file (f : option (list sink_record)) (a : IBapi) : IBapi :=
  mkIBapi (kind a) (output_type a) f (chain a) (contracts_to_delete a)
    (req_id_to_contract a) (open_requests a) (sent_time_queue a) (mode a)
    (shift_hours a) (connected a) (wire a).

Definition set_chain (c : option option_chain_data) (a : IBapi) : IBapi :=
  mkIBapi (kind a) (output_type a) (output_file a) c (contracts_to_delete a)
    (req_id_to_contract a) (open_requests a) (sent_time_queue a) (mode a)
    (shift_hours a) (connected a) (wire a).

Definition set_contracts_to_delete (d : list (Q * list string)) (a : IBapi) : IBapi :=
  mkIBapi (kind a) (output_type a) (output_file a) (chain a) d
    (req_id_to_contract a) (open_requests a) (sent_time_queue a) (mode a)
    (shift_hours a) (connected a) (wire a).

Definition set_req_id_to_contract (r : list (Z * entry)) (a : IBapi) : IBapi :=
  mkIBapi (kind a) (output_type a) (output_file a) (chain a)
    (contracts_to_delete a) r (open_requests a) (sent_time_queue a) (mode a)
    (shift_hours a) (connected a) (wire a).

Definition set_open_requests (n : Z) (a : IBapi) : IBapi :=
  mkIBapi (kind a) (output_type a) (output_file a) (chain a)
    (contracts_to_delete a) (req_id_to_contract a) n (sent_time_queue a)
    (mode a) (shift_hours a) (connected a) (wire a).

Definition set_sent_time_queue (q : list Z) (a : IBapi) : IBapi :=
  mkIBapi (kind a) (output_type a) (output_file a) (chain a)
    (contracts_to_delete a) (req_id_to_contract a) (open_requests a) q
    (mode a) (shift_hours a) (connected a) (wire a).

Definition set_shift_hours (shift : Z) (a : IBapi) : IBapi :=
  mkIBapi (kind a) (output_type a) (output_file a) (chain a)
    (contracts_to_delete a) (req_id_to_contract a) (open_requests a)
    (sent_time_queue a) (mode a) shift (connected a) (wire a).

Definition set_connected (b : bool) (a : IBapi) : IBapi :=
  mkIBapi (kind a) (output_type a) (output_file a) (chain a)
    (contracts_to_delete a) (req_id_to_contract a) (open_requests a)
    (sent_time_queue a) (mode a) (shift_hours a) b (wire a).

(** A call goes out on the wire. *)
Definition send_call (c : api_call) (a : IBapi) : IBapi :=
  mkIBapi (kind a) (output_type a) (output_file a) (chain a)
    (contracts_to_delete a) (req_id_to_contract a) (open_requests a)
    (sent_time_queue a) (mode a) (shift_hours a) (connected a)
    (wire a ++ [c]).

Definition set_open_spot_price (p : Q) (c : option_chain_data) : option_chain_data :=
  mkChain (underline c) p (all_contracts c) (all_contracts_is_defaultdict c)
    (all_contracts_fetched c).

Definition set_all_contracts (m : list (Q * side_map)) (c : option_chain_data)
  : option_chain_data :=
  mkChain (underline c) (open_spot_price c) m (all_contracts_is_defaultdict c)
    (all_contracts_fetched c).

Definition set_all_contracts_fetched (b : bool) (c : option_chain_data)
  : option_chain_data :=
  mkChain (underline c) (open_spot_price c) (all_contracts c)
    (all_contracts_is_defaultdict c) b.

(** ** Registry entries *)

(** [entry[name]] where a [DataRequest] is expected. *)
Definition entry_data_request (e : entry) : outcome DataRequest :=
  match dict_get String.eqb e "data_request" with
  | Some (VRequest r) => Ok r
  | Some _ => Raise AttributeError
  | None => Raise KeyError
  end.

Definition entry_time (e : entry) : outcome Z :=
  match dict_get String.eqb e "time" with
  | Some (VTime t) => Ok t
  | Some _ => Raise TypeError
  | None => Raise KeyError
  end.

(** The entry stored by [OPT] and [STK]. *)
Definition entry_of_request (sec : string) (r : DataRequest) (t : Z) : entry :=
  [("secType", VStr sec); ("data_request", VRequest r); ("time", VTime t)].

(** The entry stored by [FX]. *)
Definition entry_fx (side : string) (t : Z) : entry :=
  [("secType", VStr "FX"); ("strike", VInt 0); ("bidOrAsk", VStr side);
   ("callOrPut", VStr "F"); ("time", VTime t)].

(** ** IBUtils: lines to arrays *)

Definition idx {A : Type} (l : list A) (i : nat) : outcome A :=
  of_option IndexError (nth_error l i).

(** [np.float32(field)]; rounding to single precision is not modelled. *)
Definition field_float (f : field) : outcome Q :=
  match f with
  | FDate h m s => Ok (inject_Z (h * 10000 + m * 100 + s))
  | FNum q => Ok q
  | FStr _ => Raise ValueError
  end.

(** [1 if field == tag else 0]. *)
Definition flag_field (f : field) (tag : string) : field :=
  match f with
  | FStr s => if String.eqb s tag then FNum 1 else FNum 0
  | _ => FNum 0
  end.

Fixpoint floats_of (fs : list field) : outcome (list Q) :=
  match fs with
  | [] => Ok []
  | f :: fs' => q <- field_float f ;; qs <- floats_of fs' ;; Ok (q :: qs)
  end.

Definition get_opt_arr_from_line (fields : list field) : outcome (list Q) :=
  f0 <- idx fields 0 ;; f1 <- idx fields 1 ;; f2 <- idx fields 2 ;;
  f3 <- idx fields 3 ;; f4 <- idx fields 4 ;; f5 <- idx fields 5 ;;
  f6 <- idx fields 6 ;; f7 <- idx fields 7 ;;
  floats_of [f0; f1; flag_field f2 "C"; flag_field f3 "S"; f4; f5; f6; f7].

Definition get_arr_from_line (fields : list field) : outcome (list Q) :=
  f0 <- idx fields 0 ;; f1 <- idx fields 1 ;; f2 <- idx fields 2 ;;
  f3 <- idx fields 3 ;; f4 <- idx fields 4 ;; f5 <- idx fields 5 ;;
  floats_of [f0; flag_field f1 "S"; f2; f3; f4; f5].

(** ** IBapi: the response handlers *)

(** [IBapi.write_to_file]. Writing to a file that was never opened raises. *)
Definition write_to_file (a : IBapi) (input_line : list field) : outcome IBapi :=
  if String.eqb (output_type a) "bin" then
    output <- match kind a with
              | OPT => get_opt_arr_from_line input_line
              | _ => get_arr_from_line input_line
              end ;;
    f <- of_option AttributeError (output_file a) ;;
    Ok (set_output_file (Some (f ++ [BinArr output])) a)
  else if String.eqb (output_type a) "txt" then
    f <- of_option AttributeError (output_file a) ;;
    Ok (set_output_file (Some (f ++ [TxtLine input_line])) a)
  else Raise (Exception "Unknown output file type").

(** [IBapi.historicalData], the shared part every subclass runs first:
    the bar's hour is shifted; [datetime.replace] rejects an hour outside
    [0..23]. *)
Definition IBapi_historicalData (a : IBapi) (bar : Bar) : outcome Bar :=
  let h := bar_hour bar - shift_hours a in
  if (0 <=? h) && (h <=? 23) then
    Ok (mkBar h (bar_minute bar) (bar_second bar) (bar_open bar)
          (bar_high bar) (bar_low bar) (bar_close bar))
  else Raise ValueError.

Definition bar_date (bar : Bar) : field :=
  FDate (bar_hour bar) (bar_minute bar) (bar_second bar).

Definition side_letter (r : DataRequest) : string :=
  if String.eqb (bid_or_ask r) "ASK" then "S" else "B".

(** [OPT.historicalData]. *)
Definition OPT_historicalData (a : IBapi) (req_id : Z) (bar0 : Bar) : outcome IBapi :=
  bar <- IBapi_historicalData a bar0 ;;
  if req_id =? OPEN_SPOT_PRICE_REQ_ID then
    c <- of_option AttributeError (chain a) ;;
    Ok (set_chain (Some (set_open_spot_price (bar_close bar) c)) a)
  else
    match dict_get Z.eqb (req_id_to_contract a) req_id with
    | Some e =>
        data_request <- entry_data_request e ;;
        write_to_file a
          [bar_date bar; FNum (strike (contract data_request));
           FStr (right (contract data_request)); FStr (side_letter data_request);
           FNum (bar_open bar); FNum (bar_high bar); FNum (bar_low bar);
           FNum (bar_close bar)]
    | None => Raise (Exception "Unknown req_id!!!")
    end.

(** [STK.historicalData]. *)
Definition STK_historicalData (a : IBapi) (req_id : Z) (bar0 : Bar) : outcome IBapi :=
  bar <- IBapi_historicalData a bar0 ;;
  match dict_get Z.eqb (req_id_to_contract a) req_id with
  | Some e =>
      data_request <- entry_data_request e ;;
      write_to_file a
        [bar_date bar; FStr (side_letter data_request);
         FNum (bar_open bar); FNum (bar_high bar); FNum (bar_low bar);
         FNum (bar_close bar)]
  | None => Raise (Exception "Unknown req_id!!!")
  end.

(** [FX.historicalData]. *)
Definition FX_historicalData (a : IBapi) (req_id : Z) (bar0 : Bar) : outcome IBapi :=
  bar <- IBapi_historicalData a bar0 ;;
  match dict_get Z.eqb (req_id_to_contract a) req_id with
  | Some e =>
      data_request <- entry_data_request e ;;
      write_to_file a
        [bar_date bar; FStr (side_letter data_request);
         FNum (bar_open bar); FNum (bar_high bar); FNum (bar_low bar);
         FNum (bar_close bar)]
  | None => Raise (Exception "Unknown req_id!!!")
  end.

Definition historicalData (a : IBapi) (req_id : Z) (bar : Bar) : outcome IBapi :=
  match kind a with
  | OPT => OPT_historicalData a req_id bar
  | STK => STK_historicalData a req_id bar
  | FX => FX_historicalData a req_id bar
  end.

(** [IBapi.historicalDataEnd]; the log message reads the entry's time and
    its data request before the entry is deleted. *)
Definition historicalDataEnd (a : IBapi) (req_id : Z) : outcome IBapi :=
  match dict_get Z.eqb (req_id_to_contract a) req_id with
  | Some e =>
      _ <- entry_time e ;;
      _ <- entry_data_request e ;;
      r <- of_option KeyError (dict_del Z.eqb (req_id_to_contract a) req_id) ;;
      Ok (set_open_requests (open_requests a - 1) (set_req_id_to_contract r a))
  | None =>
      if req_id =? OPEN_SPOT_PRICE_REQ_ID then Ok a
      else Raise (Exception "Unknown req_id!!!")
  end.

(** [all_contracts[strike][right] = contract]. *)
Definition chain_record (c : option_chain_data) (k : Contract) : outcome option_chain_data :=
  match dict_get Qeq_bool (all_contracts c) (strike k) with
  | Some sides =>
      Ok (set_all_contracts
            (dict_set Qeq_bool (all_contracts c) (strike k)
               (dict_set String.eqb sides (right k) k)) c)
  | None =>
      if all_contracts_is_defaultdict c then
        Ok (set_all_contracts
              (dict_set Qeq_bool (all_contracts c) (strike k) [(right k, k)]) c)
      else Raise KeyError
  end.

(** [IBapi.contractDetails]. *)
Definition contractDetails (a : IBapi) (req_id : Z) (k : Contract) : outcome IBapi :=
  if req_id =? ALL_OPTION_CONTRACTS_DETAILS_REQ_ID then
    c <- of_option AttributeError (chain a) ;;
    c' <- chain_record c k ;;
    Ok (set_chain (Some c') a)
  else Ok a.

(** [IBapi.contractDetailsEnd]. *)
Definition contractDetailsEnd (a : IBapi) (req_id : Z) : outcome IBapi :=
  if req_id =? ALL_OPTION_CONTRACTS_DETAILS_REQ_ID then
    c <- of_option AttributeError (chain a) ;;
    Ok (set_chain (Some (set_all_contracts_fetched true c)) a)
  else Ok a.

(** [contracts_to_delete[strike].append(side)] on a [defaultdict] of lists. *)
Definition queue_removal (d : list (Q * list string)) (k : Q) (side : string)
  : list (Q * list string) :=
  match dict_get Qeq_bool d k with
  | Some sides => dict_set Qeq_bool d k (sides ++ [side])
  | None => dict_set Qeq_bool d k [side]
  end.

Definition ignored_codes : list Z := [2103; 2104; 2108; 2157; 2158].

(** [IBapi.error]. *)
Definition error (a : IBapi) (req_id : Z) (error_code : Z) (error_string : string)
  : outcome IBapi :=
  if String.eqb (mode a) "historical" && existsb (Z.eqb error_code) ignored_codes
  then Ok a
  else
    match dict_get Z.eqb (req_id_to_contract a) req_id with
    | Some e =>
        r <- entry_data_request e ;;
        if error_code =? 162 then
          what <- idx (split ":" error_string) 1 ;;
          if String.eqb what "HMDS query returned no data" then
            Ok (set_open_requests (open_requests a - 1)
                  (set_contracts_to_delete
                     (queue_removal (contracts_to_delete a)
                        (strike (contract r)) (right (contract r))) a))
          else Ok a
        else Ok a
    | None => Ok a
    end.

(** One provider event reaches its callback. *)
Definition dispatch (a : IBapi) (ev : event) : outcome IBapi :=
  match ev with
  | EvHistoricalData id bar => historicalData a id bar
  | EvHistoricalDataEnd id => historicalDataEnd a id
  | EvContractDetails id k => contractDetails a id k
  | EvContractDetailsEnd id => contractDetailsEnd a id
  | EvError id code msg => error a id code msg
  end.

(** ** Contracts *)

(** [IBapi.get_asset_contract]. *)
Definition get_asset_contract (sym : string) : Contract :=
  mkContract sym "STK" "SMART" "USD" 0%Q EmptyString None.

(** [OPT.get_ambiguous_option_contract]. *)
Definition get_ambiguous_option_contract (next_expiry : Z) (underline_asset : string)
  : Contract :=
  mkContract underline_asset "OPT" "SMART" "USD" 0%Q EmptyString
    (Some (dt_date next_expiry)).

Definition upper_ascii (c : ascii) : ascii :=
  let n := nat_of_ascii c in
  if (Nat.leb 97 n && Nat.leb n 122)%bool then ascii_of_nat (n - 32) else c.

Fixpoint upper (s : string) : string :=
  match s with
  | EmptyString => EmptyString
  | String c s' => String (upper_ascii c) (upper s')
  end.

(** [FX.get_fx_contract]. *)
Definition get_fx_contract (sym : string) : outcome Contract :=
  base <- idx (split "." sym) 0 ;;
  quote <- idx (split "." sym) 1 ;;
  Ok (mkContract (upper base) "CASH" "IDEALPRO" (upper quote) 0%Q EmptyString None).

(** ** The option chain *)

(** [if side in sides: del sides[side]] for every queued side. *)
Definition remove_sides (queued : list string) (sides : side_map) : side_map :=
  fold_left
    (fun m side => match dict_del String.eqb m side with
                   | Some m' => m'
                   | None => m
                   end)
    queued sides.

Definition remove_strike_sides (all : list (Q * side_map)) (e : Q * list string)
  : list (Q * side_map) :=
  match dict_get Qeq_bool all (fst e) with
  | Some sides => dict_set Qeq_bool all (fst e) (remove_sides (snd e) sides)
  | None => all
  end.

(** [IBapi.remove_contracts]. With nothing queued the chain is not
    touched at all. *)
Definition remove_contracts (a : IBapi) : outcome IBapi :=
  match contracts_to_delete a with
  | [] => Ok a
  | queued =>
      c <- of_option AttributeError (chain a) ;;
      Ok (set_contracts_to_delete []
            (set_chain
               (Some (set_all_contracts
                        (fold_left remove_strike_sides queued (all_contracts c)) c))
               a))
  end.

(** [OPT.get_wanted_contracts], [STK.get_wanted_contracts] and
    [FX.get_wanted_contracts]. *)
Definition get_wanted_contracts (a : IBapi) (asset : string) : outcome (list Contract) :=
  match kind a with
  | OPT =>
      c <- of_option AttributeError (chain a) ;;
      Ok (concat (map (fun sides : side_map => dict_values sides)
                    (dict_values (all_contracts c))))
  | STK => Ok [get_asset_contract asset]
  | FX => k <- get_fx_contract asset ;; Ok [k]
  end.

(** [sorted(d.items())]: keys of a dict are distinct, so the order of the
    pairs is the order of their keys. *)
Fixpoint insert_item {V : Type} (x : Q * V) (l : list (Q * V)) : list (Q * V) :=
  match l with
  | [] => [x]
  | y :: l' => if Qle_bool (fst x) (fst y) then x :: l else y :: insert_item x l'
  end.

Definition sorted_items {V : Type} (l : list (Q * V)) : list (Q * V) :=
  fold_right insert_item [] l.

Definition Qlt_bool (x y : Q) : bool := negb (Qle_bool y x).

(** Modelled from the spec: [Utils.take_closest] is not among the sources.
    The spec's words: the strike nearest the reference price, ties broken
    toward the lower strike. A candidate replaces the best so far when it
    is strictly nearer, or as near and lower. *)
Definition nearer (x cand best : Q) : bool :=
  Qlt_bool (Qabs (cand - x)) (Qabs (best - x))
  || (Qeq_bool (Qabs (cand - x)) (Qabs (best - x)) && Qlt_bool cand best).

Definition take_closest (l : list Q) (x : Q) : outcome Q :=
  match l with
  | [] => Raise IndexError
  | s :: l' => Ok (fold_left (fun best cand => if nearer x cand best then cand else best) l' s)
  end.

(** *** Double-precision arithmetic

    The binary64 format: 53 bits of precision, exponents below 1024. *)
Definition prec : Z := 53.
Definition emax : Z := 1024.

(** The double nearest to a rational number, ties to even, and an
    infinity beyond the range: the numerator of the reduced fraction
    divided by its denominator with a single rounding. A rational that
    is a double is its own nearest double, so this is how a float of the
    program enters the arithmetic below. *)
Definition double_of (q : Q) : spec_float :=
  let r := Qred q in
  match Qnum r with
  | Z0 => S754_zero false
  | Zpos n => SFdiv prec emax (S754_finite false n 0) (S754_finite false (Qden r) 0)
  | Zneg n => SFdiv prec emax (S754_finite true n 0) (S754_finite false (Qden r) 0)
  end.

(** The rational number a finite double stands for. *)
Definition value_of (x : spec_float) : Q :=
  match x with
  | S754_finite s m e =>
      let v := match e with
               | Z0 => inject_Z (Zpos m)
               | Zpos p => inject_Z (Zpos m * 2 ^ Zpos p)
               | Zneg p => Zpos m # (2 ^ p)
               end in
      if s then (- v)%Q else v
  | _ => 0%Q
  end.

(** [abs(strike - atm_strike) / atm_strike > dist_from_atm] as Python
    evaluates it on floats: the difference is rounded, its absolute value
    is divided by the anchor and rounded again, and the result is compared
    with the band. *)
Definition far_from (dist_from_atm atm_strike k : Q) : bool :=
  SFltb (double_of dist_from_atm)
    (SFdiv prec emax
       (SFabs (SFsub prec emax (double_of k) (double_of atm_strike)))
       (double_of atm_strike)).

(** The test of the first loop of [keep_close_strikes]; dividing a float
    by zero raises. *)
Definition too_far (dist_from_atm atm_strike k : Q) : outcome bool :=
  if Qeq_bool atm_strike 0 then Raise ZeroDivisionError
  else Ok (far_from dist_from_atm atm_strike k).

(** [float(config_parsed['Optional']['pct_strikes_from_atm']) / 100] of
    [Config.parse_config_file], for the float the text stands for. *)
Definition pct_strikes_from_atm_of (x : Q) : Q :=
  value_of (SFdiv prec emax (double_of x) (double_of 100)).

(** The first loop of [keep_close_strikes]: far strikes are queued with an
    empty side list. *)
Fixpoint mark_far (dist_from_atm atm_strike : Q) (ks : list Q)
  (queued : list (Q * list string)) : outcome (list (Q * list string)) :=
  match ks with
  | [] => Ok queued
  | k :: ks' =>
      far <- too_far dist_from_atm atm_strike k ;;
      mark_far dist_from_atm atm_strike ks'
        (if far then dict_set Qeq_bool queued k [] else queued)
  end.

(** The second loop: [del all_contracts[strike]] for every queued strike. *)
Fixpoint delete_strikes (ks : list Q) (all : list (Q * side_map))
  : outcome (list (Q * side_map)) :=
  match ks with
  | [] => Ok all
  | k :: ks' =>
      all' <- of_option KeyError (dict_del Qeq_bool all k) ;;
      delete_strikes ks' all'
  end.

(** [OPT.keep_close_strikes]. *)
Definition keep_close_strikes (a : IBapi) (dist_from_atm : Q) : outcome IBapi :=
  c <- of_option AttributeError (chain a) ;;
  let all := sorted_items (all_contracts c) in
  atm_strike <- take_closest (dict_keys all) (open_spot_price c) ;;
  queued <- mark_far dist_from_atm atm_strike (dict_keys all) (contracts_to_delete a) ;;
  all' <- delete_strikes (dict_keys queued) all ;;
  Ok (set_contracts_to_delete []
        (set_chain
           (Some (mkChain (underline c) (open_spot_price c) all' false
                    (all_contracts_fetched c)))
           a)).

(** ** The two threads *)

(** What happens while the orchestration thread sleeps once. *)
Record tick : Type := mkTick
  { elapsed : Z;
    arrivals : list event }.

(** The orchestration thread's view: the application object, the wall
    clock and the random generator. *)
Record World : Type := mkWorld
  { app : IBapi;
    now : Z;
    rng : list Z }.

Definition with_app (a : IBapi) (w : World) : World :=
  mkWorld a (now w) (rng w).

(** The reader loop of [EClient.run]: events are dispatched in order while
    the connection is up; an exception that escapes a callback ends the
    loop, whose [finally] clause disconnects. *)
Fixpoint api_thread (evs : list event) (a : IBapi) : IBapi :=
  match evs with
  | [] => a
  | ev :: evs' =>
      if connected a then
        match dispatch a ev with
        | Ok a' => api_thread evs' a'
        | _ => set_connected false a
        end
      else a
  end.

Definition pass (t : tick) (w : World) : World :=
  mkWorld (api_thread (arrivals t) (app w)) (now w + elapsed t) (rng w).

(** [time.sleep]. *)
Definition sleep (sched : list tick) (w : World) : outcome (World * list tick) :=
  match sched with
  | [] => Pending
  | t :: rest => Ok (pass t w, rest)
  end.

(** ** getHistoricalData.check_pacing_violations *)

(** [while not app.isConnected(): time.sleep(1)]. *)
Fixpoint wait_connected (sched : list tick) (w : World) : outcome (World * list tick) :=
  if connected (app w) then Ok (w, sched)
  else match sched with
       | [] => Pending
       | t :: rest => wait_connected rest (pass t w)
       end.

(** [(datetime.now() - queue[0]).seconds / 60 > 10], a true division. *)
Definition older_than_window (now_ sent : Z) : bool :=
  Qlt_bool 10 (inject_Z (td_seconds (now_ - sent)) / 60).

(** The body of the window loop before its sleep. *)
Definition evict_oldest (w : World) : World :=
  match sent_time_queue (app w) with
  | [] => w
  | t0 :: q =>
      if older_than_window (now w) t0
      then with_app (set_sent_time_queue q (app w)) w
      else w
  end.

(** [while len(app.sent_time_queue) > 58: ...]. *)
Fixpoint window_loop (sched : list tick) (w : World) : outcome (World * list tick) :=
  if 58 <? Z.of_nat (length (sent_time_queue (app w))) then
    match sched with
    | [] => Pending
    | t :: rest => window_loop rest (pass t (evict_oldest w))
    end
  else Ok (w, sched).

(** [while app.open_requests > 49: time.sleep(0.01)]. *)
Fixpoint open_loop (sched : list tick) (w : World) : outcome (World * list tick) :=
  if 49 <? open_requests (app w) then
    match sched with
    | [] => Pending
    | t :: rest => open_loop rest (pass t w)
    end
  else Ok (w, sched).

Definition check_pacing_violations (sched : list tick) (w : World)
  : outcome (World * list tick) :=
  '(w1, s1) <- wait_connected sched w ;;
  '(w2, s2) <- window_loop s1 w1 ;;
  open_loop s2 w2.

(** ** Sending a request *)

(** [IBapi.send_historical_data_request], the shared part. *)
Definition IBapi_send_historical_data_request (w : World) : World :=
  with_app
    (set_open_requests (open_requests (app w) + 1)
       (set_sent_time_queue (sent_time_queue (app w) ++ [now w]) (app w)))
    w.

Definition with_req_id (r : DataRequest) (id : Z) : DataRequest :=
  mkDataRequest (contract r) (query_time r) (interval_size r) (bid_or_ask r) id.

Definition historical_call (id : Z) (r : DataRequest) : api_call :=
  reqHistoricalData id (contract r) (query_time r) (interval_size r * 60)
    "5 secs" (bid_or_ask r).

(** [OPT.send_historical_data_request] and
    [STK.send_historical_data_request]. *)
Definition tracked_send (sec : string) (data_request : DataRequest) (w0 : World)
  : outcome World :=
  let w := IBapi_send_historical_data_request w0 in
  '(id, rng') <- get_req_id (dict_keys (req_id_to_contract (app w))) (rng w) ;;
  let r := with_req_id data_request id in
  Ok (mkWorld
        (send_call (historical_call id r)
           (set_req_id_to_contract
              (dict_set Z.eqb (req_id_to_contract (app w)) id
                 (entry_of_request sec r (now w)))
              (app w)))
        (now w) rng').

(** [FX.send_historical_data_request]. The source draws the id with the
    loop of [get_req_id] written out in place. *)
Definition FX_send_historical_data_request (data_request : DataRequest)
  (sched : list tick) (w : World) : outcome (World * list tick) :=
  '(id, rng') <- get_req_id (dict_keys (req_id_to_contract (app w))) (rng w) ;;
  let a1 := set_req_id_to_contract
              (dict_set Z.eqb (req_id_to_contract (app w)) id
                 (entry_fx (bid_or_ask data_request) (now w)))
              (app w) in
  let a2 := send_call (historical_call id data_request) a1 in
  let a3 := set_open_requests (open_requests a2 + 1)
              (set_sent_time_queue (sent_time_queue a2 ++ [now w]) a2) in
  sleep sched (mkWorld a3 (now w) rng').

Definition send_historical_data_request (data_request : DataRequest)
  (sched : list tick) (w : World) : outcome (World * list tick) :=
  match kind (app w) with
  | OPT => w' <- tracked_send "OPT" data_request w ;; Ok (w', sched)
  | STK => w' <- tracked_send "STK" data_request w ;; Ok (w', sched)
  | FX => FX_send_historical_data_request data_request sched w
  end.

(** ** Resolving the option chain *)

(** [while self.option_chain_data.open_spot_price == -1: time.sleep(1)]. *)
Fixpoint wait_spot_price (sched : list tick) (w : World) : outcome (World * list tick) :=
  match chain (app w) with
  | None => Raise AttributeError
  | Some c =>
      if Qeq_bool (open_spot_price c) (-1) then
        match sched with
        | [] => Pending
        | t :: rest => wait_spot_price rest (pass t w)
        end
      else Ok (w, sched)
  end.

(** [OPT.get_underline_open_price]. *)
Definition get_underline_open_price (asset : string) (date : Z)
  (sched : list tick) (w : World) : outcome (World * list tick) :=
  let underline_contract := get_asset_contract asset in
  let is_live_data_request := dt_date date =? dt_date (now w) in
  let w1 :=
    if negb is_live_data_request then
      with_app (send_call (reqHistoricalData OPEN_SPOT_PRICE_REQ_ID
                             underline_contract date 60 "1 min" "BID_ASK")
                  (app w)) w
    else
      with_app (send_call (reqMktData OPEN_SPOT_PRICE_REQ_ID underline_contract)
                  (app w)) w in
  '(w2, s2) <- wait_spot_price sched w1 ;;
  if is_live_data_request then
    Ok (with_app (send_call (cancelMktData OPEN_SPOT_PRICE_REQ_ID) (app w2)) w2, s2)
  else Ok (w2, s2).

(** [while not self.option_chain_data.all_contracts_fetched: time.sleep(1)]. *)
Fixpoint wait_contracts_fetched (sched : list tick) (w : World)
  : outcome (World * list tick) :=
  match chain (app w) with
  | None => Raise AttributeError
  | Some c =>
      if all_contracts_fetched c then Ok (w, sched)
      else match sched with
           | [] => Pending
           | t :: rest => wait_contracts_fetched rest (pass t w)
           end
  end.

(** The part of [Config] the day loop reads. *)
Record Config : Type := mkConfig
  { start_time : Z;
    end_time : Z;
    request_interval : Z;
    pct_strikes_from_atm : Q }.

(** [get_all_needed_contracts]: [OPT]'s override and, for the other
    kinds, the base method that returns at once. [get_closest_expiry]
    comes from a module that is not among the sources and is passed in. *)
Definition get_all_needed_contracts
  (get_closest_expiry : Z -> bool -> outcome Z)
  (asset : string) (date : Z) (is_weekly : bool) (config : Config)
  (sched : list tick) (w : World) : outcome (World * list tick) :=
  match kind (app w) with
  | OPT =>
      let w0 := with_app
                  (set_contracts_to_delete []
                     (set_chain (Some (option_chain_data_new asset)) (app w))) w in
      next_expiry <- get_closest_expiry date is_weekly ;;
      '(w1, s1) <- get_underline_open_price asset
                     (dt_replace_hm date (dt_hour (start_time config))
                        (dt_minute (start_time config)))
                     sched w0 ;;
      let w2 := with_app
                  (send_call (reqContractDetails ALL_OPTION_CONTRACTS_DETAILS_REQ_ID
                                (get_ambiguous_option_contract next_expiry asset))
                     (app w1)) w1 in
      '(w3, s3) <- wait_contracts_fetched s1 w2 ;;
      a4 <- keep_close_strikes (app w3) (pct_strikes_from_atm config) ;;
      Ok (with_app a4 w3, s3)
  | _ => Ok (w, sched)
  end.

(** ** getHistoricalData: time buckets *)

(** [while tmp - timedelta(minutes=request_interval) > start_time:
       tmp -= timedelta(minutes=request_interval)]. *)
Fixpoint walk_back (fuel : nat) (request_interval start tmp : Z) : outcome Z :=
  if start <? tmp - timedelta_minutes request_interval then
    match fuel with
    | O => Pending
    | S n => walk_back n request_interval start (tmp - timedelta_minutes request_interval)
    end
  else Ok tmp.

(** [get_times_and_interval]; returns [(end_time, interval_size,
    query_time)]. [int] of the true quotient of a count of seconds that is
    never negative is its floor. *)
Definition get_times_and_interval (fuel : nat)
  (start_time_ end_time_ date request_interval_ : Z) : outcome (Z * Z * Z) :=
  let tmp := dt_replace_hm date (dt_hour end_time_) (dt_minute end_time_) in
  let start := dt_replace_hm date (dt_hour start_time_) (dt_minute start_time_) in
  q <- walk_back fuel request_interval_ start tmp ;;
  let end' := dt_replace_hm date (dt_hour end_time_) (dt_minute end_time_)
              + timedelta_minutes 5 in
  let size := td_seconds (q - start) / 60 in
  Ok (end', size, q).

(** [is_file_exists]: the file system and the dialog are inputs. True
    means: skip the day. *)
Definition is_file_exists (present : bool) (answer : string) : bool :=
  if present then negb (String.eqb answer "yes") else false.

(** The [while query_time < end_time] loop of [main], over any body. *)
Fixpoint bucket_loop {S : Type} (body : Z -> Z -> S -> outcome S) (fuel : nat)
  (request_interval_ end_time_ query_time_ interval_size_ : Z) (s : S) : outcome S :=
  if query_time_ <? end_time_ then
    match fuel with
    | O => Pending
    | Datatypes.S n =>
        s' <- body query_time_ interval_size_ s ;;
        bucket_loop body n request_interval_ end_time_
          (query_time_ + timedelta_minutes request_interval_) request_interval_ s'
    end
  else Ok s.

(** The buckets of a day: end of each query and its span in minutes. *)
Definition day_buckets (fuel : nat) (start_time_ end_time_ date request_interval_ : Z)
  : outcome (list (Z * Z)) :=
  '(end', size, q) <- get_times_and_interval fuel start_time_ end_time_ date
                        request_interval_ ;;
  bucket_loop (fun qt sz acc => Ok (acc ++ [(qt, sz)])) fuel request_interval_
    end' q size [].

(** The [for contract in contracts_to_get] loop. *)
Fixpoint request_contracts (contracts : list Contract) (query_time_ interval_size_ : Z)
  (st : World * list tick) : outcome (World * list tick) :=
  match contracts with
  | [] => Ok st
  | k :: rest =>
      '(w1, s1) <- check_pacing_violations (snd st) (fst st) ;;
      '(w2, s2) <- send_historical_data_request
                     (DataRequest_new k query_time_ interval_size_ "ASK") s1 w1 ;;
      '(w3, s3) <- check_pacing_violations s2 w2 ;;
      '(w4, s4) <- send_historical_data_request
                     (DataRequest_new k query_time_ interval_size_ "BID") s3 w3 ;;
      request_contracts rest query_time_ interval_size_ (w4, s4)
  end.

(** One round of the bucket loop. *)
Definition request_bucket (asset : string) (query_time_ interval_size_ : Z)
  (st : World * list tick) : outcome (World * list tick) :=
  a <- remove_contracts (app (fst st)) ;;
  contracts_to_get <- get_wanted_contracts a asset ;;
  request_contracts contracts_to_get query_time_ interval_size_
    (with_app a (fst st), snd st).

(** [while app.open_requests > 0: time.sleep(0.1)]. *)
Fixpoint drain (sched : list tick) (w : World) : outcome (World * list tick) :=
  if 0 <? open_requests (app w) then
    match sched with
    | [] => Pending
    | t :: rest => drain rest (pass t w)
    end
  else Ok (w, sched).

(** The body of [for date in config.dates] in [main]. [present] and
    [answer] say whether the day's file exists and what the user replies
    to the overwrite dialog. *)
Definition day (get_closest_expiry : Z -> bool -> outcome Z) (fuel : nat)
  (config : Config) (asset base_asset : string) (is_weekly : bool) (date : Z)
  (present : bool) (answer : string)
  (sched : list tick) (w : World) : outcome (World * list tick) :=
  '(w1, s1) <- get_all_needed_contracts get_closest_expiry base_asset date
                 is_weekly config sched w ;;
  '(end', size, q) <- get_times_and_interval fuel (start_time config)
                        (end_time config) date (request_interval config) ;;
  if is_file_exists present answer then Ok (w1, s1)
  else
    let w2 := with_app (set_output_file (Some []) (app w1)) w1 in
    '(w3, s3) <- bucket_loop (request_bucket asset) fuel (request_interval config)
                   end' q size (w2, s1) ;;
    drain s3 w3.

(** ** IBUtils: asset names and dates *)

Fixpoint has_char (c : ascii) (s : string) : bool :=
  match s with
  | EmptyString => false
  | String c' s' => Ascii.eqb c' c || has_char c s'
  end.

(** [s[-2:]]: the last two characters, or all of a shorter string. *)
Definition last_two (s : string) : string :=
  substring (String.length s - 2) 2 s.

(** [is_weekly_options]. *)
Definition is_weekly_options (asset : string) : outcome (string * bool) :=
  if String.eqb (last_two asset) "_W" then
    base_asset <- idx (split "_" asset) 0 ;;
    Ok (base_asset, true)
  else Ok (asset, false).

(** The characters [str.strip] removes from an ASCII string. *)
Definition is_space (c : ascii) : bool :=
  let n := nat_of_ascii c in
  (Nat.leb 9 n && Nat.leb n 13) || (Nat.leb 28 n && Nat.leb n 32).

Fixpoint lstrip (s : string) : string :=
  match s with
  | EmptyString => EmptyString
  | String c s' => if is_space c then lstrip s' else s
  end.

Fixpoint rstrip (s : string) : string :=
  match s with
  | EmptyString => EmptyString
  | String c s' =>
      match rstrip s' with
      | EmptyString => if is_space c then EmptyString else String c EmptyString
      | r => String c r
      end
  end.

Definition strip (s : string) : string := rstrip (lstrip s).

(** [t.weekday()], Monday being 0: day 0 of the epoch was a Thursday. *)
Definition weekday (t : Z) : Z := (dt_date t + 3) mod 7.

Definition timedelta_days (n : Z) : Z := n * usec_per_day.

(** The range of [datetime]: from the first microsecond of year 1 to the
    last of year 9999, counted from the epoch. *)
Definition datetime_min : Z := -719162 * usec_per_day.
Definition datetime_max : Z := 2932897 * usec_per_day - 1.

(** [timedelta(days=x)]: more than 999999999 days are out of range. *)
Definition timedelta_of_days (x : Z) : outcome Z :=
  if Z.abs x <=? 999999999 then Ok (timedelta_days x) else Raise OverflowError.

(** [t - d] on a [datetime]: the result has to be a [datetime]. *)
Definition datetime_sub (t d : Z) : outcome Z :=
  if (datetime_min <=? t - d) && (t - d <=? datetime_max) then Ok (t - d)
  else Raise OverflowError.

(** [[start - timedelta(days=x) for x in xs]]. *)
Fixpoint days_back (start : Z) (xs : list nat) : outcome (list Z) :=
  match xs with
  | [] => Ok []
  | x :: xs' =>
      d <- timedelta_of_days (Z.of_nat x) ;;
      t <- datetime_sub start d ;;
      ts <- days_back start xs' ;;
      Ok (t :: ts)
  end.

Fixpoint parse_all (strptime : string -> outcome Z) (l : list string)
  : outcome (list Z) :=
  match l with
  | [] => Ok []
  | s :: l' =>
      t <- strptime (strip s) ;;
      ts <- parse_all strptime l' ;;
      Ok (t :: ts)
  end.

(** What [Config.parse_config_file] passes for [days_to_get]: the text of
    the configuration file, or the number 1 when the key is missing. *)
Inductive days_arg : Type :=
| DaysInt (n : Z)
| DaysStr (s : string).

(** [int(days_to_get)]; [int_of_str] stands for [int] on a string, which
    raises [ValueError] when the string is not a number. *)
Definition int_days (int_of_str : string -> outcome Z) (d : days_arg) : outcome Z :=
  match d with
  | DaysInt n => Ok n
  | DaysStr s => int_of_str s
  end.

(** [Config.get_dates_list]; returns what it stores in [self.dates].
    [strptime] stands for [datetime.strptime(_, '%Y%m%d')]. *)
Definition get_dates_list (strptime : string -> outcome Z)
  (int_of_str : string -> outcome Z) (start_date : string)
  (days_to_get : days_arg) : outcome (list Z) :=
  let dates := split "," start_date in
  date_list <-
    (if Nat.eqb (length dates) 1 then
       start <- strptime (strip start_date) ;;
       n <- int_days int_of_str days_to_get ;;
       days_back start (seq 0 (Z.to_nat n))
     else if Nat.ltb 1 (length dates) then parse_all strptime dates
     else Raise (Exception "No date provided")) ;;
  Ok (filter (fun x => weekday x <? 5) date_list).

(** ** IBFactory and main *)

(** [IBFactory.createIBapi]: the designation has to be the name of one of
    the three subclasses. *)
Definition createIBapi (designation output_type_ : string) : outcome IBapi :=
  if String.eqb designation "OPT" then Ok (IBapi_new OPT output_type_)
  else if String.eqb designation "STK" then Ok (IBapi_new STK output_type_)
  else if String.eqb designation "FX" then Ok (IBapi_new FX output_type_)
  else Raise (Exception "Unrecognized class").

(** [for date in config.dates] for one asset. [present] and [answer] say,
    for an asset and a date, whether the day's file exists and what the
    user replies. *)
Fixpoint dates_loop (get_closest_expiry : Z -> bool -> outcome Z) (fuel : nat)
  (config : Config) (present : string -> Z -> bool) (answer : string -> Z -> string)
  (asset base_asset : string) (is_weekly : bool) (dates : list Z)
  (st : World * list tick) : outcome (World * list tick) :=
  match dates with
  | [] => Ok st
  | date :: rest =>
      st' <- day get_closest_expiry fuel config asset base_asset is_weekly date
               (present asset date) (answer asset date) (snd st) (fst st) ;;
      dates_loop get_closest_expiry fuel config present answer asset base_asset
        is_weekly rest st'
  end.

(** [for asset in config.assets]. *)
Fixpoint assets_loop (get_closest_expiry : Z -> bool -> outcome Z) (fuel : nat)
  (config : Config) (present : string -> Z -> bool) (answer : string -> Z -> string)
  (assets : list string) (dates : list Z)
  (st : World * list tick) : outcome (World * list tick) :=
  match assets with
  | [] => Ok st
  | asset :: rest =>
      '(base_asset, is_weekly) <- is_weekly_options asset ;;
      st' <- dates_loop get_closest_expiry fuel config present answer asset
               base_asset is_weekly dates st ;;
      assets_loop get_closest_expiry fuel config present answer rest dates st'
  end.

(** [main], from the loop over the assets on: the application has been
    created and is listening. It ends with the last wait for outstanding
    requests. *)
Definition main (get_closest_expiry : Z -> bool -> outcome Z) (fuel : nat)
  (config : Config) (present : string -> Z -> bool) (answer : string -> Z -> string)
  (assets : list string) (dates : list Z)
  (sched : list tick) (w : World) : outcome (World * list tick) :=
  '(w1, s1) <- assets_loop get_closest_expiry fuel config present answer assets
                 dates (w, sched) ;;
  drain s1 w1.

(** ** IBUtils.Config: the list of assets *)

(** [[x.strip().upper() for x in value.split(',') if len(x) > 1]] of
    [Config.parse_config_file], for the value of the [assets] key. *)
Definition config_assets (value : string) : list string :=
  map (fun x => upper (strip x))
    (filter (fun x => Nat.ltb 1 (String.length x)) (split "," value)).

(** ** Runs, frames and invariants

    The notions the properties below are stated with. *)

(** A run of sends with nothing else in between. *)
Fixpoint send_all (rs : list DataRequest) (sched : list tick) (w : World)
  : outcome (World * list tick) :=
  match rs with
  | [] => Ok (w, sched)
  | r :: rs' =>
      '(w', s') <- send_historical_data_request r sched w ;;
      send_all rs' s' w'
  end.

(** The buckets of a list, run through a body one after the other. *)
Fixpoint run_buckets {S : Type} (body : Z -> Z -> S -> outcome S)
  (buckets : list (Z * Z)) (s : S) : outcome S :=
  match buckets with
  | [] => Ok s
  | (qt, sz) :: rest => s' <- body qt sz s ;; run_buckets body rest s'
  end.

Definition call_id (c : api_call) : Z :=
  match c with
  | reqHistoricalData id _ _ _ _ _ => id
  | reqMktData id _ => id
  | cancelMktData id => id
  | reqContractDetails id _ => id
  end.

(** A call for one of the two reserved ids: the reference-price query or
    the contract-details query. *)
Definition pseudo_call (c : api_call) : Prop :=
  call_id c = OPEN_SPOT_PRICE_REQ_ID \/ call_id c = ALL_OPTION_CONTRACTS_DETAILS_REQ_ID.

Definition quiet (sched : list tick) : Prop :=
  Forall (fun t => arrivals t = []) sched.

(** The fields no callback writes, and the two it can only shrink. *)
Record callback_frame (a a' : IBapi) : Prop := mkFrame
  { frame_kind : kind a' = kind a;
    frame_queue : sent_time_queue a' = sent_time_queue a;
    frame_wire : wire a' = wire a;
    frame_shift : shift_hours a' = shift_hours a;
    frame_mode : mode a' = mode a;
    frame_output_type : output_type a' = output_type a;
    frame_keys : incl (dict_keys (req_id_to_contract a'))
                   (dict_keys (req_id_to_contract a));
    frame_open : open_requests a' <= open_requests a }.

(** What resolving the chain leaves alone: the pacing window is the same,
    nothing is registered, and only reserved-id calls go out. *)
Record skip_frame (a a' : IBapi) : Prop := mkSkipFrame
  { skip_kind : kind a' = kind a;
    skip_queue : sent_time_queue a' = sent_time_queue a;
    skip_keys : incl (dict_keys (req_id_to_contract a'))
                  (dict_keys (req_id_to_contract a));
    skip_open : open_requests a' <= open_requests a;
    skip_wire : exists calls,
        wire a' = wire a ++ calls /\ Forall pseudo_call calls }.

(** The worlds an [FX] application can be in: it starts fresh, sends
    requests, sleeps while events arrive, and does whatever else leaves
    its registry alone (opening files, evicting timestamps, ...). *)
Inductive fx_reach : World -> Prop :=
| fx_init (out : string) (t : Z) (g : list Z) :
    fx_reach (mkWorld (IBapi_new FX out) t g)
| fx_send (r : DataRequest) (sched : list tick) (w w' : World) (s' : list tick) :
    fx_reach w ->
    send_historical_data_request r sched w = Ok (w', s') ->
    fx_reach w'
| fx_pass (t : tick) (w : World) :
    fx_reach w -> fx_reach (pass t w)
| fx_other (w w' : World) :
    fx_reach w ->
    kind (app w') = FX ->
    req_id_to_contract (app w') = req_id_to_contract (app w) ->
    fx_reach w'.

(** Every entry of the registry is one stored by [FX]: it has a time and
    no data request. *)
Definition fx_only (a : IBapi) : Prop :=
  forall id e,
    dict_get Z.eqb (req_id_to_contract a) id = Some e ->
    entry_data_request e = Raise KeyError /\ exists t, entry_time e = Ok t.

(** An application of the currency-pair variant with such a registry. *)
Definition fx_app (a : IBapi) : Prop := kind a = FX /\ fx_only a.

(** A Python dict holds a key once. The association lists that stand for
    the option chain are well formed when they do too. *)
Definition wf_sides (all : list (Q * side_map)) : Prop :=
  Forall (fun e => NoDup (dict_keys (snd e))) all.

Definition wf_strikes (all : list (Q * side_map)) : Prop :=
  NoDupA Qeq (dict_keys all).

Definition no_empty_sides (all : list (Q * side_map)) : Prop :=
  Forall (fun e => snd e <> []) all.

(** The chain of an application, if it has one, is well formed. *)
Definition chain_wf (a : IBapi) : Prop :=
  match chain a with
  | Some c =>
      wf_strikes (all_contracts c) /\ wf_sides (all_contracts c)
      /\ no_empty_sides (all_contracts c)
  | None => True
  end.

(** [side] is not offered for strike [k]. *)
Definition side_gone (k : Q) (side : string) (all : list (Q * side_map)) : Prop :=
  forall m, dict_get Qeq_bool all k = Some m -> dict_get String.eqb m side = None.

Definition key_le {V : Type} (x y : Q * V) : Prop := (fst x <= fst y)%Q.

(** [r] is the element of [l] nearest to [x], the lower one on a tie. *)
Definition closest (x : Q) (l : list Q) (r : Q) : Prop :=
  In r l /\
  forall k, In k l ->
            (Qabs (r - x) <= Qabs (k - x))%Q /\
            (Qabs (k - x) == Qabs (r - x) -> r <= k)%Q.

(** The entries of the queue that are not older than the window. *)
Definition young_entries (now_ : Z) (queue : list Z) : list Z :=
  filter (fun sent => negb (older_than_window now_ sent)) queue.

(** The limits named in the docstring of [check_pacing_violations]: 60
    requests in ten minutes, 50 requests active at the same time. *)
Definition window_limit : nat := 60.
Definition concurrent_limit : Z := 50.

Definition spot_of (a : IBapi) : option Q :=
  match chain a with
  | Some c => Some (open_spot_price c)
  | None => None
  end.

(** End-of-stream events for a list of ids, one after the other. *)
Fixpoint complete_all (ids : list Z) (a : IBapi) : outcome IBapi :=
  match ids with
  | [] => Ok a
  | id :: rest => a' <- historicalDataEnd a id ;; complete_all rest a'
  end.

(** The numbers [np.float32] makes of the time of a bar and of the side
    and right letters. *)
Definition stamp_of (h m s : Z) : Q := inject_Z (h * 10000 + m * 100 + s).

Definition ask_flag (r : DataRequest) : Q :=
  if String.eqb (bid_or_ask r) "ASK" then 1 else 0.

Definition call_flag (k : Contract) : Q :=
  if String.eqb (right k) "C" then 1 else 0.

(** The events that can lower the counter of outstanding requests: the end
    of a stream and an error with code 162. *)
Definition completes (ev : event) : bool :=
  match ev with
  | EvHistoricalDataEnd _ => true
  | EvError _ code _ => code =? 162
  | _ => false
  end.

Definition no_completions (sched : list tick) : Prop :=
  Forall (fun t => forallb (fun ev => negb (completes ev)) (arrivals t) = true) sched.

(** The queries of a day for one contract: for every bucket the selling
    side, then the buying side. *)
Definition bucket_queries (buckets : list (Z * Z)) : list (Z * Z * string) :=
  flat_map (fun b : Z * Z => [(fst b, snd b, "ASK"); (fst b, snd b, "BID")]) buckets.

(** The call is a historical query for [k] with the end time, span and
    side of [x], under an id of the random range. *)
Definition asks_for (k : Contract) (c : api_call) (x : Z * Z * string) : Prop :=
  exists id,
    10 <= id <= 99999 /\
    c = reqHistoricalData id k (fst (fst x)) (snd (fst x) * 60) "5 secs" (snd x).

(** The calls [get_underline_open_price] makes for the reference price:
    a subscription that is cancelled again when the date is today, one
    historical query otherwise. *)
Definition spot_calls (asset : string) (date now_ : Z) : list api_call :=
  if dt_date date =? dt_date now_ then
    [reqMktData OPEN_SPOT_PRICE_REQ_ID (get_asset_contract asset);
     cancelMktData OPEN_SPOT_PRICE_REQ_ID]
  else
    [reqHistoricalData OPEN_SPOT_PRICE_REQ_ID (get_asset_contract asset) date 60
       "1 min" "BID_ASK"].

(** The application has a chain, and it is the chain of [asset]. *)
Definition chain_of (asset : string) (a : IBapi) : Prop :=
  exists c, chain a = Some c /\ underline c = asset.

(** [','.join(names)]. *)
Fixpoint join_commas (names : list string) : string :=
  match names with
  | [] => EmptyString
  | [x] => x
  | x :: rest => x ++ String "," (join_commas rest)
  end.

(** ** Sample inputs *)

Definition spy_option (k : Q) (side : string) : Contract :=
  mkContract "SPY" "OPT" "SMART" "USD" k side (Some 18263).

Definition eurusd : Contract :=
  mkContract "EUR" "CASH" "IDEALPRO" "USD" 0%Q EmptyString None.

Definition no_data_message : string :=
  "Historical Market Data Service error message:HMDS query returned no data: SPY@SMART Bid".

Definition sample_bar : Bar := mkBar 10 0 0 1 2 1 2.

(** A time of day, and a date at midnight, for the samples. *)
Definition at_hm (h m : Z) : Z := h * usec_per_hour + m * usec_per_min.

Definition sample_date : Z := 18263 * usec_per_day.

Definition opt_world : World := mkWorld (IBapi_new OPT "txt") 0 [0; 1; 2; 3].

Definition fx_world : World := mkWorld (IBapi_new FX "txt") 0 [0; 1; 2; 3].

(** The chain as discovery leaves it in the samples: calls and puts at 100,
    a call at 110. *)
Definition chain_events : list event :=
  [EvContractDetails 2 (spy_option 100 "C");
   EvContractDetails 2 (spy_option 100 "P");
   EvContractDetails 2 (spy_option 110 "C");
   EvContractDetailsEnd 2].

Definition opt_with_chain : IBapi :=
  api_thread chain_events
    (set_chain (Some (option_chain_data_new "SPY")) (IBapi_new OPT "txt")).

(** The sample chain once the reference price 101 has arrived. *)
Definition opt_priced : IBapi :=
  api_thread [EvHistoricalData 1 (mkBar 9 30 0 101 101 101 101)] opt_with_chain.

Definition opt_priced_chain : option_chain_data :=
  match chain opt_priced with
  | Some c => c
  | None => option_chain_data_new EmptyString
  end.

(** Two bars for the reference-price request, one after the other. *)
Definition two_spot_bars : list event :=
  [EvHistoricalData OPEN_SPOT_PRICE_REQ_ID (mkBar 9 30 0 101 101 101 101);
   EvHistoricalData OPEN_SPOT_PRICE_REQ_ID (mkBar 9 31 0 102 102 102 102)].

(** Requests for the call and the put at 100 are sent, and the provider
    answers both with "no data". *)
Definition opt_after_errors : outcome IBapi :=
  '(w1, _) <- send_all
                [DataRequest_new (spy_option 100 "C") 0 30 "BID";
                 DataRequest_new (spy_option 100 "P") 0 30 "BID"]
                [] (mkWorld opt_with_chain 0 [0; 1]) ;;
  Ok (api_thread [EvError 10 162 no_data_message; EvError 11 162 no_data_message]
        (app w1)).

Definition opt_queued : IBapi :=
  match opt_after_errors with
  | Ok a => a
  | _ => IBapi_new OPT "txt"
  end.

Definition opt_queued_chain : option_chain_data :=
  match chain opt_queued with
  | Some c => c
  | None => option_chain_data_new EmptyString
  end.

Definition opt_pruned : IBapi :=
  match remove_contracts opt_queued with
  | Ok a => a
  | _ => opt_queued
  end.

(** A burst of 58 requests: 29 contracts, ask and bid each. While the
    gate holds the 51st request back, nine earlier ones complete. *)
Definition burst_contracts : list Contract :=
  map (fun n => spy_option (inject_Z (Z.of_nat n)) "C") (seq 100 29).

Definition burst_world : World :=
  mkWorld (IBapi_new OPT "txt") 0 (map Z.of_nat (seq 0 58)).

Definition burst_schedule : list tick :=
  [mkTick usec_per_sec (map (fun n => EvHistoricalDataEnd (Z.of_nat n)) (seq 10 9))].

Definition burst_end : World :=
  match request_contracts burst_contracts 0 30 (burst_world, burst_schedule) with
  | Ok (w, _) => w
  | _ => burst_world
  end.

(** An option day whose file exists: the reference price arrives during
    the first sleep, the contract details during the second. *)
Definition skip_world : World :=
  mkWorld (IBapi_new OPT "txt") (sample_date + 30 * usec_per_day) [0; 1; 2; 3].

Definition skip_schedule : list tick :=
  [mkTick usec_per_sec [EvHistoricalData 1 (mkBar 9 30 0 101 101 101 101)];
   mkTick usec_per_sec chain_events].

Definition skip_config : Config :=
  mkConfig (at_hm 9 30) (at_hm 16 0) 60 (pct_strikes_from_atm_of 5).

Definition next_week (date : Z) (is_weekly : bool) : outcome Z :=
  Ok (date + 7 * usec_per_day).

Definition skipped_day : outcome (World * list tick) :=
  day next_week 10 skip_config "SPY" "SPY" false sample_date true "no"
    skip_schedule skip_world.

(** [int] on the strings of the samples. *)
Definition sample_int (s : string) : outcome Z :=
  if String.eqb s "7" then Ok 7 else Raise ValueError.

(** A parser that knows one date, 2 January 2020, a Thursday. *)
Definition sample_strptime (s : string) : outcome Z :=
  if String.eqb s "20200102" then Ok sample_date else Raise ValueError.

(** An option application with its output file open and one ask request
    for the call at 100 pending under id 10. *)
Definition ask_100_call : DataRequest :=
  DataRequest_new (spy_option 100 "C") 0 30 "ASK".

Definition opt_tracked : IBapi :=
  set_output_file (Some [])
    (match tracked_send "OPT" ask_100_call opt_world with
     | Ok w => app w
     | _ => app opt_world
     end).

(** Three requests pending, under the ids 10, 11 and 12. *)
Definition opt_three : IBapi :=
  match send_all [ask_100_call; ask_100_call; ask_100_call] [] opt_world with
  | Ok (w, _) => app w
  | _ => app opt_world
  end.



(** A stock day of one bucket: the session runs from 15:00 to 16:00 in
    steps of an hour, and both requests complete during the last wait. *)
Definition stk_world : World :=
  mkWorld (IBapi_new STK "txt") (sample_date + at_hm 18 0) [0; 1].

Definition hour_config : Config :=
  mkConfig (at_hm 15 0) (at_hm 16 0) 60 (pct_strikes_from_atm_of 5).

Definition stk_schedule : list tick :=
  [mkTick usec_per_sec [EvHistoricalDataEnd 10; EvHistoricalDataEnd 11]].

Definition stk_day_end : World :=
  match day next_week 5 hour_config "SPY" "SPY" false sample_date false "no"
          stk_schedule stk_world with
  | Ok (w, _) => w
  | _ => stk_world
  end.

(** A schedule on which bars arrive but no stream ends. *)
Definition bars_only : list tick :=
  [mkTick usec_per_sec [EvHistoricalData 10 sample_bar];
   mkTick usec_per_sec [EvHistoricalData 10 sample_bar]].

(** A fresh option application waiting for the details of its chain. *)
Definition opt_discovering : IBapi :=
  set_chain (Some (option_chain_data_new "SPY")) (IBapi_new OPT "txt").

(** A chain with a strike at the very edge of a band of 3%: calls at 100
    and 103, the reference price at 100. *)
Definition opt_edge : IBapi :=
  set_chain
    (Some (mkChain "SPY" 100
             [(100%Q, [("C", spy_option 100 "C")]);
              (103%Q, [("C", spy_option 103 "C")])]
             true true))
    (IBapi_new OPT "txt").

(** The sample chain after the far strikes have been dropped. *)
Definition opt_kept : IBapi :=
  match keep_close_strikes opt_priced (pct_strikes_from_atm_of 5) with
  | Ok a => a
  | _ => opt_priced
  end.

(** The sample option day up to the point where its chain is resolved. *)
Definition chain_resolved : World :=
  match get_all_needed_contracts next_week "SPY" sample_date false skip_config
          skip_schedule skip_world with
  | Ok (w, _) => w
  | _ => skip_world
  end.

(** A currency day: the end of the first stream arrives while the second
    request is being sent. *)
Definition fx_schedule : list tick :=
  [mkTick usec_per_sec []; mkTick usec_per_sec [EvHistoricalDataEnd 10];
   mkTick usec_per_sec []; mkTick usec_per_sec []].

(** * Properties *)

Arguments randint : simpl never.
Arguments timedelta_minutes : simpl never.
Arguments td_seconds : simpl never.
Arguments dt_replace_hm : simpl never.
Arguments dt_hour : simpl never.
Arguments dt_minute : simpl never.
Arguments dt_date : simpl never.
Arguments older_than_window : simpl never.

(** ** Outcomes *)

Lemma bind_Ok {A B : Type} (m : outcome A) (f : A -> outcome B) (b : B) :
  bind m f = Ok b -> exists a, m = Ok a /\ f a = Ok b.
Proof.
  destruct m as [a | e |]; simpl; intros H; try discriminate.
  exists a; split; [reflexivity | exact H].
Qed.

Lemma of_option_Ok {A : Type} (e : exn) (o : option A) (a : A) :
  of_option e o = Ok a -> o = Some a.
Proof. destruct o; simpl; congruence. Qed.

Ltac inv_bind H :=
  let a := fresh "a" in
  let Ha := fresh "Ha" in
  apply bind_Ok in H; destruct H as [a [Ha H]].

(** ** Correlation ids *)

Lemma randint_range (a b raw : Z) :
  a <= b -> a <= randint a b raw <= b.
Proof.
  intros Hab. unfold randint.
  assert (0 <= raw mod (b - a + 1) < b - a + 1) by (apply Z.mod_pos_bound; lia).
  lia.
Qed.

Lemma existsb_eqb_In (x : Z) (l : list Z) :
  existsb (Z.eqb x) l = true <-> In x l.
Proof.
  rewrite existsb_exists. split.
  - intros [y [Hy Heq]]. apply Z.eqb_eq in Heq. now subst.
  - intros H. exists x. split; [exact H | apply Z.eqb_refl].
Qed.

Lemma get_req_id_spec (used rng : list Z) (id : Z) (rng' : list Z) :
  get_req_id used rng = Ok (id, rng') ->
  10 <= id <= 99999 /\ ~ In id used /\ exists n, rng' = skipn (S n) rng.
Proof.
  induction rng as [| raw rng IH]; simpl; intros H; [discriminate |].
  destruct (existsb (Z.eqb (randint 10 99999 raw)) used) eqn:E.
  - destruct (IH H) as [Hr [Hn [n Hs]]]. repeat split; try tauto.
    exists (S n). exact Hs.
  - injection H as <- <-. split; [apply randint_range; lia |].
    split.
    + intros Hin. apply existsb_eqb_In in Hin. congruence.
    + exists 0%nat. reflexivity.
Qed.

(** The loop ends as soon as a draw is free. *)
Lemma get_req_id_returns (used rng : list Z) :
  Exists (fun raw => ~ In (randint 10 99999 raw) used) rng ->
  exists id rng', get_req_id used rng = Ok (id, rng').
Proof.
  induction 1 as [raw rng H | raw rng H IH]; simpl.
  - destruct (existsb (Z.eqb (randint 10 99999 raw)) used) eqn:E.
    + apply existsb_eqb_In in E. contradiction.
    + eauto.
  - destruct (existsb (Z.eqb (randint 10 99999 raw)) used) eqn:E; eauto.
Qed.

Lemma dict_set_fresh_keys {V : Type} (d : list (Z * V)) (k : Z) (v : V) :
  ~ In k (dict_keys d) -> dict_keys (dict_set Z.eqb d k v) = dict_keys d ++ [k].
Proof.
  induction d as [| [k' v'] d IH]; simpl; intros Hn; [reflexivity |].
  destruct (Z.eqb_spec k' k) as [-> | Hne].
  - exfalso. apply Hn. now left.
  - simpl. f_equal. apply IH. intros Hin. apply Hn. now right.
Qed.

Lemma dict_get_In_keys {V : Type} (d : list (Z * V)) (k : Z) :
  In k (dict_keys d) <-> exists v, dict_get Z.eqb d k = Some v.
Proof.
  induction d as [| [k' v'] d IH]; simpl.
  - split; [tauto | intros [v Hv]; discriminate].
  - destruct (Z.eqb_spec k' k) as [-> | Hne].
    + split; [eauto | tauto].
    + rewrite <- IH. split; [intros [H | H]; [congruence | exact H] | tauto].
Qed.

Lemma pass_quiet (t : tick) (w : World) :
  arrivals t = [] -> app (pass t w) = app w.
Proof. intros H. unfold pass. rewrite H. reflexivity. Qed.

(** What one send does to the registry, the wire and the counters, when
    no event arrives meanwhile. *)
Lemma send_spec (r : DataRequest) (sched : list tick) (w w' : World) (s' : list tick) :
  quiet sched ->
  send_historical_data_request r sched w = Ok (w', s') ->
  exists id c,
    10 <= id <= 99999 /\
    ~ In id (dict_keys (req_id_to_contract (app w))) /\
    dict_keys (req_id_to_contract (app w'))
    = dict_keys (req_id_to_contract (app w)) ++ [id] /\
    wire (app w') = wire (app w) ++ [c] /\ call_id c = id /\
    open_requests (app w') = open_requests (app w) + 1 /\
    sent_time_queue (app w') = sent_time_queue (app w) ++ [now w] /\
    quiet s'.
Proof.
  intros Hq H. unfold send_historical_data_request in H.
  destruct (kind (app w)) eqn:Ek.
  1, 2:
    inv_bind H; injection H as <- <-;
    unfold tracked_send in Ha; inv_bind Ha; destruct a0 as [id rng'];
    injection Ha as <-; simpl in Ha0;
    apply get_req_id_spec in Ha0; destruct Ha0 as [Hr [Hn _]];
    exists id; eexists; simpl;
    rewrite (dict_set_fresh_keys _ _ _ Hn); repeat split; try tauto; try lia.
  unfold FX_send_historical_data_request in H. inv_bind H.
  destruct a as [id rng']. apply get_req_id_spec in Ha.
  destruct Ha as [Hr [Hn _]].
  destruct sched as [| t rest]; simpl in H; [discriminate |].
  injection H as <- <-. inversion Hq as [| ? ? Ht Hrest]; subst.
  exists id. eexists. rewrite (pass_quiet _ _ Ht). simpl.
  rewrite (dict_set_fresh_keys _ _ _ Hn). repeat split; try tauto; try lia.
Qed.

Lemma send_all_spec (rs : list DataRequest) :
  forall (sched : list tick) (w w' : World) (s' : list tick),
    quiet sched ->
    send_all rs sched w = Ok (w', s') ->
    exists ids calls,
      dict_keys (req_id_to_contract (app w'))
      = dict_keys (req_id_to_contract (app w)) ++ ids /\
      wire (app w') = wire (app w) ++ calls /\ map call_id calls = ids /\
      length ids = length rs /\
      Forall (fun id => 10 <= id <= 99999) ids /\
      Forall (fun id => ~ In id (dict_keys (req_id_to_contract (app w)))) ids /\
      NoDup ids.
Proof.
  induction rs as [| r rs IH]; simpl; intros sched w w' s' Hq H.
  - injection H as <- <-. exists [], []. rewrite !app_nil_r. simpl.
    repeat split; auto using NoDup_nil.
  - inv_bind H. destruct a as [w1 s1].
    destruct (send_spec _ _ _ _ _ Hq Ha) as (id & c & Hr & Hn & Hk & Hw & Hc & _ & _ & Hq1).
    destruct (IH _ _ _ _ Hq1 H) as (ids & calls & Hk' & Hw' & Hm & Hl & Hf & Hd & Hnd).
    exists (id :: ids), (c :: calls).
    rewrite Hk', Hk, Hw', Hw, <- !app_assoc. simpl.
    rewrite Hk in Hd. rewrite Forall_forall in Hd.
    repeat split; try congruence; try lia.
    + constructor; assumption.
    + constructor; [exact Hn |]. apply Forall_forall. intros x Hx Hin.
      apply (Hd x Hx). apply in_or_app. now left.
    + constructor; [| exact Hnd]. intros Hin.
      apply (Hd id Hin). apply in_or_app. right. now left.
Qed.

(** C10: every id returned by [get_req_id] lies in [10..99999] and is not
    among the used ids it was given, so it is neither of the reserved ids
    1 and 2; and the ids assigned by a run of registrations with no removal
    in between are pairwise distinct, in range and new. *)
Theorem get_req_id_fresh_and_distinct :
  (forall (used rng : list Z) (id : Z) (rng' : list Z),
      get_req_id used rng = Ok (id, rng') ->
      10 <= id <= 99999 /\ ~ In id used /\
      id <> OPEN_SPOT_PRICE_REQ_ID /\ id <> ALL_OPTION_CONTRACTS_DETAILS_REQ_ID) /\
  (forall (rs : list DataRequest) (sched : list tick) (w w' : World) (s' : list tick),
      quiet sched ->
      send_all rs sched w = Ok (w', s') ->
      exists ids calls,
        dict_keys (req_id_to_contract (app w'))
        = dict_keys (req_id_to_contract (app w)) ++ ids /\
        wire (app w') = wire (app w) ++ calls /\ map call_id calls = ids /\
        length ids = length rs /\
        Forall (fun id => 10 <= id <= 99999) ids /\
        Forall (fun id => ~ In id (dict_keys (req_id_to_contract (app w)))) ids /\
        NoDup ids).
Proof.
  split.
  - intros used rng id rng' H. apply get_req_id_spec in H.
    destruct H as [Hr [Hn _]].
    unfold OPEN_SPOT_PRICE_REQ_ID, ALL_OPTION_CONTRACTS_DETAILS_REQ_ID.
    repeat split; try tauto; lia.
  - intros rs. apply send_all_spec.
Qed.

Lemma get_req_id_fresh_and_distinct_witness :
  get_req_id [10; 11] [0; 99991; 2] = Ok (12, []) /\
  (10 <= 12 <= 99999 /\ ~ In 12 [10; 11] /\
   12 <> OPEN_SPOT_PRICE_REQ_ID /\ 12 <> ALL_OPTION_CONTRACTS_DETAILS_REQ_ID).
Proof.
  split; [reflexivity |].
  apply (proj1 get_req_id_fresh_and_distinct [10; 11] [0; 99991; 2] 12 []).
  reflexivity.
Defined.

(** ** What a callback can change *)

Ltac break_if H :=
  match type of H with
  | context [if ?c then _ else _] => destruct c eqn:?
  | context [match ?x with _ => _ end] => destruct x eqn:?
  end.

Ltac crush_outcome H :=
  repeat (simpl in H;
          first [ discriminate H
                | match type of H with
                  | Ok _ = Ok _ => injection H as H; try subst
                  | bind _ _ = Ok _ =>
                      let a := fresh "a" in
                      let Ha := fresh "Ha" in
                      apply bind_Ok in H; destruct H as [a [Ha H]]
                  end
                | break_if H ]).

Lemma dict_del_keys_incl {V : Type} (d d' : list (Z * V)) (k : Z) :
  dict_del Z.eqb d k = Some d' -> incl (dict_keys d') (dict_keys d).
Proof.
  revert d'. induction d as [| [k' v'] d IH]; simpl; intros d' H; [discriminate |].
  destruct (Z.eqb k' k).
  - injection H as <-. apply incl_tl, incl_refl.
  - destruct (dict_del Z.eqb d k) as [r |]; [| discriminate].
    injection H as <-. simpl. apply incl_cons; [now left |].
    apply incl_tl. now apply IH.
Qed.

Lemma dict_del_length {V : Type} (d d' : list (Z * V)) (k : Z) :
  dict_del Z.eqb d k = Some d' -> length d = S (length d').
Proof.
  revert d'. induction d as [| [k' v'] d IH]; simpl; intros d' H; [discriminate |].
  destruct (Z.eqb k' k).
  - now injection H as <-.
  - destruct (dict_del Z.eqb d k) as [r |]; [| discriminate].
    injection H as <-. simpl. f_equal. now apply IH.
Qed.

Lemma write_to_file_frame (a a' : IBapi) (line : list field) :
  write_to_file a line = Ok a' ->
  a' = set_output_file (output_file a') a.
Proof.
  unfold write_to_file. intros H. crush_outcome H; reflexivity.
Qed.

Lemma callback_frame_refl (a : IBapi) : callback_frame a a.
Proof. constructor; try reflexivity; try apply incl_refl; try lia. Qed.

Lemma callback_frame_trans (a b c : IBapi) :
  callback_frame a b -> callback_frame b c -> callback_frame a c.
Proof.
  intros [] []. constructor; try congruence.
  - eapply incl_tran; eassumption.
  - lia.
Qed.

Lemma write_to_file_callback_frame (a a' : IBapi) (line : list field) :
  write_to_file a line = Ok a' -> callback_frame a a'.
Proof.
  intros H. apply write_to_file_frame in H. rewrite H.
  constructor; simpl; try reflexivity; try apply incl_refl; try lia.
Qed.

Lemma dispatch_frame (a a' : IBapi) (ev : event) :
  dispatch a ev = Ok a' -> callback_frame a a'.
Proof.
  destruct ev as [id bar | id | id k | id | id code msg]; simpl; intros H.
  - unfold historicalData, OPT_historicalData, STK_historicalData,
      FX_historicalData in H.
    destruct (kind a); crush_outcome H;
      try (eapply write_to_file_callback_frame; eassumption).
    constructor; simpl; try reflexivity; try apply incl_refl; try lia.
  - unfold historicalDataEnd in H. crush_outcome H;
      try apply callback_frame_refl.
    all: constructor; simpl; try reflexivity; try lia.
    all: eapply dict_del_keys_incl; eapply of_option_Ok; eassumption.
  - unfold contractDetails in H. crush_outcome H;
      try apply callback_frame_refl;
      constructor; simpl; try reflexivity; try apply incl_refl; lia.
  - unfold contractDetailsEnd in H. crush_outcome H;
      try apply callback_frame_refl;
      constructor; simpl; try reflexivity; try apply incl_refl; lia.
  - unfold error in H. crush_outcome H; try apply callback_frame_refl.
    constructor; simpl; try reflexivity; try apply incl_refl; try lia.
Qed.

Lemma set_connected_frame (a : IBapi) (b : bool) :
  callback_frame a (set_connected b a).
Proof. constructor; simpl; try reflexivity; try apply incl_refl; try lia. Qed.

Lemma api_thread_frame (evs : list event) :
  forall a, callback_frame a (api_thread evs a).
Proof.
  induction evs as [| ev evs IH]; simpl; intros a.
  - apply callback_frame_refl.
  - destruct (connected a); [| apply callback_frame_refl].
    destruct (dispatch a ev) as [a' | e |] eqn:E;
      try apply set_connected_frame.
    eapply callback_frame_trans; [eapply dispatch_frame; eassumption | apply IH].
Qed.

(** ** The counter and the registry *)

Lemma dict_get_set {V : Type} (d : list (Z * V)) (k k' : Z) (v : V) :
  dict_get Z.eqb (dict_set Z.eqb d k v) k'
  = if Z.eqb k k' then Some v else dict_get Z.eqb d k'.
Proof.
  induction d as [| [k0 v0] d IH]; simpl.
  - reflexivity.
  - destruct (Z.eqb_spec k0 k) as [-> | Hne]; simpl.
    + destruct (Z.eqb k k'); reflexivity.
    + rewrite IH. destruct (Z.eqb_spec k0 k') as [-> | Hne'].
      * destruct (Z.eqb_spec k k'); [congruence | reflexivity].
      * reflexivity.
Qed.

Lemma dict_mem_get {V : Type} (d : list (Z * V)) (k : Z) :
  dict_mem Z.eqb d k = true -> exists v, dict_get Z.eqb d k = Some v.
Proof.
  unfold dict_mem. destruct (dict_get Z.eqb d k) as [v |]; [eauto | discriminate].
Qed.

(** The completion path removes the entry and decrements the counter. *)
Lemma historicalDataEnd_tracked (a a' : IBapi) (id : Z) :
  dict_mem Z.eqb (req_id_to_contract a) id = true ->
  historicalDataEnd a id = Ok a' ->
  open_requests a' = open_requests a - 1 /\
  length (req_id_to_contract a) = S (length (req_id_to_contract a')) /\
  dict_del Z.eqb (req_id_to_contract a) id = Some (req_id_to_contract a').
Proof.
  intros Hm H. apply dict_mem_get in Hm. destruct Hm as [e He].
  unfold historicalDataEnd in H. rewrite He in H.
  inv_bind H. inv_bind H. inv_bind H. injection H as <-. simpl.
  apply of_option_Ok in Ha1. repeat split; [| exact Ha1].
  eapply dict_del_length; eassumption.
Qed.

Lemma historicalDataEnd_keeps_count (a a' : IBapi) (id : Z) :
  open_requests a = Z.of_nat (length (req_id_to_contract a)) ->
  dict_mem Z.eqb (req_id_to_contract a) id = true ->
  historicalDataEnd a id = Ok a' ->
  open_requests a' = Z.of_nat (length (req_id_to_contract a')).
Proof.
  intros Hc Hm H. destruct (historicalDataEnd_tracked _ _ _ Hm H) as [Ho [Hl _]].
  lia.
Qed.

(** A send adds one entry and increments the counter. *)
Lemma send_keeps_count (r : DataRequest) (sched : list tick) (w w' : World)
  (s' : list tick) :
  quiet sched ->
  open_requests (app w) = Z.of_nat (length (req_id_to_contract (app w))) ->
  send_historical_data_request r sched w = Ok (w', s') ->
  open_requests (app w') = Z.of_nat (length (req_id_to_contract (app w'))).
Proof.
  intros Hq Hc H.
  destruct (send_spec _ _ _ _ _ Hq H) as (id & c & _ & _ & Hk & _ & _ & Ho & _).
  apply (f_equal (@length Z)) in Hk. unfold dict_keys in Hk.
  rewrite length_app, !length_map in Hk. simpl in Hk. lia.
Qed.


(** C2: the counter equals the size of the registry after a request is
    sent, and a "no data" error (code 162) for that request decrements the
    counter while its entry stays in the registry, so the two differ
    afterwards. *)
Theorem error_no_data_leaves_entry :
  exists w1 a2,
    send_historical_data_request
      (DataRequest_new (spy_option 100 "C") 0 30 "BID") [] opt_world = Ok (w1, []) /\
    open_requests (app w1) = Z.of_nat (length (req_id_to_contract (app w1))) /\
    dict_keys (req_id_to_contract (app w1)) = [10] /\
    error (app w1) 10 162 no_data_message = Ok a2 /\
    open_requests a2 = 0 /\
    dict_keys (req_id_to_contract a2) = [10] /\
    open_requests a2 <> Z.of_nat (length (req_id_to_contract a2)).
Proof.
  eexists. eexists.
  split; [vm_compute; reflexivity |].
  split; [reflexivity |].
  split; [reflexivity |].
  split; [vm_compute; reflexivity |].
  split; [reflexivity |].
  split; [reflexivity |].
  simpl. lia.
Qed.

(** ** End of stream *)

(** An id that is neither tracked nor the reference-price id is fatal. *)
Lemma historicalDataEnd_unknown (a : IBapi) (id : Z) :
  dict_mem Z.eqb (req_id_to_contract a) id = false ->
  id <> OPEN_SPOT_PRICE_REQ_ID ->
  historicalDataEnd a id = Raise (Exception "Unknown req_id!!!").
Proof.
  unfold dict_mem, historicalDataEnd. intros Hm Hne.
  destruct (dict_get Z.eqb (req_id_to_contract a) id); [discriminate |].
  destruct (Z.eqb_spec id OPEN_SPOT_PRICE_REQ_ID); [contradiction | reflexivity].
Qed.

(** The reference-price id, when not tracked, is a no-op. *)
Lemma historicalDataEnd_spot (a : IBapi) :
  dict_mem Z.eqb (req_id_to_contract a) OPEN_SPOT_PRICE_REQ_ID = false ->
  historicalDataEnd a OPEN_SPOT_PRICE_REQ_ID = Ok a.
Proof.
  unfold dict_mem, historicalDataEnd. intros Hm.
  destruct (dict_get Z.eqb (req_id_to_contract a) OPEN_SPOT_PRICE_REQ_ID);
    [discriminate | reflexivity].
Qed.

Lemma dict_get_del_some {V : Type} (d : list (Z * V)) (k : Z) (v : V) :
  dict_get Z.eqb d k = Some v -> exists d', dict_del Z.eqb d k = Some d'.
Proof.
  induction d as [| [k0 v0] d IH]; simpl; [discriminate |].
  destruct (Z.eqb k0 k); [eauto |].
  intros H. destruct (IH H) as [d' ->]. eauto.
Qed.

(** An entry stored by [OPT] or [STK] completes without an exception. *)
Lemma historicalDataEnd_tracked_request (a : IBapi) (id : Z) (sec : string)
  (r : DataRequest) (t : Z) :
  dict_get Z.eqb (req_id_to_contract a) id = Some (entry_of_request sec r t) ->
  exists a', historicalDataEnd a id = Ok a'.
Proof.
  intros He. unfold historicalDataEnd. rewrite He. simpl.
  destruct (dict_get_del_some _ _ _ He) as [d' ->]. simpl. eauto.
Qed.

(** An entry stored by [FX] makes both handlers fail on the missing
    field. *)
Lemma historicalDataEnd_fx_entry (a : IBapi) (id : Z) (side : string) (t : Z) :
  dict_get Z.eqb (req_id_to_contract a) id = Some (entry_fx side t) ->
  historicalDataEnd a id = Raise KeyError.
Proof. intros He. unfold historicalDataEnd. rewrite He. reflexivity. Qed.

(** C6: an end-of-stream event for an id that is neither tracked nor the
    reference-price id raises; but for an id that is tracked, registered by
    the currency-pair variant, the handler raises too ([KeyError]) instead
    of completing. *)
Theorem historicalDataEnd_fx_tracked_raises :
  exists w1,
    send_historical_data_request
      (DataRequest_new eurusd 0 30 "BID") [mkTick 0 []] fx_world = Ok (w1, []) /\
    dict_mem Z.eqb (req_id_to_contract (app w1)) 10 = true /\
    historicalDataEnd (app w1) 10 = Raise KeyError /\
    historicalDataEnd (app w1) 11 = Raise (Exception "Unknown req_id!!!") /\
    historicalDataEnd (app w1) OPEN_SPOT_PRICE_REQ_ID = Ok (app w1).
Proof.
  eexists. split; [vm_compute; reflexivity |].
  repeat split; reflexivity.
Qed.

(** ** The currency-pair variant never writes a record *)

Lemma fx_only_set (a : IBapi) (id : Z) (side : string) (t : Z) :
  fx_only a ->
  fx_only (set_req_id_to_contract
             (dict_set Z.eqb (req_id_to_contract a) id (entry_fx side t)) a).
Proof.
  intros Hf id' e. simpl. rewrite dict_get_set.
  destruct (Z.eqb id id').
  - intros H. injection H as <-. split; [reflexivity | exists t; reflexivity].
  - apply Hf.
Qed.

(** On such a registry no callback returns with the registry changed. *)
Lemma fx_dispatch_registry (a a' : IBapi) (ev : event) :
  kind a = FX -> fx_only a ->
  dispatch a ev = Ok a' ->
  req_id_to_contract a' = req_id_to_contract a.
Proof.
  intros Hk Hf H.
  destruct ev as [id bar | id | id k | id | id code msg]; simpl in H.
  - unfold historicalData in H. rewrite Hk in H. unfold FX_historicalData in H.
    inv_bind H.
    destruct (dict_get Z.eqb (req_id_to_contract a) id) as [e |] eqn:E;
      [| discriminate].
    destruct (Hf _ _ E) as [Hr _]. rewrite Hr in H. discriminate.
  - unfold historicalDataEnd in H.
    destruct (dict_get Z.eqb (req_id_to_contract a) id) as [e |] eqn:E.
    + destruct (Hf _ _ E) as [Hr [t Ht]]. rewrite Ht, Hr in H. discriminate.
    + destruct (id =? OPEN_SPOT_PRICE_REQ_ID); [| discriminate].
      now injection H as <-.
  - unfold contractDetails in H. crush_outcome H; reflexivity.
  - unfold contractDetailsEnd in H. crush_outcome H; reflexivity.
  - unfold error in H.
    destruct (String.eqb (mode a) "historical" && existsb (Z.eqb code) ignored_codes);
      [now injection H as <- |].
    destruct (dict_get Z.eqb (req_id_to_contract a) id) as [e |] eqn:E.
    + destruct (Hf _ _ E) as [Hr _]. rewrite Hr in H. discriminate.
    + now injection H as <-.
Qed.

Lemma fx_api_thread (evs : list event) :
  forall a, kind a = FX -> fx_only a ->
            req_id_to_contract (api_thread evs a) = req_id_to_contract a.
Proof.
  induction evs as [| ev evs IH]; simpl; intros a Hk Hf; [reflexivity |].
  destruct (connected a); [| reflexivity].
  destruct (dispatch a ev) as [a' | e |] eqn:E; try reflexivity.
  pose proof (fx_dispatch_registry _ _ _ Hk Hf E) as Hr.
  rewrite IH.
  - exact Hr.
  - rewrite (frame_kind _ _ (dispatch_frame _ _ _ E)). exact Hk.
  - unfold fx_only. rewrite Hr. exact Hf.
Qed.

Lemma fx_reach_inv (w : World) :
  fx_reach w -> kind (app w) = FX /\ fx_only (app w).
Proof.
  induction 1 as [out t g | r sched w w' s' Hw [Hk Hf] Hs | t w Hw [Hk Hf]
                 | w w' Hw [Hk Hf] Hk' Hr].
  - split; [reflexivity |]. intros id e H. discriminate.
  - unfold send_historical_data_request in Hs. rewrite Hk in Hs.
    unfold FX_send_historical_data_request in Hs. inv_bind Hs.
    destruct a as [id g']. destruct sched as [| t rest]; simpl in Hs; [discriminate |].
    injection Hs as <- <-. simpl.
    match goal with
    | |- kind (api_thread ?evs ?a0) = FX /\ _ =>
        assert (Hk0 : kind a0 = FX) by exact Hk;
        assert (Hf0 : fx_only a0) by
          (intros i e0; simpl; apply (fx_only_set (app w) id _ _ Hf));
        split;
        [ rewrite (frame_kind _ _ (api_thread_frame evs a0)); exact Hk0
        | unfold fx_only; rewrite (fx_api_thread evs a0 Hk0 Hf0); exact Hf0 ]
    end.
  - simpl. split.
    + rewrite (frame_kind _ _ (api_thread_frame _ _)). exact Hk.
    + unfold fx_only. rewrite (fx_api_thread _ _ Hk Hf). exact Hf.
  - split; [exact Hk' |]. unfold fx_only. rewrite Hr. exact Hf.
Qed.

(** C9: in the currency-pair variant, for every id still in the registry
    (each was put there by [FX.send_historical_data_request]), the
    end-of-stream handler fails with [KeyError], the bar-data handler never
    returns normally, hence writes nothing, and fails with [KeyError]
    whenever the shifted hour of the bar is a valid hour. *)
Theorem fx_tracked_id_key_error (w : World) (id : Z) (bar : Bar) :
  fx_reach w ->
  dict_mem Z.eqb (req_id_to_contract (app w)) id = true ->
  historicalDataEnd (app w) id = Raise KeyError /\
  (forall a', historicalData (app w) id bar <> Ok a') /\
  (0 <= bar_hour bar - shift_hours (app w) <= 23 ->
   historicalData (app w) id bar = Raise KeyError).
Proof.
  intros Hw Hm. destruct (fx_reach_inv w Hw) as [Hk Hf].
  apply dict_mem_get in Hm. destruct Hm as [e He].
  destruct (Hf _ _ He) as [Hr [t Ht]].
  unfold historicalDataEnd, historicalData, FX_historicalData.
  rewrite Hk, He, Ht, Hr. simpl.
  split; [reflexivity |]. split.
  - intros a'. destruct (IBapi_historicalData (app w) bar); simpl; discriminate.
  - intros Hh. unfold IBapi_historicalData.
    replace ((0 <=? bar_hour bar - shift_hours (app w))
             && (bar_hour bar - shift_hours (app w) <=? 23)) with true.
    + reflexivity.
    + symmetry. apply andb_true_intro. split; apply Z.leb_le; lia.
Qed.

Lemma fx_tracked_id_key_error_witness :
  exists w1,
    send_historical_data_request
      (DataRequest_new eurusd 0 30 "BID") [mkTick 0 []] fx_world = Ok (w1, []) /\
    historicalDataEnd (app w1) 10 = Raise KeyError /\
    historicalData (app w1) 10 sample_bar = Raise KeyError.
Proof.
  eexists. split; [vm_compute; reflexivity |].
  assert (Hr : fx_reach
                 (mkWorld (api_thread []
                    (set_open_requests 1
                       (set_sent_time_queue [0]
                          (send_call
                             (historical_call 10 (DataRequest_new eurusd 0 30 "BID"))
                             (set_req_id_to_contract [(10, entry_fx "BID" 0)]
                                (IBapi_new FX "txt"))))))
                    0 [1; 2; 3])).
  { apply (fx_send (DataRequest_new eurusd 0 30 "BID") [mkTick 0 []] fx_world _ []).
    - apply fx_init.
    - reflexivity. }
  destruct (fx_tracked_id_key_error _ 10 sample_bar Hr eq_refl) as [H1 [_ H3]].
  split; [exact H1 |]. apply H3. simpl. lia.
Defined.

(** ** Dictionaries over any key equality *)

Section DictFacts.
Context {K V : Type}.
Variable eqb : K -> K -> bool.
Hypothesis eqb_refl : forall k, eqb k k = true.
Hypothesis eqb_sym : forall k k', eqb k k' = eqb k' k.
Hypothesis eqb_trans : forall a b c, eqb a b = true -> eqb b c = true -> eqb a c = true.

Lemma eqb_congr (a b c : K) : eqb a b = true -> eqb a c = eqb b c.
Proof.
  intros Hab. destruct (eqb b c) eqn:Hbc.
  - eapply eqb_trans; eassumption.
  - destruct (eqb a c) eqn:Hac; [| reflexivity].
    rewrite <- Hbc. symmetry. apply (eqb_trans b a c); [| exact Hac].
    rewrite eqb_sym. exact Hab.
Qed.

Lemma dict_get_set_eqb (d : list (K * V)) (k k' : K) (v : V) :
  dict_get eqb (dict_set eqb d k v) k'
  = if eqb k k' then Some v else dict_get eqb d k'.
Proof.
  induction d as [| [k0 v0] d IH]; simpl; [reflexivity |].
  destruct (eqb k0 k) eqn:E0; simpl.
  - rewrite (eqb_congr k0 k k' E0). destruct (eqb k k'); reflexivity.
  - rewrite IH. destruct (eqb k0 k') eqn:E1; [| reflexivity].
    destruct (eqb k k') eqn:E2; [| reflexivity].
    rewrite (eqb_congr k0 k' k E1), eqb_sym, E2 in E0. discriminate.
Qed.

Lemma dict_set_present_keys (d : list (K * V)) (k : K) (v v' : V) :
  dict_get eqb d k = Some v' -> dict_keys (dict_set eqb d k v) = dict_keys d.
Proof.
  induction d as [| [k0 v0] d IH]; simpl; [discriminate |].
  destruct (eqb k0 k); simpl; [reflexivity |].
  intros H. f_equal. apply IH, H.
Qed.

Lemma dict_set_absent (d : list (K * V)) (k : K) (v : V) :
  dict_get eqb d k = None -> dict_set eqb d k v = d ++ [(k, v)].
Proof.
  induction d as [| [k0 v0] d IH]; simpl; [reflexivity |].
  destruct (eqb k0 k); [discriminate |].
  intros H. f_equal. apply IH, H.
Qed.

Lemma dict_get_app (d d' : list (K * V)) (k : K) :
  dict_get eqb (d ++ d') k
  = match dict_get eqb d k with
    | Some v => Some v
    | None => dict_get eqb d' k
    end.
Proof.
  induction d as [| [k0 v0] d IH]; simpl; [reflexivity |].
  destruct (eqb k0 k); [reflexivity | exact IH].
Qed.
End DictFacts.

Lemma Qeq_bool_sym (x y : Q) : Qeq_bool x y = Qeq_bool y x.
Proof.
  destruct (Qeq_bool x y) eqn:E; symmetry.
  - apply Qeq_bool_iff. symmetry. now apply Qeq_bool_iff.
  - destruct (Qeq_bool y x) eqn:E'; [| reflexivity].
    apply Qeq_bool_iff in E'. symmetry in E'. apply Qeq_bool_iff in E'. congruence.
Qed.

Lemma Qeq_bool_trans (a b c : Q) :
  Qeq_bool a b = true -> Qeq_bool b c = true -> Qeq_bool a c = true.
Proof.
  rewrite !Qeq_bool_iff. intros H1 H2. now rewrite H1.
Qed.

Lemma String_eqb_trans (a b c : string) :
  String.eqb a b = true -> String.eqb b c = true -> String.eqb a c = true.
Proof. rewrite !String.eqb_eq. congruence. Qed.

(** ** Applying the queued removals *)

Lemma side_del_some (m m' : side_map) (s : string) :
  NoDup (dict_keys m) ->
  dict_del String.eqb m s = Some m' ->
  ~ In s (dict_keys m') /\ NoDup (dict_keys m') /\ incl (dict_keys m') (dict_keys m).
Proof.
  revert m'. induction m as [| [k v] m IH]; simpl; intros m' Hnd H; [discriminate |].
  inversion Hnd as [| ? ? Hk Hm]; subst.
  destruct (String.eqb_spec k s) as [-> | Hne].
  - injection H as <-. repeat split; [exact Hk | exact Hm | apply incl_tl, incl_refl].
  - destruct (dict_del String.eqb m s) as [r |] eqn:E; [| discriminate].
    injection H as <-. destruct (IH r Hm eq_refl) as [Hn [Hnd' Hi]]. simpl.
    repeat split.
    + intros [Heq | Hin]; [congruence | contradiction].
    + constructor; [| exact Hnd']. intros Hin. apply Hk, Hi, Hin.
    + apply incl_cons; [now left | apply incl_tl, Hi].
Qed.

Lemma side_del_none (m : side_map) (s : string) :
  dict_del String.eqb m s = None -> ~ In s (dict_keys m).
Proof.
  induction m as [| [k v] m IH]; simpl; intros H; [tauto |].
  destruct (String.eqb_spec k s) as [-> | Hne]; [discriminate |].
  destruct (dict_del String.eqb m s); [discriminate |].
  intros [Heq | Hin]; [congruence | now apply IH].
Qed.

Lemma remove_sides_spec (queued : list string) :
  forall m : side_map,
    NoDup (dict_keys m) ->
    NoDup (dict_keys (remove_sides queued m)) /\
    incl (dict_keys (remove_sides queued m)) (dict_keys m) /\
    forall s, In s queued -> ~ In s (dict_keys (remove_sides queued m)).
Proof.
  unfold remove_sides.
  induction queued as [| s0 queued IH]; simpl; intros m Hnd.
  - repeat split; [exact Hnd | apply incl_refl | tauto].
  - destruct (dict_del String.eqb m s0) as [m' |] eqn:E.
    + destruct (side_del_some _ _ _ Hnd E) as [Hn [Hnd' Hi]].
      destruct (IH m' Hnd') as [H1 [H2 H3]].
      repeat split; [exact H1 | eapply incl_tran; eassumption |].
      intros s [<- | Hs]; [| now apply H3].
      intros Hin. apply Hn, H2, Hin.
    + destruct (IH m Hnd) as [H1 [H2 H3]].
      repeat split; [exact H1 | exact H2 |].
      intros s [<- | Hs]; [| now apply H3].
      intros Hin. apply (side_del_none _ _ E), H2, Hin.
Qed.

Lemma side_get_none_iff (m : side_map) (s : string) :
  dict_get String.eqb m s = None <-> ~ In s (dict_keys m).
Proof.
  induction m as [| [k v] m IH]; simpl; [tauto |].
  destruct (String.eqb_spec k s) as [-> | Hne].
  - split; [discriminate | intros H; exfalso; apply H; now left].
  - rewrite IH. split; [intros H [Heq | Hin]; [congruence | tauto] | tauto].
Qed.

Lemma dict_get_Qeq (d : list (Q * side_map)) (k k' : Q) :
  Qeq_bool k k' = true -> dict_get Qeq_bool d k = dict_get Qeq_bool d k'.
Proof.
  intros H. induction d as [| [k0 v0] d IH]; simpl; [reflexivity |].
  rewrite IH.
  rewrite (Qeq_bool_sym k0 k), (Qeq_bool_sym k0 k').
  rewrite (eqb_congr Qeq_bool Qeq_bool_sym Qeq_bool_trans k k' k0 H).
  reflexivity.
Qed.

Lemma wf_sides_get (all : list (Q * side_map)) (k : Q) (m : side_map) :
  wf_sides all -> dict_get Qeq_bool all k = Some m -> NoDup (dict_keys m).
Proof.
  unfold wf_sides. induction 1 as [| [k0 m0] all Hm Hall IH]; simpl; [discriminate |].
  destruct (Qeq_bool k0 k); [| exact IH].
  intros H. injection H as <-. exact Hm.
Qed.

Lemma wf_sides_set (all : list (Q * side_map)) (k : Q) (m : side_map) :
  wf_sides all -> NoDup (dict_keys m) -> wf_sides (dict_set Qeq_bool all k m).
Proof.
  unfold wf_sides. induction 1 as [| [k0 m0] all Hm Hall IH]; simpl; intros Hnd.
  - constructor; [exact Hnd | constructor].
  - destruct (Qeq_bool k0 k); constructor; auto.
Qed.

Lemma remove_strike_sides_wf (all : list (Q * side_map)) (e : Q * list string) :
  wf_sides all -> wf_sides (remove_strike_sides all e).
Proof.
  intros Hwf. unfold remove_strike_sides.
  destruct (dict_get Qeq_bool all (fst e)) as [m |] eqn:E; [| exact Hwf].
  apply wf_sides_set; [exact Hwf |].
  apply remove_sides_spec. eapply wf_sides_get; eassumption.
Qed.

Lemma remove_strike_sides_keys (all : list (Q * side_map)) (e : Q * list string) :
  dict_keys (remove_strike_sides all e) = dict_keys all.
Proof.
  unfold remove_strike_sides.
  destruct (dict_get Qeq_bool all (fst e)) as [m |] eqn:E; [| reflexivity].
  eapply dict_set_present_keys; eassumption.
Qed.

Lemma remove_strike_sides_keeps_gone (all : list (Q * side_map))
  (e : Q * list string) (k : Q) (side : string) :
  wf_sides all -> side_gone k side all ->
  side_gone k side (remove_strike_sides all e).
Proof.
  intros Hwf Hg. unfold remove_strike_sides.
  destruct (dict_get Qeq_bool all (fst e)) as [m0 |] eqn:E; [| exact Hg].
  intros m. rewrite (dict_get_set_eqb Qeq_bool Qeq_bool_sym Qeq_bool_trans).
  destruct (Qeq_bool (fst e) k) eqn:Ek; [| apply Hg].
  intros H. injection H as <-.
  rewrite (dict_get_Qeq all _ _ Ek) in E.
  apply side_get_none_iff. intros Hin.
  pose proof (Hg _ E) as Hn. apply side_get_none_iff in Hn. apply Hn.
  apply (proj1 (proj2 (remove_sides_spec (snd e) m0 (wf_sides_get _ _ _ Hwf E)))).
  exact Hin.
Qed.

Lemma remove_strike_sides_gone (all : list (Q * side_map)) (e : Q * list string)
  (side : string) :
  wf_sides all -> In side (snd e) ->
  side_gone (fst e) side (remove_strike_sides all e).
Proof.
  intros Hwf Hin. unfold remove_strike_sides.
  destruct (dict_get Qeq_bool all (fst e)) as [m0 |] eqn:E.
  - intros m. rewrite (dict_get_set_eqb Qeq_bool Qeq_bool_sym Qeq_bool_trans).
    rewrite Qeq_bool_refl. intros H. injection H as <-.
    apply side_get_none_iff.
    apply (proj2 (proj2 (remove_sides_spec (snd e) m0 (wf_sides_get _ _ _ Hwf E)))).
    exact Hin.
  - intros m H. congruence.
Qed.

Lemma fold_remove_wf (queued : list (Q * list string)) :
  forall all, wf_sides all -> wf_sides (fold_left remove_strike_sides queued all).
Proof.
  induction queued as [| e queued IH]; simpl; intros all Hwf; [exact Hwf |].
  apply IH, remove_strike_sides_wf, Hwf.
Qed.

Lemma fold_remove_keys (queued : list (Q * list string)) :
  forall all, dict_keys (fold_left remove_strike_sides queued all) = dict_keys all.
Proof.
  induction queued as [| e queued IH]; simpl; intros all; [reflexivity |].
  rewrite IH. apply remove_strike_sides_keys.
Qed.

Lemma fold_remove_keeps_gone (queued : list (Q * list string)) (k : Q) (side : string) :
  forall all, wf_sides all -> side_gone k side all ->
              side_gone k side (fold_left remove_strike_sides queued all).
Proof.
  induction queued as [| e queued IH]; simpl; intros all Hwf Hg; [exact Hg |].
  apply IH; [apply remove_strike_sides_wf, Hwf |].
  apply remove_strike_sides_keeps_gone; assumption.
Qed.

Lemma fold_remove_gone (queued : list (Q * list string)) (k : Q)
  (sides : list string) (side : string) :
  forall all, wf_sides all -> In (k, sides) queued -> In side sides ->
              side_gone k side (fold_left remove_strike_sides queued all).
Proof.
  induction queued as [| e queued IH]; simpl; intros all Hwf Hq Hs; [contradiction |].
  destruct Hq as [-> | Hq].
  - apply fold_remove_keeps_gone; [apply remove_strike_sides_wf, Hwf |].
    apply (remove_strike_sides_gone all (k, sides) side Hwf Hs).
  - apply IH; [apply remove_strike_sides_wf, Hwf | exact Hq | exact Hs].
Qed.

(** C3, as the code has it: after the queued removals are applied the
    queue is empty and every queued (strike, side) is gone from the side
    map of its strike, while the strike keys are all kept, so a strike
    whose sides were all removed stays with an empty side map. *)
Theorem remove_contracts_keeps_strikes (a a' : IBapi) (c : option_chain_data) :
  chain a = Some c ->
  wf_sides (all_contracts c) ->
  remove_contracts a = Ok a' ->
  exists c',
    chain a' = Some c' /\
    contracts_to_delete a' = [] /\
    dict_keys (all_contracts c') = dict_keys (all_contracts c) /\
    forall k sides side,
      In (k, sides) (contracts_to_delete a) -> In side sides ->
      side_gone k side (all_contracts c').
Proof.
  intros Hc Hwf H. unfold remove_contracts in H.
  destruct (contracts_to_delete a) as [| e queued] eqn:Eq.
  - injection H as <-. exists c. repeat split; try assumption. intros k sides side [].
  - rewrite Hc in H. simpl in H. injection H as <-. eexists. simpl.
    split; [reflexivity |]. split; [reflexivity |]. split.
    + apply (fold_remove_keys (e :: queued)).
    + intros k sides side Hq Hs.
      apply (fold_remove_gone (e :: queued) k sides side _ Hwf Hq Hs).
Qed.

Lemma remove_contracts_keeps_strikes_witness :
  exists c',
    chain opt_pruned = Some c' /\
    contracts_to_delete opt_pruned = [] /\
    dict_keys (all_contracts c') = dict_keys (all_contracts opt_queued_chain) /\
    forall k sides side,
      In (k, sides) (contracts_to_delete opt_queued) -> In side sides ->
      side_gone k side (all_contracts c').
Proof.
  apply (remove_contracts_keeps_strikes opt_queued opt_pruned opt_queued_chain).
  - vm_compute. reflexivity.
  - repeat constructor; simpl; intuition discriminate.
  - vm_compute. reflexivity.
Defined.

(** The claim of C3 fails: after "no data" for the call and the put at
    100 and the removal checkpoint, strike 100 is still a key of the chain,
    with an empty side map. *)
Lemma remove_contracts_leaves_empty_strike :
  exists a1 a2 c2,
    opt_after_errors = Ok a1 /\
    contracts_to_delete a1 = [(100%Q, ["C"; "P"])] /\
    remove_contracts a1 = Ok a2 /\
    chain a2 = Some c2 /\
    dict_get Qeq_bool (all_contracts c2) 100%Q = Some [] /\
    dict_mem Qeq_bool (all_contracts c2) 100%Q = true.
Proof.
  eexists. eexists. eexists.
  split; [vm_compute; reflexivity |].
  split; [reflexivity |].
  split; [vm_compute; reflexivity |].
  split; [reflexivity |].
  split; reflexivity.
Qed.

(** ** Sorting the chain *)

Lemma Qlt_bool_iff (x y : Q) : Qlt_bool x y = true <-> (x < y)%Q.
Proof.
  unfold Qlt_bool. rewrite negb_true_iff. split.
  - intros H. apply Qnot_le_lt. intros Hle. apply Qle_bool_iff in Hle. congruence.
  - intros H. destruct (Qle_bool y x) eqn:E; [| reflexivity].
    apply Qle_bool_iff in E. exfalso. apply (Qlt_not_le _ _ H E).
Qed.

Lemma Qle_bool_false (x y : Q) : Qle_bool x y = false -> (y < x)%Q.
Proof.
  intros H. apply Qnot_le_lt. intros Hle. apply Qle_bool_iff in Hle. congruence.
Qed.

Lemma insert_item_perm {V : Type} (x : Q * V) (l : list (Q * V)) :
  Permutation (insert_item x l) (x :: l).
Proof.
  induction l as [| y l IH]; simpl; [apply Permutation_refl |].
  destruct (Qle_bool (fst x) (fst y)); [apply Permutation_refl |].
  eapply Permutation_trans; [apply perm_skip, IH | apply perm_swap].
Qed.

Lemma sorted_items_perm {V : Type} (l : list (Q * V)) :
  Permutation (sorted_items l) l.
Proof.
  induction l as [| x l IH]; simpl; [apply perm_nil |].
  eapply Permutation_trans; [apply insert_item_perm | apply perm_skip, IH].
Qed.

Lemma insert_item_sorted {V : Type} (x : Q * V) (l : list (Q * V)) :
  StronglySorted key_le l -> StronglySorted key_le (insert_item x l).
Proof.
  induction 1 as [| y l Hs IH Hy]; simpl.
  - constructor; constructor.
  - destruct (Qle_bool (fst x) (fst y)) eqn:E.
    + apply Qle_bool_iff in E. constructor; [constructor; assumption |].
      constructor; [exact E |].
      eapply Forall_impl; [| exact Hy].
      intros z Hz. unfold key_le in *. eapply Qle_trans; eassumption.
    + apply Qle_bool_false in E. constructor; [exact IH |].
      eapply Permutation_Forall; [apply Permutation_sym, insert_item_perm |].
      constructor; [apply Qlt_le_weak, E | exact Hy].
Qed.

Lemma sorted_items_sorted {V : Type} (l : list (Q * V)) :
  StronglySorted key_le (sorted_items l).
Proof.
  induction l as [| x l IH]; simpl; [constructor |].
  apply insert_item_sorted, IH.
Qed.

Lemma StronglySorted_filter {A : Type} (R : A -> A -> Prop) (f : A -> bool)
  (l : list A) :
  StronglySorted R l -> StronglySorted R (filter f l).
Proof.
  induction 1 as [| x l Hs IH Hx]; simpl; [constructor |].
  destruct (f x); [| exact IH].
  constructor; [exact IH |].
  apply Forall_forall. intros y Hy. apply filter_In in Hy.
  rewrite Forall_forall in Hx. apply Hx, Hy.
Qed.

Lemma NoDupA_keys_perm {V : Type} (l l' : list (Q * V)) :
  Permutation l l' -> NoDupA Qeq (dict_keys l) -> NoDupA Qeq (dict_keys l').
Proof.
  induction 1 as [| x l l' Hp IH | x y l | l l' l'' H1 IH1 H2 IH2]; simpl; intros Hn.
  - exact Hn.
  - inversion Hn as [| ? ? Hx Hl]; subst. constructor; [| apply IH, Hl].
    intros Hin. apply Hx. rewrite InA_alt in *. destruct Hin as [z [Hz Hin]].
    exists z. split; [exact Hz |].
    eapply Permutation_in; [apply Permutation_sym, Permutation_map, Hp | exact Hin].
  - inversion Hn as [| ? ? Hy Hl]; subst. inversion Hl as [| ? ? Hx Hl']; subst.
    constructor; [| constructor; [| exact Hl']].
    + intros Hin. inversion Hin as [? ? Heq | ? ? Hin']; subst.
      * apply Hy. left. symmetry. exact Heq.
      * contradiction.
    + intros Hin. apply Hy. right. exact Hin.
  - apply IH2, IH1, Hn.
Qed.

Lemma NoDupA_keys_filter {V : Type} (f : Q * V -> bool) (l : list (Q * V)) :
  NoDupA Qeq (dict_keys l) -> NoDupA Qeq (dict_keys (filter f l)).
Proof.
  induction l as [| x l IH]; simpl; intros Hn; [constructor |].
  inversion Hn as [| ? ? Hx Hl]; subst.
  destruct (f x); simpl; [| apply IH, Hl].
  constructor; [| apply IH, Hl].
  intros Hin. apply Hx. rewrite InA_alt in *. destruct Hin as [z [Hz Hin]].
  exists z. split; [exact Hz |].
  unfold dict_keys in *. rewrite in_map_iff in *.
  destruct Hin as [e [He Hin]]. exists e. split; [exact He |].
  apply filter_In in Hin. tauto.
Qed.

(** Ascending and without repetition is strictly ascending. *)
Lemma sorted_keys_strict {V : Type} (l : list (Q * V)) :
  StronglySorted key_le l -> NoDupA Qeq (dict_keys l) ->
  StronglySorted Qlt (dict_keys l).
Proof.
  induction 1 as [| x l Hs IH Hx]; simpl; intros Hn; [constructor |].
  inversion Hn as [| ? ? Hnx Hl]; subst.
  constructor; [apply IH, Hl |].
  apply Forall_forall. intros k Hk. unfold dict_keys in Hk.
  apply in_map_iff in Hk. destruct Hk as [e [<- He]].
  rewrite Forall_forall in Hx. specialize (Hx e He). unfold key_le in Hx.
  destruct (Qle_lt_or_eq _ _ Hx) as [Hlt | Heq]; [exact Hlt |].
  exfalso. apply Hnx. rewrite InA_alt. exists (fst e). split; [exact Heq |].
  apply in_map, He.
Qed.

(** ** The anchor strike *)

Lemma nearer_true (x cand best : Q) :
  nearer x cand best = true ->
  (Qabs (cand - x) < Qabs (best - x))%Q
  \/ (Qabs (cand - x) == Qabs (best - x) /\ cand < best)%Q.
Proof.
  unfold nearer. intros H. apply orb_true_iff in H. destruct H as [H | H].
  - left. now apply Qlt_bool_iff.
  - right. apply andb_true_iff in H. destruct H as [H1 H2].
    split; [now apply Qeq_bool_iff | now apply Qlt_bool_iff].
Qed.

Lemma nearer_false (x cand best : Q) :
  nearer x cand best = false ->
  (Qabs (best - x) <= Qabs (cand - x))%Q
  /\ (Qabs (cand - x) == Qabs (best - x) -> best <= cand)%Q.
Proof.
  unfold nearer. intros H. apply orb_false_iff in H. destruct H as [H1 H2].
  assert (Hle : (Qabs (best - x) <= Qabs (cand - x))%Q).
  { apply Qnot_lt_le. intros Hlt. apply Qlt_bool_iff in Hlt. congruence. }
  split; [exact Hle |].
  intros Heq. apply Qnot_lt_le. intros Hlt.
  apply Qeq_bool_iff in Heq. apply Qlt_bool_iff in Hlt.
  rewrite Heq, Hlt in H2. discriminate.
Qed.

Lemma closest_step (x : Q) (seen : list Q) (best cand : Q) :
  closest x seen best ->
  closest x (cand :: seen) (if nearer x cand best then cand else best).
Proof.
  intros [Hin Hall]. destruct (nearer x cand best) eqn:E.
  - apply nearer_true in E. split; [now left |].
    intros k [<- | Hk].
    + split; [apply Qle_refl | intros _; apply Qle_refl].
    + destruct (Hall k Hk) as [H1 H2].
      clear Hall.
      set (dk := Qabs (k - x)) in *. set (db := Qabs (best - x)) in *.
      set (dc := Qabs (cand - x)) in *. clearbody dk db dc.
      split.
      * destruct E as [E | [E _]]; lra.
      * intros Heq. destruct E as [E | [E E']]; [lra |].
        assert (best <= k)%Q by (apply H2; lra). lra.
  - apply nearer_false in E. destruct E as [E1 E2]. split; [now right |].
    intros k [<- | Hk]; [split; assumption | apply Hall, Hk].
Qed.

Lemma closest_fold (x : Q) (l : list Q) :
  forall seen best,
    closest x seen best ->
    closest x (rev l ++ seen)
      (fold_left (fun best cand => if nearer x cand best then cand else best) l best).
Proof.
  induction l as [| c l IH]; simpl; intros seen best H; [exact H |].
  rewrite <- app_assoc. simpl. apply IH, closest_step, H.
Qed.

Lemma take_closest_spec (x : Q) (l : list Q) :
  l <> [] ->
  exists r, take_closest l x = Ok r /\ closest x l r.
Proof.
  destruct l as [| s l]; [congruence |]. intros _. simpl.
  eexists. split; [reflexivity |].
  assert (H0 : closest x [s] s).
  { split; [now left |]. intros k [<- | []].
    split; [apply Qle_refl | intros _; apply Qle_refl]. }
  destruct (closest_fold x l [s] s H0) as [Hin Hall].
  split.
  - apply in_app_or in Hin. destruct Hin as [Hin | [<- | []]].
    + right. rewrite <- in_rev in Hin. exact Hin.
    + now left.
  - intros k Hk. apply Hall. apply in_or_app.
    destruct Hk as [<- | Hk]; [right; now left | left].
    rewrite <- in_rev. exact Hk.
Qed.

(** ** Marking and deleting the far strikes *)

(** Equal rationals stand for the same double. *)
Lemma double_of_wd (q q' : Q) : q == q' -> double_of q = double_of q'.
Proof.
  intros H. unfold double_of. rewrite (Qred_complete _ _ H). reflexivity.
Qed.

Lemma far_from_wd (dist atm k k' : Q) :
  k == k' -> far_from dist atm k = far_from dist atm k'.
Proof.
  intros H. unfold far_from. rewrite (double_of_wd _ _ H). reflexivity.
Qed.

Lemma too_far_nonzero (dist atm k : Q) :
  ~ atm == 0 -> too_far dist atm k = Ok (far_from dist atm k).
Proof.
  intros H. unfold too_far. destruct (Qeq_bool atm 0) eqn:E; [| reflexivity].
  apply Qeq_bool_iff in E. contradiction.
Qed.

Lemma mark_far_fold (dist atm : Q) (ks : list Q) :
  ~ atm == 0 ->
  forall queued,
    mark_far dist atm ks queued
    = Ok (fold_left
            (fun q k => if far_from dist atm k then dict_set Qeq_bool q k [] else q)
            ks queued).
Proof.
  intros H. induction ks as [| k ks IH]; simpl; intros queued; [reflexivity |].
  rewrite (too_far_nonzero _ _ _ H). simpl. apply IH.
Qed.

Lemma dict_get_none_keys {V : Type} (d : list (Q * V)) (k : Q) :
  dict_get Qeq_bool d k = None <-> ~ InA Qeq k (dict_keys d).
Proof.
  induction d as [| [k0 v0] d IH]; simpl.
  - split; [intros _ H; inversion H | reflexivity].
  - destruct (Qeq_bool k0 k) eqn:E.
    + apply Qeq_bool_iff in E. split; [discriminate |].
      intros H. exfalso. apply H. left. symmetry. exact E.
    + rewrite IH. split.
      * intros H Hin. inversion Hin as [? ? Heq | ? ? Hin']; subst; [| tauto].
        symmetry in Heq. apply Qeq_bool_iff in Heq. congruence.
      * intros H Hin. apply H. right. exact Hin.
Qed.

Lemma mark_far_keys (dist atm : Q) (ks : list Q) :
  NoDupA Qeq ks ->
  forall queued : list (Q * list string),
    (forall k, InA Qeq k ks -> dict_get Qeq_bool queued k = None) ->
    dict_keys
      (fold_left
         (fun q k => if far_from dist atm k then dict_set Qeq_bool q k [] else q)
         ks queued)
    = dict_keys queued ++ filter (far_from dist atm) ks.
Proof.
  induction 1 as [| k ks Hk Hnd IH]; simpl; intros queued Hq.
  - now rewrite app_nil_r.
  - destruct (far_from dist atm k) eqn:E.
    + rewrite (dict_set_absent Qeq_bool queued k []) by (apply Hq; now left).
      rewrite IH.
      * unfold dict_keys. rewrite map_app, <- app_assoc. reflexivity.
      * intros k' Hk'. rewrite dict_get_app.
        rewrite (Hq k') by (now right). simpl.
        destruct (Qeq_bool k k') eqn:E'; [| reflexivity].
        apply Qeq_bool_iff in E'. exfalso. apply Hk.
        rewrite InA_alt in *. destruct Hk' as [z [Hz Hin]].
        exists z. split; [rewrite E'; exact Hz | exact Hin].
    + apply IH. intros k' Hk'. apply Hq. now right.
Qed.

Lemma filter_none {A : Type} (f : A -> bool) (l : list A) :
  (forall x, In x l -> f x = true) -> filter f l = l.
Proof.
  induction l as [| x l IH]; simpl; intros H; [reflexivity |].
  rewrite (H x) by (now left). f_equal. apply IH. intros y Hy. apply H. now right.
Qed.

Lemma filter_twice {A : Type} (f g : A -> bool) (l : list A) :
  filter g (filter f l) = filter (fun x => f x && g x) l.
Proof.
  induction l as [| x l IH]; simpl; [reflexivity |].
  destruct (f x); simpl; [destruct (g x); simpl; now rewrite IH | exact IH].
Qed.

Lemma dict_del_filter (all : list (Q * side_map)) (k : Q) :
  NoDupA Qeq (dict_keys all) -> InA Qeq k (dict_keys all) ->
  dict_del Qeq_bool all k
  = Some (filter (fun e => negb (Qeq_bool (fst e) k)) all).
Proof.
  induction all as [| [k0 v0] all IH]; simpl; intros Hnd Hin; [inversion Hin |].
  inversion Hnd as [| ? ? Hk0 Hall]; subst.
  destruct (Qeq_bool k0 k) eqn:E; simpl.
  - f_equal. symmetry. apply filter_none. intros e He.
    apply negb_true_iff. destruct (Qeq_bool (fst e) k) eqn:E'; [| reflexivity].
    exfalso. apply Hk0. rewrite InA_alt. exists (fst e).
    apply Qeq_bool_iff in E, E'. split; [rewrite E, E'; reflexivity |].
    apply in_map, He.
  - rewrite IH; [reflexivity | exact Hall |].
    inversion Hin as [? ? Heq | ? ? Hin']; subst; [| exact Hin'].
    symmetry in Heq. apply Qeq_bool_iff in Heq. congruence.
Qed.

Lemma InA_keys_filter (f : Q * side_map -> bool) (all : list (Q * side_map)) (k : Q) :
  (forall e, In e all -> fst e == k -> f e = true) ->
  InA Qeq k (dict_keys all) -> InA Qeq k (dict_keys (filter f all)).
Proof.
  intros Hf Hin. rewrite InA_alt in *. destruct Hin as [z [Hz Hin]].
  unfold dict_keys in Hin. apply in_map_iff in Hin. destruct Hin as [e [<- He]].
  exists (fst e). split; [exact Hz |].
  apply in_map, filter_In. split; [exact He |]. apply Hf; [exact He |].
  symmetry. exact Hz.
Qed.

Lemma delete_strikes_filter (ks : list Q) :
  NoDupA Qeq ks ->
  forall all : list (Q * side_map),
    NoDupA Qeq (dict_keys all) ->
    (forall k, In k ks -> InA Qeq k (dict_keys all)) ->
    delete_strikes ks all
    = Ok (filter (fun e => negb (existsb (Qeq_bool (fst e)) ks)) all).
Proof.
  induction 1 as [| k ks Hk Hnd IH]; simpl; intros all Hall Hin.
  - symmetry. f_equal. apply filter_none. reflexivity.
  - rewrite dict_del_filter by (auto; apply Hin; now left). simpl.
    rewrite IH.
    + rewrite filter_twice. f_equal. apply filter_ext. intros e.
      rewrite negb_orb. reflexivity.
    + apply NoDupA_keys_filter, Hall.
    + intros k' Hk'. apply InA_keys_filter; [| apply Hin; now right].
      intros e He Heq. apply negb_true_iff.
      destruct (Qeq_bool (fst e) k) eqn:E; [| reflexivity].
      apply Qeq_bool_iff in E. exfalso. apply Hk. rewrite InA_alt.
      exists k'. split; [rewrite <- E, Heq; reflexivity | exact Hk'].
Qed.

Lemma NoDupA_Q_filter (f : Q -> bool) (l : list Q) :
  NoDupA Qeq l -> NoDupA Qeq (filter f l).
Proof.
  induction 1 as [| x l Hx Hl IH]; simpl; [constructor |].
  destruct (f x); [| exact IH]. constructor; [| exact IH].
  intros Hin. apply Hx. rewrite InA_alt in *. destruct Hin as [z [Hz Hin]].
  exists z. split; [exact Hz |]. apply filter_In in Hin. tauto.
Qed.

Lemma closest_perm (x : Q) (l l' : list Q) (r : Q) :
  Permutation l l' -> closest x l r -> closest x l' r.
Proof.
  intros Hp [Hin Hall]. split.
  - eapply Permutation_in; eassumption.
  - intros k Hk. apply Hall. eapply Permutation_in;
      [apply Permutation_sym, Hp | exact Hk].
Qed.

(** With nothing queued beforehand, [keep_close_strikes] sorts the chain
    and filters out the strikes that are far from the anchor. *)
Lemma keep_close_strikes_filter (a : IBapi) (c : option_chain_data) (dist : Q) :
  chain a = Some c ->
  contracts_to_delete a = [] ->
  all_contracts c <> [] ->
  wf_strikes (all_contracts c) ->
  Forall (fun k => ~ k == 0)%Q (dict_keys (all_contracts c)) ->
  exists atm,
    closest (open_spot_price c) (dict_keys (all_contracts c)) atm /\
    keep_close_strikes a dist
    = Ok (set_contracts_to_delete []
            (set_chain
               (Some (mkChain (underline c) (open_spot_price c)
                        (filter (fun e => negb (far_from dist atm (fst e)))
                           (sorted_items (all_contracts c)))
                        false (all_contracts_fetched c)))
               a)).
Proof.
  intros Hc Hq Hne Hwf Hpos.
  pose proof (sorted_items_perm (all_contracts c)) as Hperm.
  assert (Hkperm : Permutation (dict_keys (sorted_items (all_contracts c)))
                     (dict_keys (all_contracts c)))
    by (apply Permutation_map, Hperm).
  assert (Hne' : dict_keys (sorted_items (all_contracts c)) <> []).
  { intros E. rewrite E in Hkperm. apply Permutation_nil in Hkperm.
    unfold dict_keys in Hkperm. apply map_eq_nil in Hkperm. contradiction. }
  destruct (take_closest_spec (open_spot_price c) _ Hne') as [atm [Hatm Hcl]].
  assert (Hcl' : closest (open_spot_price c) (dict_keys (all_contracts c)) atm)
    by (eapply closest_perm; eassumption).
  assert (Hnz : ~ atm == 0).
  { rewrite Forall_forall in Hpos. apply Hpos. apply Hcl'. }
  assert (Hnd : NoDupA Qeq (dict_keys (sorted_items (all_contracts c)))).
  { eapply NoDupA_keys_perm; [apply Permutation_sym, Hperm | exact Hwf]. }
  exists atm. split; [exact Hcl' |].
  unfold keep_close_strikes. rewrite Hc. simpl. rewrite Hatm. simpl.
  rewrite (mark_far_fold dist atm _ Hnz), Hq. simpl.
  rewrite (mark_far_keys dist atm _ Hnd []) by reflexivity. simpl.
  rewrite delete_strikes_filter.
  - simpl. do 5 f_equal. apply filter_ext_in. intros e He. f_equal.
    destruct (far_from dist atm (fst e)) eqn:E.
    + apply existsb_exists. exists (fst e). split; [| apply Qeq_bool_refl].
      apply filter_In. split; [apply in_map, He | exact E].
    + destruct (existsb _ _) eqn:E'; [| reflexivity].
      apply existsb_exists in E'. destruct E' as [k [Hk Heq]].
      apply filter_In in Hk. apply Qeq_bool_iff in Heq.
      rewrite (far_from_wd dist atm _ _ Heq) in E. destruct Hk. congruence.
  - apply NoDupA_Q_filter, Hnd.
  - exact Hnd.
  - intros k Hk. apply filter_In in Hk. apply In_InA; [apply Q_Setoid | tauto].
Qed.

(** C4: on a non-empty chain with no strike of zero and nothing queued
    for removal, [keep_close_strikes] succeeds; the anchor is the strike
    nearest the reference price, the lower one on a tie; a strike and its
    side map are in the result exactly when they were in the chain and
    the relative distance of the strike from the anchor, as the code
    computes it in double arithmetic, does not exceed [pct]; no strike is
    left with an empty side map; the strikes are in ascending order. *)
Theorem keep_close_strikes_band (a : IBapi) (c : option_chain_data) (pct : Q) :
  chain a = Some c ->
  contracts_to_delete a = [] ->
  all_contracts c <> [] ->
  wf_strikes (all_contracts c) ->
  no_empty_sides (all_contracts c) ->
  Forall (fun k => ~ k == 0)%Q (dict_keys (all_contracts c)) ->
  exists atm a' c',
    keep_close_strikes a pct = Ok a' /\
    chain a' = Some c' /\
    closest (open_spot_price c) (dict_keys (all_contracts c)) atm /\
    (forall k m,
        In (k, m) (all_contracts c') <->
        In (k, m) (all_contracts c) /\ far_from pct atm k = false) /\
    no_empty_sides (all_contracts c') /\
    StronglySorted Qlt (dict_keys (all_contracts c')) /\
    open_spot_price c' = open_spot_price c /\
    contracts_to_delete a' = [].
Proof.
  intros Hc Hq Hne Hwf Hns Hpos.
  destruct (keep_close_strikes_filter a c pct Hc Hq Hne Hwf Hpos)
    as (atm & Hcl & Hk).
  pose proof (sorted_items_perm (all_contracts c)) as Hperm.
  exists atm. eexists. eexists.
  split; [exact Hk |]. split; [reflexivity |]. split; [exact Hcl |]. simpl.
  split; [| split; [| split; [| split; reflexivity]]].
  - intros k m. rewrite filter_In. simpl. rewrite negb_true_iff. split.
    + intros [Hin Hf]. split; [eapply Permutation_in; eassumption | exact Hf].
    + intros [Hin Hf]. split; [| exact Hf].
      eapply Permutation_in; [apply Permutation_sym, Hperm | exact Hin].
  - unfold no_empty_sides in *. apply Forall_forall. intros e He.
    apply filter_In in He. destruct He as [He _].
    rewrite Forall_forall in Hns. apply Hns.
    eapply Permutation_in; eassumption.
  - apply sorted_keys_strict.
    + apply StronglySorted_filter, sorted_items_sorted.
    + apply NoDupA_keys_filter.
      eapply NoDupA_keys_perm; [apply Permutation_sym, Hperm | exact Hwf].
Qed.

Lemma opt_priced_chain_contracts :
  all_contracts opt_priced_chain
  = [(100%Q, [("C", spy_option 100 "C"); ("P", spy_option 100 "P")]);
     (110%Q, [("C", spy_option 110 "C")])].
Proof. vm_compute. reflexivity. Qed.

Lemma keep_close_strikes_band_witness :
  exists atm a' c',
    keep_close_strikes opt_priced (pct_strikes_from_atm_of 5) = Ok a' /\
    chain a' = Some c' /\
    closest (open_spot_price opt_priced_chain)
      (dict_keys (all_contracts opt_priced_chain)) atm /\
    (forall k m,
        In (k, m) (all_contracts c') <->
        In (k, m) (all_contracts opt_priced_chain)
        /\ far_from (pct_strikes_from_atm_of 5) atm k = false) /\
    no_empty_sides (all_contracts c') /\
    StronglySorted Qlt (dict_keys (all_contracts c')) /\
    open_spot_price c' = open_spot_price opt_priced_chain /\
    contracts_to_delete a' = [].
Proof.
  apply (keep_close_strikes_band opt_priced opt_priced_chain
           (pct_strikes_from_atm_of 5)).
  - vm_compute. reflexivity.
  - reflexivity.
  - rewrite opt_priced_chain_contracts. discriminate.
  - unfold wf_strikes. rewrite opt_priced_chain_contracts. simpl.
    repeat constructor; intros H;
      repeat match goal with
             | E : InA _ _ _ |- _ => inversion E; clear E; subst
             end;
      match goal with
      | E : Qeq _ _ |- _ => unfold Qeq in E; simpl in E; lia
      end.
  - unfold no_empty_sides. rewrite opt_priced_chain_contracts.
    repeat constructor; discriminate.
  - rewrite opt_priced_chain_contracts. simpl.
    repeat constructor; unfold Qeq; simpl; lia.
Defined.

(** The scenario of the spec: calls and puts at 100, a call at 110,
    reference price 101, band 5%. The anchor is 100 and strike 110, 10%
    away, is deleted with its side map. *)
Example keep_close_strikes_scenario :
  exists a' c',
    keep_close_strikes opt_priced (pct_strikes_from_atm_of 5) = Ok a' /\
    chain a' = Some c' /\
    all_contracts c'
    = [(100%Q, [("C", spy_option 100 "C"); ("P", spy_option 100 "P")])].
Proof.
  eexists. eexists. split; [vm_compute; reflexivity |].
  split; reflexivity.
Qed.

(** The doubles of the arithmetic are those of Python: [3.0 / 100] is
    [0x1.eb851eb851eb8p-6], [14.3 - 13.0] is [0x1.4ccccccccccd0p+0] and
    [(14.3 - 13.0) / 13.0] is [0x1.999999999999ep-4]. *)
Example double_arithmetic_samples :
  SFdiv prec emax (double_of 3) (double_of 100)
  = S754_finite false 8646911284551352 (-58) /\
  SFsub prec emax (double_of (143 # 10)) (double_of 13)
  = S754_finite false 5854679515581648 (-52) /\
  SFdiv prec emax
    (SFabs (SFsub prec emax (double_of (143 # 10)) (double_of 13))) (double_of 13)
  = S754_finite false 7205759403792798 (-56) /\
  double_of (value_of (S754_finite false 8646911284551352 (-58)))
  = S754_finite false 8646911284551352 (-58).
Proof. vm_compute. repeat split; reflexivity. Qed.

(** At the edge of the band the rounded test and the exact one part
    ways. With strikes 100 and 103, the reference price at 100 and the
    band [3.0 / 100], strike 103 stays: the quotient [3.0 / 100.0] rounds
    to the very double the band is, although the distance 3 exceeds the
    band times the anchor, the band being a little less than 3/100. *)
Lemma keep_close_strikes_keeps_beyond_band :
  exists a' c',
    take_closest [100%Q; 103%Q] 100 = Ok 100%Q /\
    keep_close_strikes opt_edge (pct_strikes_from_atm_of 3) = Ok a' /\
    chain a' = Some c' /\
    dict_keys (all_contracts c') = [100%Q; 103%Q] /\
    (pct_strikes_from_atm_of 3 * 100 < Qabs (103 - 100))%Q.
Proof.
  eexists. eexists. split; [reflexivity |].
  split; [vm_compute; reflexivity |]. split; [reflexivity |].
  split; [reflexivity |]. vm_compute. reflexivity.
Qed.

(** With strikes 13 and 14.3, the reference price at 13 and the band
    0.1, strike 14.3 goes: [14.3 - 13.0] is a little more than 1.3 in
    doubles and the quotient a little more than the band. *)
Example keep_close_strikes_drops_at_band :
  exists a' c',
    keep_close_strikes
      (set_chain
         (Some (mkChain "SPY" 13
                  [(13%Q, [("C", spy_option 13 "C")]);
                   (value_of (double_of (143 # 10)),
                    [("C", spy_option (value_of (double_of (143 # 10))) "C")])]
                  true true))
         (IBapi_new OPT "txt"))
      (value_of (double_of (1 # 10))) = Ok a' /\
    chain a' = Some c' /\
    dict_keys (all_contracts c') = [13%Q].
Proof.
  eexists. eexists. split; [vm_compute; reflexivity |].
  split; reflexivity.
Qed.

(** ** Discovery keeps the chain well formed *)

Lemma dict_set_Forall_snd {V : Type} (P : V -> Prop) (d : list (Q * V)) (k : Q) (v : V) :
  Forall (fun e => P (snd e)) d -> P v ->
  Forall (fun e => P (snd e)) (dict_set Qeq_bool d k v).
Proof.
  induction 1 as [| [k0 v0] d H0 Hd IH]; simpl; intros Hv.
  - constructor; [exact Hv | constructor].
  - destruct (Qeq_bool k0 k); constructor; auto.
Qed.

Lemma side_set_nodup (m : side_map) (s : string) (k : Contract) :
  NoDup (dict_keys m) -> NoDup (dict_keys (dict_set String.eqb m s k)).
Proof.
  intros Hnd. destruct (dict_get String.eqb m s) as [v |] eqn:E.
  - rewrite (dict_set_present_keys String.eqb m s k v E). exact Hnd.
  - rewrite (dict_set_absent String.eqb m s k E).
    unfold dict_keys. rewrite map_app. simpl.
    apply NoDup_app; [exact Hnd | repeat constructor; simpl; tauto |].
    intros x Hx [<- | []]. apply side_get_none_iff in E. contradiction.
Qed.

Lemma side_set_nonempty (m : side_map) (s : string) (k : Contract) :
  dict_set String.eqb m s k <> [].
Proof.
  destruct m as [| [s0 k0] m]; simpl; [discriminate |].
  destruct (String.eqb s0 s); discriminate.
Qed.

Lemma NoDupA_snoc (l : list Q) (k : Q) :
  NoDupA Qeq l -> ~ InA Qeq k l -> NoDupA Qeq (l ++ [k]).
Proof.
  induction 1 as [| x l Hx Hl IH]; simpl; intros Hk.
  - constructor; [intros H; inversion H | constructor].
  - constructor.
    + intros Hin. apply InA_app in Hin. destruct Hin as [Hin | Hin]; [tauto |].
      inversion Hin as [? ? Heq | ? ? Hin']; subst; [| inversion Hin'].
      apply Hk. left. symmetry. exact Heq.
    + apply IH. intros Hin. apply Hk. right. exact Hin.
Qed.

(** [all_contracts[strike][right] = contract] keeps the keys distinct and
    never leaves a strike without a side. *)
Lemma chain_record_wf (c c' : option_chain_data) (k : Contract) :
  chain_record c k = Ok c' ->
  wf_strikes (all_contracts c) /\ wf_sides (all_contracts c)
  /\ no_empty_sides (all_contracts c) ->
  wf_strikes (all_contracts c') /\ wf_sides (all_contracts c')
  /\ no_empty_sides (all_contracts c').
Proof.
  unfold chain_record. intros H [Hs [Hm He]].
  destruct (dict_get Qeq_bool (all_contracts c) (strike k)) as [sides |] eqn:E.
  - injection H as <-. simpl. repeat split.
    + unfold wf_strikes.
      rewrite (dict_set_present_keys Qeq_bool _ (strike k) _ sides E). exact Hs.
    + apply wf_sides_set; [exact Hm |].
      apply side_set_nodup. eapply wf_sides_get; eassumption.
    + apply (dict_set_Forall_snd (fun m : side_map => m <> [])); [exact He |].
      apply side_set_nonempty.
  - destruct (all_contracts_is_defaultdict c); [| discriminate].
    injection H as <-. simpl. repeat split.
    + unfold wf_strikes. rewrite (dict_set_absent Qeq_bool _ _ _ E).
      unfold dict_keys. rewrite map_app. simpl.
      apply NoDupA_snoc; [exact Hs |]. apply dict_get_none_keys, E.
    + apply wf_sides_set; [exact Hm |]. repeat constructor. simpl. tauto.
    + apply (dict_set_Forall_snd (fun m : side_map => m <> [])); [exact He |].
      discriminate.
Qed.

Lemma option_chain_data_new_wf (asset : string) :
  wf_strikes (all_contracts (option_chain_data_new asset))
  /\ wf_sides (all_contracts (option_chain_data_new asset))
  /\ no_empty_sides (all_contracts (option_chain_data_new asset)).
Proof. repeat split; constructor. Qed.

(** ** Time buckets *)

Lemma dt_hour_range (t : Z) : 0 <= dt_hour t < 24.
Proof. unfold dt_hour. apply Z.mod_pos_bound. lia. Qed.

Lemma dt_minute_range (t : Z) : 0 <= dt_minute t < 60.
Proof. unfold dt_minute. apply Z.mod_pos_bound. lia. Qed.

Lemma dt_replace_hm_diff (date h m h' m' : Z) :
  dt_replace_hm date h' m' - dt_replace_hm date h m
  = timedelta_minutes ((h' * 60 + m') - (h * 60 + m)).
Proof.
  unfold dt_replace_hm, timedelta_minutes, usec_per_hour, usec_per_min. lia.
Qed.

(** The seconds of a span of whole minutes shorter than a day. *)
Lemma td_seconds_minutes (n : Z) :
  0 <= n < 1440 -> td_seconds (timedelta_minutes n) / 60 = n.
Proof.
  intros Hn. unfold td_seconds, timedelta_minutes, usec_per_min, usec_per_sec.
  replace (n * (60 * 1000000)) with (n * 60 * 1000000) by lia.
  rewrite Z.div_mul by lia. rewrite Z.mod_small by lia.
  apply Z.div_mul. lia.
Qed.

(** The backward walk stops after [k] full steps, at most one step above
    the start. *)
Lemma walk_back_spec (ri start : Z) (n : nat) :
  0 < ri ->
  forall tmp,
    tmp - start <= Z.of_nat n * timedelta_minutes ri ->
    exists k : nat,
      (k <= n)%nat /\
      (forall fuel, (n <= fuel)%nat ->
                    walk_back fuel ri start tmp
                    = Ok (tmp - Z.of_nat k * timedelta_minutes ri)) /\
      tmp - Z.of_nat k * timedelta_minutes ri - timedelta_minutes ri <= start /\
      (start <= tmp -> start <= tmp - Z.of_nat k * timedelta_minutes ri) /\
      ((0 < k)%nat -> start < tmp - Z.of_nat k * timedelta_minutes ri).
Proof.
  intros Hri.
  assert (HI : 0 < timedelta_minutes ri)
    by (unfold timedelta_minutes, usec_per_min, usec_per_sec; lia).
  induction n as [| n IH]; intros tmp Hb.
  - exists 0%nat. split; [lia |]. simpl Z.of_nat in *.
    assert (E : (start <? tmp - timedelta_minutes ri) = false)
      by (apply Z.ltb_ge; lia).
    split; [| lia].
    intros fuel _. destruct fuel; simpl; rewrite E; f_equal; lia.
  - destruct (start <? tmp - timedelta_minutes ri) eqn:E.
    + apply Z.ltb_lt in E.
      destruct (IH (tmp - timedelta_minutes ri)) as (k & Hk & Hrun & H1 & H2 & H3);
        [lia |].
      exists (S k). split; [lia |].
      replace (tmp - Z.of_nat (S k) * timedelta_minutes ri)
        with (tmp - timedelta_minutes ri - Z.of_nat k * timedelta_minutes ri) by lia.
      split; [| lia].
      intros fuel Hf. destruct fuel as [| fuel]; [lia |]. simpl.
      apply Z.ltb_lt in E. rewrite E. apply Hrun. lia.
    + exists 0%nat. split; [lia |]. apply Z.ltb_ge in E.
      split; [| simpl Z.of_nat; lia].
      intros fuel _. destruct fuel; simpl; apply Z.ltb_ge in E; rewrite E;
        f_equal; lia.
Qed.

(** From [q] on, every bucket has the configured length. *)
Lemma bucket_loop_uniform (ri end' : Z) (m : nat) :
  forall q (acc : list (Z * Z)),
    end' <= q + Z.of_nat m * timedelta_minutes ri ->
    (forall j, (j < m)%nat -> q + Z.of_nat j * timedelta_minutes ri < end') ->
    forall fuel, (m <= fuel)%nat ->
      bucket_loop (fun qt sz acc => Ok (acc ++ [(qt, sz)])) fuel ri end' q ri acc
      = Ok (acc ++ map (fun j => (q + Z.of_nat j * timedelta_minutes ri, ri))
                    (seq 0 m)).
Proof.
  induction m as [| m IH]; intros q acc Hend Hlt fuel Hf.
  - simpl in Hend. assert (E : (q <? end') = false) by (apply Z.ltb_ge; lia).
    destruct fuel; simpl; rewrite E, app_nil_r; reflexivity.
  - destruct fuel as [| fuel]; [lia |]. simpl.
    assert (E : (q <? end') = true).
    { apply Z.ltb_lt. specialize (Hlt 0%nat). simpl in Hlt. lia. }
    rewrite E. rewrite IH.
    + rewrite <- app_assoc. simpl. do 3 f_equal; [f_equal; lia |].
      rewrite <- seq_shift, map_map. apply map_ext. intros j.
      f_equal. lia.
    + lia.
    + intros j Hj. specialize (Hlt (S j)). lia.
    + lia.
Qed.

Lemma steps_to_reach (q end' step : Z) :
  0 < step ->
  exists m : nat,
    end' <= q + Z.of_nat m * step /\
    (forall j, (j < m)%nat -> q + Z.of_nat j * step < end').
Proof.
  intros Hs. destruct (Z_le_gt_dec end' q) as [Hle | Hgt].
  - exists 0%nat. split; [lia | intros j Hj; lia].
  - exists (S (Z.to_nat ((end' - 1 - q) / step))).
    assert (H0 : 0 <= (end' - 1 - q) / step) by (apply Z.div_pos; lia).
    pose proof (Z.mul_div_le (end' - 1 - q) step Hs) as H1.
    pose proof (Z.mul_succ_div_gt (end' - 1 - q) step Hs) as H2.
    split.
    + rewrite Nat2Z.inj_succ, Z2Nat.id by lia. lia.
    + intros j Hj.
      assert (Z.of_nat j <= (end' - 1 - q) / step) by lia.
      assert (Z.of_nat j * step <= (end' - 1 - q) / step * step)
        by (apply Z.mul_le_mono_nonneg_r; lia).
      lia.
Qed.

(** C5: for a session whose start is not after its end and a positive
    bucket length, the walk goes back from session close in [k] full
    steps, stopping at the first point [q] that is at most one step above
    session start; the first bucket ends at [q] and spans exactly the
    remainder from session start, and the following buckets have the full
    length, stepping forward while they start before session close plus
    five minutes. *)
Theorem day_buckets_walk (st en date ri : Z) :
  0 < ri ->
  dt_hour st * 60 + dt_minute st <= dt_hour en * 60 + dt_minute en ->
  exists (k n fuel0 : nat) (first : Z),
    let start := dt_replace_hm date (dt_hour st) (dt_minute st) in
    let close := dt_replace_hm date (dt_hour en) (dt_minute en) in
    let q := close - Z.of_nat k * timedelta_minutes ri in
    (forall fuel, (fuel0 <= fuel)%nat ->
       day_buckets fuel st en date ri
       = Ok ((q, first)
               :: map (fun j => (q + Z.of_nat j * timedelta_minutes ri, ri))
                    (seq 1 n))) /\
    (forall j, (j < k)%nat ->
               timedelta_minutes ri
               < close - Z.of_nat j * timedelta_minutes ri - start) /\
    q - timedelta_minutes first = start /\
    0 <= first <= ri /\
    (start < close -> 0 < first) /\
    (k <= n)%nat /\
    q + Z.of_nat n * timedelta_minutes ri < close + timedelta_minutes 5 /\
    close + timedelta_minutes 5 <= q + Z.of_nat (S n) * timedelta_minutes ri.
Proof.
  intros Hri Hse.
  set (start := dt_replace_hm date (dt_hour st) (dt_minute st)).
  set (close := dt_replace_hm date (dt_hour en) (dt_minute en)).
  set (span := dt_hour en * 60 + dt_minute en - (dt_hour st * 60 + dt_minute st)).
  pose proof (dt_hour_range st) as Hsh. pose proof (dt_minute_range st) as Hsm.
  pose proof (dt_hour_range en) as Heh. pose proof (dt_minute_range en) as Hem.
  assert (Hspan : close - start = timedelta_minutes span)
    by apply dt_replace_hm_diff.
  assert (Hspan_range : 0 <= span < 1440) by (unfold span; lia).
  assert (HI : timedelta_minutes ri = ri * usec_per_min) by reflexivity.
  assert (Hmin : 0 < usec_per_min) by (unfold usec_per_min, usec_per_sec; lia).
  assert (HIpos : 0 < timedelta_minutes ri) by (rewrite HI; nia).
  assert (Hb : close - start <= Z.of_nat (Z.to_nat span) * timedelta_minutes ri).
  { rewrite Z2Nat.id by lia. rewrite Hspan, HI. unfold timedelta_minutes. nia. }
  destruct (walk_back_spec ri start (Z.to_nat span) Hri close Hb)
    as (k & Hk & Hrun & Hstop & Hge & Hgt).
  set (q := close - Z.of_nat k * timedelta_minutes ri) in *.
  assert (Hq : q - start = timedelta_minutes (span - Z.of_nat k * ri)).
  { unfold q. unfold timedelta_minutes in *. lia. }
  assert (Hsc : start <= close) by (unfold timedelta_minutes in Hspan; nia).
  assert (Hstart_q : start <= q) by (apply Hge; exact Hsc).
  assert (Hrem : 0 <= span - Z.of_nat k * ri <= ri).
  { unfold timedelta_minutes in *. nia. }
  destruct (steps_to_reach (q + timedelta_minutes ri)
              (close + timedelta_minutes 5) (timedelta_minutes ri) HIpos)
    as (m & Hend & Hlt).
  assert (H5 : 0 < timedelta_minutes 5) by (unfold timedelta_minutes; lia).
  assert (Hq_close : q <= close) by (unfold q; nia).
  exists k, m, (Nat.max (Z.to_nat span) (S m)), (span - Z.of_nat k * ri).
  cbv zeta. fold start close q.
  split; [| split; [| split; [| split; [| split; [| split; [| split]]]]]].
  - intros fuel Hf. unfold day_buckets, get_times_and_interval.
    fold start close. rewrite Hrun by lia. fold q. simpl bind.
    rewrite Hq, td_seconds_minutes by lia.
    destruct fuel as [| fuel]; [lia |]. simpl.
    replace (q <? close + timedelta_minutes 5) with true
      by (symmetry; apply Z.ltb_lt; lia).
    rewrite bucket_loop_uniform with (m := m); try assumption; try lia.
    simpl. do 2 f_equal.
    rewrite <- seq_shift, map_map. apply map_ext. intros j. f_equal. lia.
  - intros j Hj.
    assert (Z.of_nat (S j) * timedelta_minutes ri
            <= Z.of_nat k * timedelta_minutes ri)
      by (apply Z.mul_le_mono_nonneg_r; lia).
    assert (start < q) by (apply Hgt; lia). unfold q in *. lia.
  - rewrite <- Hq. lia.
  - exact Hrem.
  - intros Hlt'. destruct k as [| k'].
    + unfold q in Hq. simpl in Hq. unfold timedelta_minutes in Hq. nia.
    + assert (start < q) by (apply Hgt; lia).
      unfold timedelta_minutes in Hq. nia.
  - assert (Z.of_nat k * timedelta_minutes ri
            < Z.of_nat (S m) * timedelta_minutes ri) by (unfold q in *; lia).
    apply Z.mul_lt_mono_pos_r in H; [lia | exact HIpos].
  - destruct m as [| m']; [simpl; lia |].
    specialize (Hlt m'). lia.
  - lia.
Qed.

Lemma day_buckets_walk_witness :
  exists (k n fuel0 : nat) (first : Z),
    let start := dt_replace_hm sample_date (dt_hour (at_hm 9 30))
                   (dt_minute (at_hm 9 30)) in
    let close := dt_replace_hm sample_date (dt_hour (at_hm 16 0))
                   (dt_minute (at_hm 16 0)) in
    let q := close - Z.of_nat k * timedelta_minutes 60 in
    (forall fuel, (fuel0 <= fuel)%nat ->
       day_buckets fuel (at_hm 9 30) (at_hm 16 0) sample_date 60
       = Ok ((q, first)
               :: map (fun j => (q + Z.of_nat j * timedelta_minutes 60, 60))
                    (seq 1 n))) /\
    (forall j, (j < k)%nat ->
               timedelta_minutes 60
               < close - Z.of_nat j * timedelta_minutes 60 - start) /\
    q - timedelta_minutes first = start /\
    0 <= first <= 60 /\
    (start < close -> 0 < first) /\
    (k <= n)%nat /\
    q + Z.of_nat n * timedelta_minutes 60 < close + timedelta_minutes 5 /\
    close + timedelta_minutes 5 <= q + Z.of_nat (S n) * timedelta_minutes 60.
Proof.
  apply (day_buckets_walk (at_hm 9 30) (at_hm 16 0) sample_date 60).
  - lia.
  - vm_compute. discriminate.
Defined.

(** The session 09:30-16:00 with 60-minute buckets: the first bucket ends
    at 10:00 and spans 30 minutes, the others end at 11:00, ..., 16:00 and
    span 60 minutes. *)
Example day_buckets_0930_1600 :
  day_buckets 7 (at_hm 9 30) (at_hm 16 0) sample_date 60
  = Ok [(sample_date + at_hm 10 0, 30); (sample_date + at_hm 11 0, 60);
        (sample_date + at_hm 12 0, 60); (sample_date + at_hm 13 0, 60);
        (sample_date + at_hm 14 0, 60); (sample_date + at_hm 15 0, 60);
        (sample_date + at_hm 16 0, 60)].
Proof. vm_compute. reflexivity. Qed.

(** A session that is a whole number of buckets long: the first bucket
    has the full length. *)
Example day_buckets_1000_1600 :
  day_buckets 7 (at_hm 10 0) (at_hm 16 0) sample_date 60
  = Ok [(sample_date + at_hm 11 0, 60); (sample_date + at_hm 12 0, 60);
        (sample_date + at_hm 13 0, 60); (sample_date + at_hm 14 0, 60);
        (sample_date + at_hm 15 0, 60); (sample_date + at_hm 16 0, 60)].
Proof. vm_compute. reflexivity. Qed.

(** The requests of [main] go out bucket by bucket, in the order of
    [day_buckets]. *)
Lemma bucket_loop_visits {S : Type} (body : Z -> Z -> S -> outcome S) (fuel : nat) :
  forall (ri end' q sz : Z) (acc buckets : list (Z * Z)),
    bucket_loop (fun qt sz acc => Ok (acc ++ [(qt, sz)])) fuel ri end' q sz acc
    = Ok buckets ->
    exists rest,
      buckets = acc ++ rest /\
      forall s, bucket_loop body fuel ri end' q sz s = run_buckets body rest s.
Proof.
  induction fuel as [| fuel IH]; simpl; intros ri end' q sz acc buckets H.
  - destruct (q <? end'); [discriminate |]. injection H as <-.
    exists []. split; [now rewrite app_nil_r | reflexivity].
  - destruct (q <? end').
    + destruct (IH _ _ _ _ _ _ H) as (rest & -> & Hrun).
      exists ((q, sz) :: rest). split; [now rewrite <- app_assoc |].
      intros s. simpl. destruct (body q sz s); simpl; auto.
    + injection H as <-. exists []. split; [now rewrite app_nil_r | reflexivity].
Qed.

(** ** The pacing gate *)

Lemma pass_queue (t : tick) (w : World) :
  sent_time_queue (app (pass t w)) = sent_time_queue (app w).
Proof. simpl. apply (frame_queue _ _ (api_thread_frame _ _)). Qed.

Lemma pass_open (t : tick) (w : World) :
  open_requests (app (pass t w)) <= open_requests (app w).
Proof. simpl. apply (frame_open _ _ (api_thread_frame _ _)). Qed.

Lemma wait_connected_spec (sched : list tick) :
  forall w w' s',
    wait_connected sched w = Ok (w', s') ->
    connected (app w') = true /\
    sent_time_queue (app w') = sent_time_queue (app w) /\
    open_requests (app w') <= open_requests (app w).
Proof.
  induction sched as [| t sched IH]; simpl; intros w w' s' H.
  - destruct (connected (app w)) eqn:E; [| discriminate].
    injection H as <- <-. repeat split; [exact E | lia].
  - destruct (connected (app w)) eqn:E.
    + injection H as <- <-. repeat split; [exact E | lia].
    + destruct (IH _ _ _ H) as [Hc [Hq Ho]]. split; [exact Hc |].
      rewrite Hq, pass_queue. split; [reflexivity |].
      pose proof (pass_open t w). lia.
Qed.

Lemma window_loop_spec (sched : list tick) :
  forall w w' s',
    window_loop sched w = Ok (w', s') ->
    (length (sent_time_queue (app w')) <= 58)%nat /\
    open_requests (app w') <= open_requests (app w).
Proof.
  induction sched as [| t sched IH]; simpl; intros w w' s' H.
  - destruct (58 <? Z.of_nat (length (sent_time_queue (app w)))) eqn:E;
      [discriminate |].
    injection H as <- <-. apply Z.ltb_ge in E. lia.
  - destruct (58 <? Z.of_nat (length (sent_time_queue (app w)))) eqn:E.
    + destruct (IH _ _ _ H) as [Hl Ho]. split; [exact Hl |].
      pose proof (pass_open t (evict_oldest w)) as Hp.
      assert (open_requests (app (evict_oldest w)) = open_requests (app w)).
      { unfold evict_oldest. destruct (sent_time_queue (app w)); [reflexivity |].
        destruct (older_than_window (now w) z); reflexivity. }
      lia.
    + injection H as <- <-. apply Z.ltb_ge in E. lia.
Qed.

Lemma open_loop_spec (sched : list tick) :
  forall w w' s',
    open_loop sched w = Ok (w', s') ->
    open_requests (app w') <= 49 /\
    sent_time_queue (app w') = sent_time_queue (app w).
Proof.
  induction sched as [| t sched IH]; simpl; intros w w' s' H.
  - destruct (49 <? open_requests (app w)) eqn:E; [discriminate |].
    injection H as <- <-. apply Z.ltb_ge in E. split; [lia | reflexivity].
  - destruct (49 <? open_requests (app w)) eqn:E.
    + destruct (IH _ _ _ H) as [Ho Hq]. split; [exact Ho |].
      rewrite Hq. apply pass_queue.
    + injection H as <- <-. apply Z.ltb_ge in E. split; [lia | reflexivity].
Qed.

Lemma young_entries_length (now_ : Z) (queue : list Z) :
  (length (young_entries now_ queue) <= length queue)%nat.
Proof. apply filter_length_le. Qed.

Lemma check_pacing_violations_bound (sched : list tick) (w w' : World)
  (s' : list tick) :
  check_pacing_violations sched w = Ok (w', s') ->
  (length (sent_time_queue (app w')) <= 58)%nat /\
  open_requests (app w') <= 49.
Proof.
  intros H. unfold check_pacing_violations in H.
  inv_bind H. destruct a as [w1 s1]. inv_bind H. destruct a as [w2 s2].
  destruct (window_loop_spec _ _ _ _ Ha0) as [Hl _].
  destruct (open_loop_spec _ _ _ _ H) as [Ho Hq].
  rewrite Hq. split; assumption.
Qed.

(** C1, as the code has it: whatever the state the gate is entered in and
    whatever events and delays the schedule interleaves with it,
    [check_pacing_violations] does not return while more than R - 2
    timestamps are in the queue, whatever their age, or while C or more
    requests are outstanding, for the limits R = 60 and C = 50 of its
    docstring; and this stays so whatever events the response thread
    handles before the caller sends its request. *)
Theorem check_pacing_violations_limits (sched : list tick) (w w' : World)
  (s' : list tick) :
  check_pacing_violations sched w = Ok (w', s') ->
  forall evs,
    let a := api_thread evs (app w') in
    (length (sent_time_queue a) <= window_limit - 2)%nat /\
    (length (young_entries (now w') (sent_time_queue a)) <= window_limit - 2)%nat /\
    open_requests a < concurrent_limit.
Proof.
  intros H evs a.
  destruct (check_pacing_violations_bound _ _ _ _ H) as [Hl Ho].
  pose proof (api_thread_frame evs (app w')) as [_ Hq _ _ _ _ _ Hopen].
  fold a in Hq, Hopen. rewrite Hq.
  pose proof (young_entries_length (now w') (sent_time_queue (app w'))).
  unfold window_limit, concurrent_limit. simpl Nat.sub.
  repeat split; lia.
Qed.

Lemma check_pacing_violations_limits_witness :
  check_pacing_violations burst_schedule burst_end = Ok (burst_end, burst_schedule) /\
  forall evs,
    let a := api_thread evs (app burst_end) in
    (length (sent_time_queue a) <= window_limit - 2)%nat /\
    (length (young_entries (now burst_end) (sent_time_queue a))
     <= window_limit - 2)%nat /\
    open_requests a < concurrent_limit.
Proof.
  assert (H : check_pacing_violations burst_schedule burst_end
              = Ok (burst_end, burst_schedule)) by (vm_compute; reflexivity).
  split; [exact H |].
  exact (check_pacing_violations_limits burst_schedule burst_end burst_end
           burst_schedule H).
Defined.

(** The claim of C1 fails with R = 58 and C = 49: after a burst of 58
    requests, nine of them completed meanwhile, the gate returns at once
    although 58 timestamps younger than ten minutes are in the queue, more
    than R - 2 = 56, and 49 requests are outstanding, not fewer than C. *)
Lemma check_pacing_violations_returns_at_limits :
  request_contracts burst_contracts 0 30 (burst_world, burst_schedule)
  = Ok (burst_end, []) /\
  check_pacing_violations [] burst_end = Ok (burst_end, []) /\
  (58 - 2 < length (young_entries (now burst_end)
                      (sent_time_queue (app burst_end))))%nat /\
  49 <= open_requests (app burst_end).
Proof.
  split; [vm_compute; reflexivity |].
  split; [vm_compute; reflexivity |].
  split; vm_compute; [lia | discriminate].
Qed.

(** The request sent right after the gate is the 59th of the queue and the
    50th outstanding at most, within the limits of the docstring. *)
Lemma admitted_request_within_limits (r : DataRequest) (sched : list tick)
  (w w1 w2 : World) (s1 s2 : list tick) :
  quiet s1 ->
  check_pacing_violations sched w = Ok (w1, s1) ->
  send_historical_data_request r s1 w1 = Ok (w2, s2) ->
  (length (sent_time_queue (app w2)) < window_limit)%nat /\
  open_requests (app w2) <= concurrent_limit.
Proof.
  intros Hq Hg Hs.
  destruct (check_pacing_violations_bound _ _ _ _ Hg) as [Hl Ho].
  destruct (send_spec _ _ _ _ _ Hq Hs) as (id & c & _ & _ & _ & _ & _ & Ho' & Hq' & _).
  rewrite Hq', length_app. unfold window_limit, concurrent_limit. simpl. lia.
Qed.

(** ** The reference price *)

Lemma wait_spot_price_set (sched : list tick) (w : World) (c : option_chain_data) :
  chain (app w) = Some c ->
  ~ open_spot_price c == -1 ->
  wait_spot_price sched w = Ok (w, sched).
Proof.
  intros Hc Hp.
  assert (E : Qeq_bool (open_spot_price c) (-1) = false).
  { destruct (Qeq_bool (open_spot_price c) (-1)) eqn:E; [| reflexivity].
    apply Qeq_bool_iff in E. contradiction. }
  destruct sched; simpl; rewrite Hc, E; reflexivity.
Qed.

Lemma wait_spot_price_unset (t : tick) (sched : list tick) (w : World)
  (c : option_chain_data) :
  chain (app w) = Some c ->
  open_spot_price c == -1 ->
  wait_spot_price (t :: sched) w = wait_spot_price sched (pass t w).
Proof.
  intros Hc Hp. apply Qeq_bool_iff in Hp. simpl. rewrite Hc, Hp. reflexivity.
Qed.

(** The loop returns only with a price that is not the sentinel. *)
Lemma wait_spot_price_returns (sched : list tick) :
  forall w w' s',
    wait_spot_price sched w = Ok (w', s') ->
    exists c', chain (app w') = Some c' /\ ~ open_spot_price c' == -1.
Proof.
  assert (Hbase : forall (w w' : World) (s s' : list tick) c,
             chain (app w) = Some c ->
             Qeq_bool (open_spot_price c) (-1) = false ->
             Ok (w, s) = Ok (w', s') ->
             exists c', chain (app w') = Some c' /\ ~ open_spot_price c' == -1).
  { intros w w' s s' c Hc E H. injection H as <- <-. exists c.
    split; [exact Hc |]. intros Hq. apply Qeq_bool_iff in Hq. congruence. }
  induction sched as [| t sched IH]; simpl; intros w w' s' H;
    destruct (chain (app w)) as [c |] eqn:Hc; try discriminate;
    destruct (Qeq_bool (open_spot_price c) (-1)) eqn:E; try discriminate;
    eauto.
Qed.

(** A bar for the reference-price request stores its close, whatever was
    stored before, and touches nothing else. *)
Lemma OPT_historicalData_spot (a : IBapi) (bar : Bar) (c : option_chain_data) :
  kind a = OPT ->
  chain a = Some c ->
  0 <= bar_hour bar - shift_hours a <= 23 ->
  historicalData a OPEN_SPOT_PRICE_REQ_ID bar
  = Ok (set_chain (Some (set_open_spot_price (bar_close bar) c)) a).
Proof.
  intros Hk Hc Hh. unfold historicalData. rewrite Hk.
  unfold OPT_historicalData, IBapi_historicalData.
  replace ((0 <=? bar_hour bar - shift_hours a)
           && (bar_hour bar - shift_hours a <=? 23)) with true
    by (symmetry; apply andb_true_intro; split; apply Z.leb_le; lia).
  simpl. rewrite Hc. reflexivity.
Qed.

(** While no bar is delivered the wait for the reference price goes on. *)
Lemma wait_spot_price_quiet (sched : list tick) :
  forall w c,
    quiet sched ->
    chain (app w) = Some c -> open_spot_price c == -1 ->
    wait_spot_price sched w = Pending.
Proof.
  induction sched as [| t sched IH]; intros w c Hq Hc Hp;
    pose proof Hp as Hb; apply Qeq_bool_iff in Hb; simpl; rewrite Hc, Hb;
    [reflexivity |].
  inversion Hq as [| ? ? Ht Hrest]; subst.
  apply (IH (pass t w) c Hrest); [| exact Hp].
  rewrite (pass_quiet t w Ht). exact Hc.
Qed.

(** C7, as the code has it: the wait for the reference price returns only
    with a price other than the sentinel -1, goes on while no bar is
    delivered, and returns at once when a price is stored; it returns right
    after the sleep in which a bar for the reference-price request brings
    such a price; and every such bar overwrites the stored price with its
    close (the last value wins) and writes nothing to the output. *)
Theorem spot_price_wait_last_wins :
  (forall asset date sched w w' s',
      get_underline_open_price asset date sched w = Ok (w', s') ->
      exists c', chain (app w') = Some c' /\ ~ open_spot_price c' == -1) /\
  (forall sched w c,
      quiet sched -> chain (app w) = Some c -> open_spot_price c == -1 ->
      wait_spot_price sched w = Pending) /\
  (forall sched w c,
      chain (app w) = Some c -> ~ open_spot_price c == -1 ->
      wait_spot_price sched w = Ok (w, sched)) /\
  (forall t sched w c bar,
      kind (app w) = OPT -> connected (app w) = true ->
      chain (app w) = Some c -> open_spot_price c == -1 ->
      arrivals t = [EvHistoricalData OPEN_SPOT_PRICE_REQ_ID bar] ->
      0 <= bar_hour bar - shift_hours (app w) <= 23 ->
      ~ bar_close bar == -1 ->
      wait_spot_price (t :: sched) w = Ok (pass t w, sched) /\
      spot_of (app (pass t w)) = Some (bar_close bar)) /\
  (forall a bar c,
      kind a = OPT -> chain a = Some c ->
      0 <= bar_hour bar - shift_hours a <= 23 ->
      exists a',
        historicalData a OPEN_SPOT_PRICE_REQ_ID bar = Ok a' /\
        spot_of a' = Some (bar_close bar) /\
        output_file a' = output_file a /\
        req_id_to_contract a' = req_id_to_contract a /\
        open_requests a' = open_requests a).
Proof.
  split; [| split; [| split; [| split]]].
  - intros asset date sched w w' s' H. unfold get_underline_open_price in H.
    inv_bind H. destruct a as [w2 s2].
    destruct (wait_spot_price_returns _ _ _ _ Ha) as [c' [Hc Hp]].
    destruct (dt_date date =? dt_date (now w)); injection H as <- <-;
      exists c'; split; auto.
  - apply wait_spot_price_quiet.
  - apply wait_spot_price_set.
  - intros t sched w c bar Hk Hconn Hc Hp Ht Hh Hb.
    assert (Ha : app (pass t w)
                 = set_chain (Some (set_open_spot_price (bar_close bar) c)) (app w)).
    { simpl. rewrite Ht. simpl. rewrite Hconn.
      change (dispatch (app w) (EvHistoricalData OPEN_SPOT_PRICE_REQ_ID bar))
        with (historicalData (app w) OPEN_SPOT_PRICE_REQ_ID bar).
      rewrite (OPT_historicalData_spot _ _ _ Hk Hc Hh). reflexivity. }
    split.
    + rewrite (wait_spot_price_unset t sched w c Hc Hp).
      apply wait_spot_price_set with
        (c := set_open_spot_price (bar_close bar) c).
      * rewrite Ha. reflexivity.
      * exact Hb.
    + unfold spot_of. rewrite Ha. reflexivity.
  - intros a bar c Hk Hc Hh. eexists.
    split; [apply OPT_historicalData_spot; eassumption |].
    repeat split.
Qed.

Lemma spot_price_wait_last_wins_witness :
  exists a',
    historicalData opt_priced OPEN_SPOT_PRICE_REQ_ID (mkBar 9 31 0 102 102 102 102)
    = Ok a' /\
    spot_of a' = Some (bar_close (mkBar 9 31 0 102 102 102 102)) /\
    output_file a' = output_file opt_priced /\
    req_id_to_contract a' = req_id_to_contract opt_priced /\
    open_requests a' = open_requests opt_priced.
Proof.
  apply (proj2 (proj2 (proj2 (proj2 spot_price_wait_last_wins))) opt_priced
           (mkBar 9 31 0 102 102 102 102) opt_priced_chain).
  - reflexivity.
  - vm_compute. reflexivity.
  - simpl. lia.
Defined.

(** The claim of C7 fails on "the first value wins": after a bar with
    close 101 and a second one with close 102 for the reference-price
    request, the stored price is 102. *)
Lemma second_spot_bar_overwrites :
  spot_of opt_with_chain = Some (-1)%Q /\
  spot_of (api_thread (firstn 1 two_spot_bars) opt_with_chain) = Some 101%Q /\
  spot_of (api_thread two_spot_bars opt_with_chain) = Some 102%Q /\
  connected (api_thread two_spot_bars opt_with_chain) = true /\
  output_file (api_thread two_spot_bars opt_with_chain) = output_file opt_with_chain.
Proof. repeat split; vm_compute; reflexivity. Qed.

(** ** A day whose file is kept *)

Lemma skip_frame_refl (a : IBapi) : skip_frame a a.
Proof.
  constructor; try reflexivity; try apply incl_refl; try lia.
  exists []. rewrite app_nil_r. split; [reflexivity | constructor].
Qed.

Lemma skip_frame_trans (a b c : IBapi) :
  skip_frame a b -> skip_frame b c -> skip_frame a c.
Proof.
  intros [Hk Hq Hi Ho [l [Hw Hl]]] [Hk' Hq' Hi' Ho' [l' [Hw' Hl']]].
  constructor; try congruence.
  - eapply incl_tran; eassumption.
  - lia.
  - exists (l ++ l'). split; [rewrite Hw', Hw, app_assoc; reflexivity |].
    apply Forall_app. split; assumption.
Qed.

Lemma callback_skip_frame (a a' : IBapi) : callback_frame a a' -> skip_frame a a'.
Proof.
  intros []. constructor; try assumption.
  exists []. rewrite app_nil_r. split; [assumption | constructor].
Qed.

Lemma send_call_skip_frame (a : IBapi) (c : api_call) :
  pseudo_call c -> skip_frame a (send_call c a).
Proof.
  intros Hc. constructor; simpl; try reflexivity; try apply incl_refl; try lia.
  exists [c]. split; [reflexivity | constructor; [exact Hc | constructor]].
Qed.

Lemma pass_skip_frame (t : tick) (w : World) : skip_frame (app w) (app (pass t w)).
Proof. apply callback_skip_frame. simpl. apply api_thread_frame. Qed.

Lemma wait_spot_price_frame (sched : list tick) :
  forall w w' s',
    wait_spot_price sched w = Ok (w', s') -> skip_frame (app w) (app w').
Proof.
  induction sched as [| t sched IH]; simpl; intros w w' s' H;
    destruct (chain (app w)) as [c |]; try discriminate;
    destruct (Qeq_bool (open_spot_price c) (-1)); try discriminate;
    try (injection H as <- <-; apply skip_frame_refl).
  eapply skip_frame_trans; [apply pass_skip_frame | apply (IH _ _ _ H)].
Qed.

Lemma wait_contracts_fetched_frame (sched : list tick) :
  forall w w' s',
    wait_contracts_fetched sched w = Ok (w', s') -> skip_frame (app w) (app w').
Proof.
  induction sched as [| t sched IH]; simpl; intros w w' s' H;
    destruct (chain (app w)) as [c |]; try discriminate;
    destruct (all_contracts_fetched c); try discriminate;
    try (injection H as <- <-; apply skip_frame_refl).
  eapply skip_frame_trans; [apply pass_skip_frame | apply (IH _ _ _ H)].
Qed.

Lemma keep_close_strikes_frame (a a' : IBapi) (dist : Q) :
  keep_close_strikes a dist = Ok a' -> skip_frame a a'.
Proof.
  unfold keep_close_strikes. intros H.
  inv_bind H. inv_bind H. inv_bind H. inv_bind H. injection H as <-.
  constructor; simpl; try reflexivity; try apply incl_refl; try lia.
  exists []. rewrite app_nil_r. split; [reflexivity | constructor].
Qed.

Lemma get_underline_open_price_frame (asset : string) (date : Z)
  (sched : list tick) (w w' : World) (s' : list tick) :
  get_underline_open_price asset date sched w = Ok (w', s') ->
  skip_frame (app w) (app w').
Proof.
  unfold get_underline_open_price. intros H. inv_bind H. destruct a as [w2 s2].
  apply wait_spot_price_frame in Ha.
  destruct (dt_date date =? dt_date (now w)); simpl in *; injection H as <- <-.
  - eapply skip_frame_trans; [| eapply skip_frame_trans; [exact Ha |]].
    + apply (send_call_skip_frame (app w)). left. reflexivity.
    + apply (send_call_skip_frame (app w2)). left. reflexivity.
  - eapply skip_frame_trans; [| exact Ha].
    apply (send_call_skip_frame (app w)). left. reflexivity.
Qed.

Lemma get_all_needed_contracts_frame (expiry : Z -> bool -> outcome Z)
  (asset : string) (date : Z) (is_weekly : bool) (config : Config)
  (sched : list tick) (w w' : World) (s' : list tick) :
  get_all_needed_contracts expiry asset date is_weekly config sched w = Ok (w', s') ->
  skip_frame (app w) (app w') /\ (kind (app w) <> OPT -> w' = w /\ s' = sched).
Proof.
  unfold get_all_needed_contracts. intros H.
  destruct (kind (app w)) eqn:Ek.
  2, 3: injection H as <- <-; split; [apply skip_frame_refl | auto].
  split; [| congruence].
  inv_bind H. inv_bind H. destruct a0 as [w1 s1].
  inv_bind H. destruct a0 as [w3 s3]. inv_bind H. injection H as <- <-.
  apply get_underline_open_price_frame in Ha0.
  apply wait_contracts_fetched_frame in Ha1.
  apply keep_close_strikes_frame in Ha2. simpl in *.
  eapply skip_frame_trans; [| exact Ha2].
  eapply skip_frame_trans; [| exact Ha1].
  eapply skip_frame_trans; [| apply send_call_skip_frame; right; reflexivity].
  eapply skip_frame_trans; [| exact Ha0].
  constructor; simpl; try reflexivity; try apply incl_refl; try lia.
  exists []. rewrite app_nil_r. split; [reflexivity | constructor].
Qed.

(** C8, as the code has it: when the day's file exists and the user does
    not answer "yes", the day ends before any request goes through the
    pacing gate: the pacing window is unchanged, no id is registered and
    the outstanding count does not grow; only calls for the two reserved
    ids (reference price, contract details) may have gone out, which the
    option variant sends before the file is looked at; the other variants
    send nothing and change nothing. *)
Theorem day_skipped_frame (expiry : Z -> bool -> outcome Z) (fuel : nat)
  (config : Config) (asset base_asset : string) (is_weekly : bool) (date : Z)
  (answer : string) (sched : list tick) (w w' : World) (s' : list tick) :
  String.eqb answer "yes" = false ->
  day expiry fuel config asset base_asset is_weekly date true answer sched w
  = Ok (w', s') ->
  sent_time_queue (app w') = sent_time_queue (app w) /\
  incl (dict_keys (req_id_to_contract (app w')))
    (dict_keys (req_id_to_contract (app w))) /\
  open_requests (app w') <= open_requests (app w) /\
  (exists calls,
      wire (app w') = wire (app w) ++ calls /\ Forall pseudo_call calls) /\
  (kind (app w) <> OPT -> w' = w /\ s' = sched).
Proof.
  intros Hans H. unfold day in H. inv_bind H. destruct a as [w1 s1].
  inv_bind H. destruct a as [[end' size] q].
  unfold is_file_exists in H. rewrite Hans in H. simpl in H.
  injection H as <- <-.
  destruct (get_all_needed_contracts_frame _ _ _ _ _ _ _ _ _ Ha) as [[] Hsame].
  split; [assumption |]. split; [assumption |]. split; [assumption |].
  split; assumption.
Qed.

Lemma day_skipped_frame_witness :
  exists w' s',
    day next_week 10 skip_config "SPY" "SPY" false sample_date true "no"
      skip_schedule skip_world = Ok (w', s') /\
    sent_time_queue (app w') = sent_time_queue (app skip_world) /\
    incl (dict_keys (req_id_to_contract (app w')))
      (dict_keys (req_id_to_contract (app skip_world))) /\
    open_requests (app w') <= open_requests (app skip_world) /\
    (exists calls,
        wire (app w') = wire (app skip_world) ++ calls /\ Forall pseudo_call calls) /\
    (kind (app skip_world) <> OPT -> w' = skip_world /\ s' = skip_schedule).
Proof.
  assert (E : exists w' s',
             day next_week 10 skip_config "SPY" "SPY" false sample_date true "no"
               skip_schedule skip_world = Ok (w', s'))
    by (eexists; eexists; vm_compute; reflexivity).
  destruct E as (w' & s' & E). exists w', s'. split; [exact E |].
  exact (day_skipped_frame next_week 10 skip_config "SPY" "SPY" false sample_date
           "no" skip_schedule skip_world w' s' eq_refl E).
Defined.

(** The claim of C8 fails on "no requests of any kind": for an option day
    whose file exists and is kept, the reference-price query and the
    contract-details query have gone out when the day is skipped. *)
Lemma skipped_option_day_sends_queries :
  exists w' s',
    skipped_day = Ok (w', s') /\
    wire (app skip_world) = [] /\
    map call_id (wire (app w'))
    = [OPEN_SPOT_PRICE_REQ_ID; ALL_OPTION_CONTRACTS_DETAILS_REQ_ID] /\
    sent_time_queue (app w') = [] /\
    req_id_to_contract (app w') = [].
Proof.
  eexists. eexists. split; [vm_compute; reflexivity |].
  repeat split.
Qed.

(** ** Remarks *)

(** Events keep the chain well formed: only discovery writes strikes and
    sides. *)
Lemma dispatch_chain_wf (a a' : IBapi) (ev : event) :
  chain_wf a -> dispatch a ev = Ok a' -> chain_wf a'.
Proof.
  unfold chain_wf. intros Hwf H.
  destruct ev as [id bar | id | id k | id | id code msg]; simpl in H.
  - unfold historicalData, OPT_historicalData, STK_historicalData,
      FX_historicalData in H.
    destruct (kind a); crush_outcome H;
      try (match goal with
           | E : write_to_file _ _ = Ok _ |- _ =>
               apply write_to_file_frame in E; rewrite E; exact Hwf
           end).
    simpl. match goal with E : of_option _ (chain a) = Ok _ |- _ =>
      apply of_option_Ok in E; rewrite E in Hwf end. exact Hwf.
  - unfold historicalDataEnd in H. crush_outcome H; exact Hwf.
  - unfold contractDetails in H.
    destruct (id =? ALL_OPTION_CONTRACTS_DETAILS_REQ_ID);
      [| injection H as <-; exact Hwf].
    inv_bind H. inv_bind H. injection H as <-. simpl.
    apply of_option_Ok in Ha. rewrite Ha in Hwf.
    eapply chain_record_wf; eassumption.
  - unfold contractDetailsEnd in H.
    destruct (id =? ALL_OPTION_CONTRACTS_DETAILS_REQ_ID);
      [| injection H as <-; exact Hwf].
    inv_bind H. injection H as <-. simpl.
    apply of_option_Ok in Ha. rewrite Ha in Hwf. exact Hwf.
  - unfold error in H. crush_outcome H; exact Hwf.
Qed.

Lemma api_thread_chain_wf (evs : list event) :
  forall a, chain_wf a -> chain_wf (api_thread evs a).
Proof.
  induction evs as [| ev evs IH]; simpl; intros a Hwf; [exact Hwf |].
  destruct (connected a); [| exact Hwf].
  destruct (dispatch a ev) as [a' | e |] eqn:E; try exact Hwf.
  apply IH. eapply dispatch_chain_wf; eassumption.
Qed.

(** An anchor of zero makes the band test divide by zero. *)
Remark keep_close_strikes_zero_anchor :
  keep_close_strikes
    (set_chain (Some (mkChain "SPY" 1 [(0%Q, [("C", spy_option 0 "C")])] true true))
       (IBapi_new OPT "txt"))
    (pct_strikes_from_atm_of 5)
  = Raise ZeroDivisionError.
Proof. reflexivity. Qed.

(** The gate never fails: it returns or it is still waiting. *)
Lemma check_pacing_violations_never_raises (sched : list tick) (w : World) (e : exn) :
  check_pacing_violations sched w <> Raise e.
Proof.
  assert (Hc : forall s w0, wait_connected s w0 <> Raise e).
  { induction s as [| t s IH]; simpl; intros w0;
      destruct (connected (app w0)); try discriminate. apply IH. }
  assert (Hw : forall s w0, window_loop s w0 <> Raise e).
  { induction s as [| t s IH]; simpl; intros w0;
      destruct (58 <? Z.of_nat (length (sent_time_queue (app w0))));
      try discriminate. apply IH. }
  assert (Ho : forall s w0, open_loop s w0 <> Raise e).
  { induction s as [| t s IH]; simpl; intros w0;
      destruct (49 <? open_requests (app w0)); try discriminate. apply IH. }
  unfold check_pacing_violations.
  destruct (wait_connected sched w) as [[w1 s1] | e1 |] eqn:E1; simpl;
    [| intros H; injection H as ->; exact (Hc _ _ E1) | discriminate].
  destruct (window_loop s1 w1) as [[w2 s2] | e2 |] eqn:E2; simpl;
    [apply Ho | intros H; injection H as ->; exact (Hw _ _ E2) | discriminate].
Qed.

(** * Further properties of the code *)

(** ** Splitting strings *)

Lemma split_nonempty (sep : ascii) (s : string) : split sep s <> [].
Proof.
  destruct s as [| c s]; simpl; [discriminate |].
  destruct (Ascii.eqb c sep); [discriminate |].
  destruct (split sep s); discriminate.
Qed.

Lemma split_no_sep (sep : ascii) (s : string) :
  has_char sep s = false -> split sep s = [s].
Proof.
  induction s as [| c s IH]; simpl; intros H; [reflexivity |].
  apply orb_false_iff in H. destruct H as [Hc Hs].
  rewrite Hc, (IH Hs). reflexivity.
Qed.

Lemma split_at_sep (sep : ascii) (a b : string) :
  has_char sep a = false ->
  split sep (a ++ String sep b) = a :: split sep b.
Proof.
  induction a as [| c a IH]; simpl; intros H.
  - rewrite Ascii.eqb_refl. reflexivity.
  - apply orb_false_iff in H. destruct H as [Hc Hs].
    rewrite Hc, (IH Hs). reflexivity.
Qed.

Lemma split_head_no_sep (sep : ascii) (s : string) :
  forall w ws, split sep s = w :: ws -> has_char sep w = false.
Proof.
  induction s as [| c s IH]; simpl; intros w ws H.
  - injection H as <- <-. reflexivity.
  - destruct (Ascii.eqb c sep) eqn:E.
    + injection H as <- <-. reflexivity.
    + destruct (split sep s) as [| w' ws'] eqn:Es.
      * injection H as <- <-. simpl. now rewrite E.
      * injection H as <- <-. simpl. rewrite E. apply (IH w' ws' eq_refl).
Qed.

Lemma length_append (a b : string) :
  String.length (a ++ b) = (String.length a + String.length b)%nat.
Proof. induction a as [| c a IH]; simpl; [reflexivity | now rewrite IH]. Qed.

Lemma substring_after (a b : string) (n : nat) :
  substring (String.length a) n (a ++ b) = substring 0 n b.
Proof. induction a as [| c a IH]; simpl; [reflexivity | exact IH]. Qed.

Lemma last_two_append (a : string) : last_two (a ++ "_W") = "_W".
Proof.
  unfold last_two. rewrite length_append. simpl String.length.
  replace (String.length a + 2 - 2)%nat with (String.length a) by lia.
  rewrite substring_after. reflexivity.
Qed.

(** X1: an asset name that ends in [_W] is weekly, and its base name is
    what stands before its first underscore, so a base name without an
    underscore comes back as it is; any other name is returned unchanged
    and not weekly. The base name of a weekly asset never holds an
    underscore. *)
Theorem is_weekly_options_cases :
  (forall base,
      has_char "_" base = false ->
      is_weekly_options (base ++ "_W") = Ok (base, true)) /\
  (forall asset,
      last_two asset <> "_W" -> is_weekly_options asset = Ok (asset, false)) /\
  (forall asset base,
      is_weekly_options asset = Ok (base, true) ->
      has_char "_" base = false /\ last_two asset = "_W").
Proof.
  split; [| split].
  - intros base H. unfold is_weekly_options.
    rewrite last_two_append. simpl.
    rewrite (split_at_sep "_" base "W" H). reflexivity.
  - intros asset H. unfold is_weekly_options.
    destruct (String.eqb_spec (last_two asset) "_W"); [contradiction | reflexivity].
  - intros asset base H. unfold is_weekly_options in H.
    destruct (String.eqb_spec (last_two asset) "_W") as [E | E];
      [| discriminate].
    split; [| exact E].
    destruct (split "_" asset) as [| w ws] eqn:Es; simpl in H; [discriminate |].
    injection H as <-. eapply split_head_no_sep; eassumption.
Qed.

Lemma is_weekly_options_cases_witness :
  is_weekly_options ("SPY" ++ "_W") = Ok ("SPY", true) /\
  is_weekly_options "SPY" = Ok ("SPY", false).
Proof.
  split.
  - apply (proj1 is_weekly_options_cases "SPY"). reflexivity.
  - apply (proj1 (proj2 is_weekly_options_cases) "SPY"). discriminate.
Defined.

(** A base name with an underscore of its own is cut at it. *)
Example is_weekly_options_cut :
  is_weekly_options "BRK_B_W" = Ok ("BRK", true).
Proof. reflexivity. Qed.

Lemma upper_ascii_idem (c : ascii) : upper_ascii (upper_ascii c) = upper_ascii c.
Proof.
  unfold upper_ascii.
  destruct (Nat.leb 97 (nat_of_ascii c) && Nat.leb (nat_of_ascii c) 122) eqn:E.
  - apply andb_true_iff in E. destruct E as [E1 E2].
    apply Nat.leb_le in E1, E2.
    rewrite nat_ascii_embedding by lia.
    replace (Nat.leb 97 (nat_of_ascii c - 32)) with false
      by (symmetry; apply Nat.leb_gt; lia).
    reflexivity.
  - rewrite E. reflexivity.
Qed.

(** X2: a currency pair written [base.quote] gives the contract for the
    upper-cased base against the upper-cased quote on IDEALPRO; a symbol
    without a dot has no second part and raises [IndexError]. Upper-casing
    twice changes nothing. *)
Theorem get_fx_contract_cases :
  (forall base quote,
      has_char "." base = false -> has_char "." quote = false ->
      get_fx_contract (base ++ String "." quote)
      = Ok (mkContract (upper base) "CASH" "IDEALPRO" (upper quote) 0%Q
              EmptyString None)) /\
  (forall sym, has_char "." sym = false -> get_fx_contract sym = Raise IndexError) /\
  (forall s, upper (upper s) = upper s).
Proof.
  split; [| split].
  - intros base quote Hb Hq. unfold get_fx_contract.
    rewrite (split_at_sep "." base quote Hb), (split_no_sep "." quote Hq).
    reflexivity.
  - intros sym H. unfold get_fx_contract. rewrite (split_no_sep "." sym H).
    reflexivity.
  - induction s as [| c s IH]; simpl; [reflexivity |].
    now rewrite upper_ascii_idem, IH.
Qed.

Lemma get_fx_contract_cases_witness :
  get_fx_contract ("eur" ++ String "." "usd") = Ok eurusd /\
  get_fx_contract "EURUSD" = Raise IndexError.
Proof.
  split.
  - apply (proj1 get_fx_contract_cases "eur" "usd"); reflexivity.
  - apply (proj1 (proj2 get_fx_contract_cases) "EURUSD"). reflexivity.
Defined.

(** ** Dates of the run *)

Arguments timedelta_days : simpl never.
Arguments weekday : simpl never.

Lemma filter_map_length {A B : Type} (f : B -> bool) (g : A -> B) (l : list A) :
  length (filter f (map g l)) = length (filter (fun x => f (g x)) l).
Proof.
  induction l as [| x l IH]; simpl; [reflexivity |].
  destruct (f (g x)); simpl; now rewrite IH.
Qed.

Lemma weekday_range (t : Z) : 0 <= weekday t < 7.
Proof. unfold weekday. apply Z.mod_pos_bound. lia. Qed.

Lemma weekday_back (start x : Z) :
  weekday (start - timedelta_days x) = (weekday start - x) mod 7.
Proof.
  unfold weekday, timedelta_days, dt_date.
  replace (start - x * usec_per_day) with (start + (- x) * usec_per_day) by lia.
  rewrite Z.div_add by (unfold usec_per_day, usec_per_hour, usec_per_min,
                          usec_per_sec; lia).
  rewrite Zminus_mod_idemp_l. f_equal. lia.
Qed.

Lemma parse_all_raise (strptime : string -> outcome Z) (l : list string) (e : exn) :
  parse_all strptime l = Raise e -> exists x, strptime x = Raise e.
Proof.
  induction l as [| s l IH]; simpl; intros H; [discriminate |].
  destruct (strptime (strip s)) as [t | e' |] eqn:E; simpl in H.
  - destruct (parse_all strptime l) as [ts | e'' |]; simpl in H; try discriminate.
    injection H as ->. apply IH. reflexivity.
  - injection H as ->. eauto.
  - discriminate.
Qed.

Lemma days_back_in_range (start : Z) (xs : list nat) :
  Forall (fun x => Z.of_nat x <= 999999999 /\
                   datetime_min <= start - timedelta_days (Z.of_nat x)
                   <= datetime_max) xs ->
  days_back start xs
  = Ok (map (fun x => start - timedelta_days (Z.of_nat x)) xs).
Proof.
  induction 1 as [| x xs [Hx [Hlo Hhi]] Hxs IH]; simpl; [reflexivity |].
  unfold timedelta_of_days, datetime_sub.
  rewrite Z.abs_eq by lia.
  replace (Z.of_nat x <=? 999999999) with true by (symmetry; apply Z.leb_le; lia).
  simpl.
  replace (datetime_min <=? start - timedelta_days (Z.of_nat x)) with true
    by (symmetry; apply Z.leb_le; lia).
  replace (start - timedelta_days (Z.of_nat x) <=? datetime_max) with true
    by (symmetry; apply Z.leb_le; lia).
  simpl. rewrite IH. reflexivity.
Qed.

(** The comprehension returns the dates, all of them in range, or raises
    [OverflowError]. *)
Lemma days_back_cases (start : Z) (xs : list nat) :
  (exists l, days_back start xs = Ok l /\
             Forall (fun x => datetime_min <= start - timedelta_days (Z.of_nat x))
               xs)
  \/ days_back start xs = Raise OverflowError.
Proof.
  induction xs as [| x xs IH]; simpl.
  - left. exists []. split; [reflexivity | constructor].
  - unfold timedelta_of_days, datetime_sub.
    destruct (Z.abs (Z.of_nat x) <=? 999999999); simpl; [| now right].
    destruct (datetime_min <=? start - timedelta_days (Z.of_nat x)) eqn:E1;
      simpl; [| now right].
    destruct (start - timedelta_days (Z.of_nat x) <=? datetime_max);
      simpl; [| now right].
    destruct IH as [[l [Hl Hf]] | Hr]; rewrite ?Hl, ?Hr; simpl; [| now right].
    left. eexists. split; [reflexivity |]. constructor; [| exact Hf].
    apply Z.leb_le, E1.
Qed.

Lemma get_dates_list_single (strptime int_of_str : string -> outcome Z)
  (s : string) (d : days_arg) (start n : Z) :
  has_char "," s = false -> strptime (strip s) = Ok start ->
  int_days int_of_str d = Ok n ->
  get_dates_list strptime int_of_str s d
  = (date_list <- days_back start (seq 0 (Z.to_nat n)) ;;
     Ok (filter (fun x => weekday x <? 5) date_list)).
Proof.
  intros Hs Hp Hn. unfold get_dates_list. rewrite (split_no_sep "," s Hs).
  change (Nat.eqb (length [s]) 1) with true. cbv iota. rewrite Hp. simpl.
  rewrite Hn. reflexivity.
Qed.

Lemma get_dates_list_overflow (strptime int_of_str : string -> outcome Z)
  (s : string) (start : Z) (d : days_arg) (n : Z) :
  has_char "," s = false -> strptime (strip s) = Ok start ->
  int_days int_of_str d = Ok n -> 0 < n ->
  start - timedelta_days (n - 1) < datetime_min ->
  get_dates_list strptime int_of_str s d = Raise OverflowError.
Proof.
  intros Hs Hp Hd Hn Hlow.
  rewrite (get_dates_list_single _ _ _ _ start _ Hs Hp Hd).
  destruct (days_back_cases start (seq 0 (Z.to_nat n))) as [[l [Hl Hf]] | Hr];
    [| rewrite Hr; reflexivity].
  exfalso. rewrite Forall_forall in Hf.
  assert (Hx : In (Z.to_nat (n - 1)) (seq 0 (Z.to_nat n)))
    by (apply in_seq; lia).
  apply Hf in Hx. rewrite Z2Nat.id in Hx by lia. lia.
Qed.

(** X3: the dates kept for the run are never a Saturday or a Sunday. For
    a single start date with six days of dates before it, a look-back of
    seven days keeps exactly five dates, and a look-back of one day keeps
    the start date or, at a week-end, nothing. An exception that comes
    out was raised by the date parser or by [int], or is the
    [OverflowError] of a date out of range, so the branch "No date
    provided" is never taken; and a look-back that reaches before the
    first date there is raises [OverflowError]. *)
Theorem get_dates_list_weekdays (strptime int_of_str : string -> outcome Z) :
  (forall s d ds,
      get_dates_list strptime int_of_str s d = Ok ds ->
      Forall (fun t => 0 <= weekday t < 5) ds) /\
  (forall s start d,
      has_char "," s = false -> strptime (strip s) = Ok start ->
      datetime_min + timedelta_days 6 <= start <= datetime_max ->
      (int_days int_of_str d = Ok 7 ->
       exists ds, get_dates_list strptime int_of_str s d = Ok ds
                  /\ length ds = 5%nat) /\
      (int_days int_of_str d = Ok 1 ->
       get_dates_list strptime int_of_str s d
       = Ok (if weekday start <? 5 then [start] else []))) /\
  (forall s d e,
      get_dates_list strptime int_of_str s d = Raise e ->
      (exists x, strptime x = Raise e) \/ int_days int_of_str d = Raise e
      \/ e = OverflowError) /\
  (forall s start d n,
      has_char "," s = false -> strptime (strip s) = Ok start ->
      int_days int_of_str d = Ok n -> 0 < n ->
      start - timedelta_days (n - 1) < datetime_min ->
      get_dates_list strptime int_of_str s d = Raise OverflowError).
Proof.
  assert (Hday : 0 < usec_per_day)
    by (unfold usec_per_day, usec_per_hour, usec_per_min, usec_per_sec; lia).
  split; [| split; [| split]].
  - intros s d ds H. unfold get_dates_list in H. inv_bind H. injection H as <-.
    apply Forall_forall. intros t Ht. apply filter_In in Ht.
    destruct Ht as [_ Ht]. apply Z.ltb_lt in Ht.
    pose proof (weekday_range t). lia.
  - intros s start d Hs Hp Hr.
    assert (Hin : forall n : nat,
               (n <= 7)%nat ->
               days_back start (seq 0 n)
               = Ok (map (fun x => start - timedelta_days (Z.of_nat x)) (seq 0 n))).
    { intros n Hn. apply days_back_in_range. apply Forall_forall.
      intros x Hx. apply in_seq in Hx. unfold timedelta_days in *.
      split; [lia |]. nia. }
    split; intros Hd; rewrite (get_dates_list_single _ _ _ _ start _ Hs Hp Hd).
    + rewrite (Hin (Z.to_nat 7)) by (simpl; lia). cbv beta iota delta [bind].
      eexists. split; [reflexivity |].
      rewrite filter_map_length.
      rewrite (filter_ext _ (fun x => (weekday start - Z.of_nat x) mod 7 <? 5))
        by (intros x; now rewrite weekday_back).
      pose proof (weekday_range start) as Hw.
      assert (Hc : weekday start = 0 \/ weekday start = 1 \/ weekday start = 2
                   \/ weekday start = 3 \/ weekday start = 4
                   \/ weekday start = 5 \/ weekday start = 6) by lia.
      destruct Hc as [E | [E | [E | [E | [E | [E | E]]]]]];
        rewrite E; reflexivity.
    + rewrite (Hin (Z.to_nat 1)) by (simpl; lia). cbv beta iota delta [bind].
      change (seq 0 (Z.to_nat 1)) with [0%nat]. cbn [map filter].
      replace (start - timedelta_days (Z.of_nat 0)) with start
        by (unfold timedelta_days; lia).
      reflexivity.
  - intros s d e H. unfold get_dates_list in H.
    destruct (Nat.eqb (length (split "," s)) 1) eqn:E1.
    + destruct (strptime (strip s)) as [t | e' |] eqn:E; simpl in H;
        try discriminate; [| injection H as ->; eauto].
      destruct (int_days int_of_str d) as [n | e' |] eqn:En; simpl in H;
        try discriminate; [| injection H as ->; auto].
      destruct (days_back_cases t (seq 0 (Z.to_nat n))) as [[l [Hl _]] | Hr];
        rewrite ?Hl, ?Hr in H; simpl in H; [discriminate |].
      injection H as <-. auto.
    + destruct (Nat.ltb 1 (length (split "," s))) eqn:E2.
      * destruct (parse_all strptime (split "," s)) as [ts | e' |] eqn:E;
          simpl in H; try discriminate.
        injection H as ->. left. eapply parse_all_raise; eassumption.
      * exfalso. apply Nat.eqb_neq in E1. apply Nat.ltb_ge in E2.
        pose proof (split_nonempty "," s) as Hne.
        destruct (split "," s); [congruence | simpl in *; lia].
  - intros s start d n. apply get_dates_list_overflow.
Qed.

Lemma get_dates_list_weekdays_witness :
  (exists ds, get_dates_list sample_strptime sample_int " 20200102" (DaysStr "7")
              = Ok ds /\ length ds = 5%nat) /\
  get_dates_list sample_strptime sample_int " 20200102" (DaysInt 1)
  = Ok (if weekday sample_date <? 5 then [sample_date] else []).
Proof.
  split.
  - refine (proj1 (proj1 (proj2 (get_dates_list_weekdays sample_strptime sample_int))
                     " 20200102" sample_date (DaysStr "7") _ _ _) _);
      [reflexivity | reflexivity | vm_compute; split; discriminate | reflexivity].
  - refine (proj2 (proj1 (proj2 (get_dates_list_weekdays sample_strptime sample_int))
                     " 20200102" sample_date (DaysInt 1) _ _ _) _);
      [reflexivity | reflexivity | vm_compute; split; discriminate | reflexivity].
Defined.

(** A non-numeric number of days raises the [ValueError] of [int], and a
    look-back of three million days from 2020 leaves the calendar. *)
Example get_dates_list_errors :
  get_dates_list sample_strptime sample_int "20200102" (DaysStr "a week")
  = Raise ValueError /\
  get_dates_list sample_strptime sample_int "20200102" (DaysInt 3000000)
  = Raise OverflowError.
Proof.
  split; [reflexivity |].
  apply (get_dates_list_overflow sample_strptime sample_int "20200102"
           sample_date (DaysInt 3000000) 3000000);
    reflexivity.
Qed.

(** ** Bars and records *)

Lemma valid_hour (a : IBapi) (bar : Bar) :
  0 <= bar_hour bar - shift_hours a <= 23 ->
  IBapi_historicalData a bar
  = Ok (mkBar (bar_hour bar - shift_hours a) (bar_minute bar) (bar_second bar)
          (bar_open bar) (bar_high bar) (bar_low bar) (bar_close bar)).
Proof.
  intros H. unfold IBapi_historicalData.
  replace ((0 <=? bar_hour bar - shift_hours a)
           && (bar_hour bar - shift_hours a <=? 23)) with true
    by (symmetry; apply andb_true_intro; split; apply Z.leb_le; lia).
  reflexivity.
Qed.

Lemma invalid_hour (a : IBapi) (bar : Bar) :
  ~ 0 <= bar_hour bar - shift_hours a <= 23 ->
  IBapi_historicalData a bar = Raise ValueError.
Proof.
  intros H. unfold IBapi_historicalData.
  destruct ((0 <=? bar_hour bar - shift_hours a)
            && (bar_hour bar - shift_hours a <=? 23)) eqn:E; [| reflexivity].
  apply andb_true_iff in E. destruct E as [E1 E2].
  apply Z.leb_le in E1, E2. lia.
Qed.

Lemma flag_side_letter (r : DataRequest) :
  flag_field (FStr (side_letter r)) "S" = FNum (ask_flag r).
Proof.
  unfold side_letter, ask_flag.
  destruct (String.eqb (bid_or_ask r) "ASK"); reflexivity.
Qed.

Lemma flag_right (k : Contract) :
  flag_field (FStr (right k)) "C" = FNum (call_flag k).
Proof. unfold call_flag. simpl. destruct (String.eqb (right k) "C"); reflexivity. Qed.

(** X4: a bar for a tracked request whose entry holds its data request,
    with the output file open, appends exactly one record and changes
    nothing else, so the request stays pending. The text record is the
    line field by field; the binary record is the time as the number
    HHMMSS, for options the strike and 1 for a call, 0 otherwise, then 1
    for an ask request, 0 otherwise, and the four prices. *)
Theorem historicalData_appends_record (a : IBapi) (id : Z) (bar : Bar) (e : entry)
  (r : DataRequest) (f : list sink_record) :
  (kind a = OPT -> id <> OPEN_SPOT_PRICE_REQ_ID) ->
  dict_get Z.eqb (req_id_to_contract a) id = Some e ->
  entry_data_request e = Ok r ->
  0 <= bar_hour bar - shift_hours a <= 23 ->
  output_file a = Some f ->
  let h := bar_hour bar - shift_hours a in
  let prices := [bar_open bar; bar_high bar; bar_low bar; bar_close bar] in
  let line :=
    match kind a with
    | OPT => [FDate h (bar_minute bar) (bar_second bar); FNum (strike (contract r));
              FStr (right (contract r)); FStr (side_letter r)]
    | _ => [FDate h (bar_minute bar) (bar_second bar); FStr (side_letter r)]
    end ++ map FNum prices in
  let arr :=
    match kind a with
    | OPT => [stamp_of h (bar_minute bar) (bar_second bar); strike (contract r);
              call_flag (contract r); ask_flag r]
    | _ => [stamp_of h (bar_minute bar) (bar_second bar); ask_flag r]
    end ++ prices in
  (output_type a = "txt" ->
   historicalData a id bar = Ok (set_output_file (Some (f ++ [TxtLine line])) a)) /\
  (output_type a = "bin" ->
   historicalData a id bar = Ok (set_output_file (Some (f ++ [BinArr arr])) a)).
Proof.
  intros Hid He Hr Hh Hf. cbv zeta.
  unfold historicalData, OPT_historicalData, STK_historicalData, FX_historicalData.
  rewrite (valid_hour a bar Hh). simpl bind. rewrite He, Hr. simpl bind.
  unfold write_to_file, bar_date. cbn [bar_hour bar_minute bar_second bar_open
                                        bar_high bar_low bar_close].
  rewrite Hf.
  destruct (kind a) eqn:Ek.
  - assert (E : (id =? OPEN_SPOT_PRICE_REQ_ID) = false)
      by (apply Z.eqb_neq, Hid; reflexivity).
    rewrite E. split; intros Ho; rewrite Ho; simpl String.eqb; cbv iota.
    + reflexivity.
    + unfold get_opt_arr_from_line. cbn [idx nth_error of_option bind].
      rewrite flag_side_letter, flag_right. reflexivity.
  - split; intros Ho; rewrite Ho; simpl String.eqb; cbv iota.
    + reflexivity.
    + unfold get_arr_from_line. cbn [idx nth_error of_option bind].
      rewrite flag_side_letter. reflexivity.
  - split; intros Ho; rewrite Ho; simpl String.eqb; cbv iota.
    + reflexivity.
    + unfold get_arr_from_line. cbn [idx nth_error of_option bind].
      rewrite flag_side_letter. reflexivity.
Qed.

Lemma historicalData_appends_record_witness :
  historicalData opt_tracked 10 sample_bar
  = Ok (set_output_file
          (Some [TxtLine [FDate 10 0 0; FNum 100; FStr "C"; FStr "S";
                          FNum 1; FNum 2; FNum 1; FNum 2]])
          opt_tracked) /\
  dict_mem Z.eqb (req_id_to_contract opt_tracked) 10 = true.
Proof.
  split; [| reflexivity].
  refine (proj1 (historicalData_appends_record opt_tracked 10 sample_bar
                   (entry_of_request "OPT" (with_req_id ask_100_call 10) 0)
                   (with_req_id ask_100_call 10) [] _ _ _ _ _) _).
  - intros _. discriminate.
  - reflexivity.
  - reflexivity.
  - simpl. lia.
  - reflexivity.
  - reflexivity.
Defined.

(** X5: a bar whose shifted hour is not an hour of the day raises
    [ValueError] before the registry is looked at; otherwise a bar for an
    id that is not tracked raises "Unknown req_id!!!" (for the option
    variant the reference-price id apart; the other variants have no such
    exception, so for them id 1 raises like any unknown id); and a bar for
    a tracked request raises "Unknown output file type" when the output
    type is neither [txt] nor [bin]. *)
Theorem historicalData_rejections (a : IBapi) (id : Z) (bar : Bar) :
  (~ 0 <= bar_hour bar - shift_hours a <= 23 ->
   historicalData a id bar = Raise ValueError) /\
  (0 <= bar_hour bar - shift_hours a <= 23 ->
   dict_get Z.eqb (req_id_to_contract a) id = None ->
   (kind a = OPT -> id <> OPEN_SPOT_PRICE_REQ_ID) ->
   historicalData a id bar = Raise (Exception "Unknown req_id!!!")) /\
  (forall e r,
      0 <= bar_hour bar - shift_hours a <= 23 ->
      dict_get Z.eqb (req_id_to_contract a) id = Some e ->
      entry_data_request e = Ok r ->
      (kind a = OPT -> id <> OPEN_SPOT_PRICE_REQ_ID) ->
      output_type a <> "txt" -> output_type a <> "bin" ->
      historicalData a id bar = Raise (Exception "Unknown output file type")).
Proof.
  unfold historicalData, OPT_historicalData, STK_historicalData, FX_historicalData.
  split; [| split].
  - intros Hh. rewrite (invalid_hour a bar Hh). destruct (kind a); reflexivity.
  - intros Hh Hn Hid. rewrite (valid_hour a bar Hh), Hn. simpl bind.
    destruct (kind a); try reflexivity.
    replace (id =? OPEN_SPOT_PRICE_REQ_ID) with false
      by (symmetry; apply Z.eqb_neq, Hid; reflexivity).
    reflexivity.
  - intros e r Hh He Hr Hid Ht Hb.
    rewrite (valid_hour a bar Hh), He, Hr. simpl bind.
    assert (Hw : forall line, write_to_file a line
                              = Raise (Exception "Unknown output file type")).
    { intros line. unfold write_to_file.
      destruct (String.eqb_spec (output_type a) "bin"); [contradiction |].
      destruct (String.eqb_spec (output_type a) "txt"); [contradiction |].
      reflexivity. }
    destruct (kind a); rewrite ?Hw; try reflexivity.
    replace (id =? OPEN_SPOT_PRICE_REQ_ID) with false
      by (symmetry; apply Z.eqb_neq, Hid; reflexivity).
    reflexivity.
Qed.

Lemma historicalData_rejections_witness :
  historicalData opt_tracked 11 sample_bar = Raise (Exception "Unknown req_id!!!") /\
  historicalData (set_shift_hours 11 opt_tracked) 10 sample_bar = Raise ValueError.
Proof.
  split.
  - refine (proj1 (proj2 (historicalData_rejections opt_tracked 11 sample_bar))
              _ _ _).
    + simpl. lia.
    + reflexivity.
    + intros _. discriminate.
  - apply (proj1 (historicalData_rejections (set_shift_hours 11 opt_tracked) 10
                    sample_bar)).
    simpl. lia.
Defined.

(** ** Registering and completing requests *)

Lemma dict_get_none_not_in {V : Type} (d : list (Z * V)) (k : Z) :
  ~ In k (dict_keys d) -> dict_get Z.eqb d k = None.
Proof.
  intros H. destruct (dict_get Z.eqb d k) as [v |] eqn:E; [| reflexivity].
  exfalso. apply H. apply dict_get_In_keys. eauto.
Qed.

Lemma dict_del_snoc {V : Type} (d : list (Z * V)) (k : Z) (v : V) :
  ~ In k (dict_keys d) -> dict_del Z.eqb (d ++ [(k, v)]) k = Some d.
Proof.
  induction d as [| [k0 v0] d IH]; simpl; intros H.
  - now rewrite Z.eqb_refl.
  - destruct (Z.eqb_spec k0 k) as [-> | Hne]; [exfalso; apply H; now left |].
    rewrite IH; [reflexivity |]. intros Hin. apply H. now right.
Qed.

Lemma dict_del_other_key {V : Type} (d d' : list (Z * V)) (k0 k : Z) :
  dict_del Z.eqb d k0 = Some d' ->
  In k (dict_keys d) -> k <> k0 -> In k (dict_keys d').
Proof.
  revert d'. induction d as [| [k1 v1] d IH]; simpl; intros d' H Hin Hne;
    [discriminate |].
  destruct (Z.eqb_spec k1 k0) as [-> | Hk].
  - injection H as <-. destruct Hin as [E | Hin]; [congruence | exact Hin].
  - destruct (dict_del Z.eqb d k0) as [r |] eqn:Ed; [| discriminate].
    injection H as <-. simpl. destruct Hin as [E | Hin]; [now left | right].
    apply (IH r eq_refl Hin Hne).
Qed.

Lemma tracked_send_spec (sec : string) (r : DataRequest) (w w' : World) :
  tracked_send sec r w = Ok w' ->
  exists id,
    10 <= id <= 99999 /\
    ~ In id (dict_keys (req_id_to_contract (app w))) /\
    req_id_to_contract (app w')
    = req_id_to_contract (app w)
        ++ [(id, entry_of_request sec (with_req_id r id) (now w))] /\
    wire (app w') = wire (app w) ++ [historical_call id (with_req_id r id)] /\
    sent_time_queue (app w') = sent_time_queue (app w) ++ [now w] /\
    open_requests (app w') = open_requests (app w) + 1 /\
    kind (app w') = kind (app w) /\ now w' = now w.
Proof.
  unfold tracked_send. intros H. inv_bind H. destruct a as [id rng'].
  injection H as <-. simpl in Ha. apply get_req_id_spec in Ha.
  destruct Ha as [Hr [Hn _]]. exists id. simpl.
  rewrite (dict_set_absent Z.eqb _ id _ (dict_get_none_not_in _ id Hn)).
  repeat split; try tauto; lia.
Qed.

Lemma send_tracked (r : DataRequest) (sched : list tick) (w w' : World)
  (s' : list tick) :
  kind (app w) <> FX ->
  send_historical_data_request r sched w = Ok (w', s') ->
  s' = sched /\
  exists sec, tracked_send sec r w = Ok w'.
Proof.
  unfold send_historical_data_request. intros Hk H.
  destruct (kind (app w)); [| | contradiction];
    inv_bind H; injection H as <- <-; split; eauto.
Qed.

(** X6: a request sent by the option or the stock variant is registered
    under a fresh id in [10..99999]: looking the id up gives an entry with
    the request, now carrying that id, and the time of sending; the other
    ids are as before; the call with that id goes out; the time is put at
    the end of the queue and the counter goes up by one. On a fresh
    application the queue then holds one time and the counter is one, as
    the unit test of the repository asserts. *)
Theorem send_registers_request (r : DataRequest) (sched : list tick)
  (w w' : World) (s' : list tick) :
  kind (app w) <> FX ->
  send_historical_data_request r sched w = Ok (w', s') ->
  exists id e,
    10 <= id <= 99999 /\
    dict_get Z.eqb (req_id_to_contract (app w)) id = None /\
    dict_get Z.eqb (req_id_to_contract (app w')) id = Some e /\
    entry_data_request e = Ok (with_req_id r id) /\
    entry_time e = Ok (now w) /\
    (forall id', id' <> id ->
                 dict_get Z.eqb (req_id_to_contract (app w')) id'
                 = dict_get Z.eqb (req_id_to_contract (app w)) id') /\
    wire (app w') = wire (app w) ++ [historical_call id (with_req_id r id)] /\
    sent_time_queue (app w') = sent_time_queue (app w) ++ [now w] /\
    open_requests (app w') = open_requests (app w) + 1 /\
    s' = sched.
Proof.
  intros Hk H. destruct (send_tracked _ _ _ _ _ Hk H) as [-> [sec Ht]].
  destruct (tracked_send_spec _ _ _ _ Ht) as (id & Hr & Hn & Hreg & Hw & Hq & Ho & _).
  pose proof (dict_get_none_not_in _ id Hn) as Hnone.
  exists id, (entry_of_request sec (with_req_id r id) (now w)).
  rewrite Hreg.
  rewrite <- (dict_set_absent Z.eqb _ id _ Hnone).
  repeat split; try assumption; try lia.
  - rewrite dict_get_set, Z.eqb_refl. reflexivity.
  - intros id' Hne. rewrite dict_get_set.
    destruct (Z.eqb_spec id id'); [congruence | reflexivity].
Qed.

Lemma send_registers_request_witness :
  exists w' id e,
    send_historical_data_request ask_100_call [] opt_world = Ok (w', []) /\
    dict_get Z.eqb (req_id_to_contract (app w')) id = Some e /\
    entry_data_request e = Ok (with_req_id ask_100_call id) /\
    length (sent_time_queue (app w')) = 1%nat /\
    open_requests (app w') = 1.
Proof.
  assert (E : exists w', send_historical_data_request ask_100_call [] opt_world
                         = Ok (w', []))
    by (eexists; vm_compute; reflexivity).
  destruct E as [w' E]. exists w'.
  assert (Hk : kind (app opt_world) <> FX) by discriminate.
  destruct (send_registers_request ask_100_call [] opt_world w' [] Hk E)
    as (id & e & _ & _ & He & Hr & _ & _ & _ & Hq & Ho & _).
  exists id, e. rewrite Hq, Ho. repeat split; assumption.
Defined.

(** X7: sending a request and then receiving the end of its stream puts
    the registry and the counter back to what they were; what stays is
    the time of sending in the queue and the call on the wire. *)
Theorem send_then_end_restores (r : DataRequest) (sched : list tick)
  (w w' : World) (s' : list tick) :
  kind (app w) <> FX ->
  send_historical_data_request r sched w = Ok (w', s') ->
  exists id a'',
    wire (app w') = wire (app w) ++ [historical_call id (with_req_id r id)] /\
    historicalDataEnd (app w') id = Ok a'' /\
    req_id_to_contract a'' = req_id_to_contract (app w) /\
    open_requests a'' = open_requests (app w) /\
    sent_time_queue a'' = sent_time_queue (app w) ++ [now w] /\
    wire a'' = wire (app w').
Proof.
  intros Hk H. destruct (send_tracked _ _ _ _ _ Hk H) as [-> [sec Ht]].
  destruct (tracked_send_spec _ _ _ _ Ht) as (id & Hr & Hn & Hreg & Hw & Hq & Ho & _).
  exists id. unfold historicalDataEnd. rewrite Hreg.
  rewrite (dict_get_app Z.eqb), (dict_get_none_not_in _ id Hn). simpl.
  rewrite Z.eqb_refl. simpl. rewrite (dict_del_snoc _ id _ Hn). simpl.
  eexists. split; [exact Hw |]. split; [reflexivity |]. simpl.
  repeat split; try assumption. lia.
Qed.

Lemma send_then_end_restores_witness :
  exists w' id a'',
    send_historical_data_request ask_100_call [] opt_world = Ok (w', []) /\
    historicalDataEnd (app w') id = Ok a'' /\
    req_id_to_contract a'' = req_id_to_contract (app opt_world) /\
    open_requests a'' = open_requests (app opt_world).
Proof.
  assert (E : exists w', send_historical_data_request ask_100_call [] opt_world
                         = Ok (w', []))
    by (eexists; vm_compute; reflexivity).
  destruct E as [w' E]. exists w'.
  assert (Hk : kind (app opt_world) <> FX) by discriminate.
  destruct (send_then_end_restores ask_100_call [] opt_world w' [] Hk E)
    as (id & a'' & _ & He & Hreg & Ho & _).
  exists id, a''. repeat split; assumption.
Defined.

(** X8: end-of-stream events for distinct tracked ids, in any order, take
    as many entries out of the registry and as much off the counter as
    there are ids; so a counter that equalled the size of the registry
    still does. *)
Theorem completions_count (ids : list Z) :
  forall a a',
    NoDup ids ->
    Forall (fun id => In id (dict_keys (req_id_to_contract a))) ids ->
    complete_all ids a = Ok a' ->
    open_requests a' = open_requests a - Z.of_nat (length ids) /\
    length (req_id_to_contract a)
    = (length (req_id_to_contract a') + length ids)%nat /\
    (open_requests a = Z.of_nat (length (req_id_to_contract a)) ->
     open_requests a' = Z.of_nat (length (req_id_to_contract a'))).
Proof.
  induction ids as [| id ids IH]; simpl; intros a a' Hnd Hin H.
  - injection H as <-. repeat split; lia.
  - inv_bind H. inversion Hnd as [| ? ? Hid Hnd']; subst.
    inversion Hin as [| ? ? Hi Hin']; subst.
    assert (Hm : dict_mem Z.eqb (req_id_to_contract a) id = true).
    { unfold dict_mem. apply dict_get_In_keys in Hi. destruct Hi as [v ->].
      reflexivity. }
    destruct (historicalDataEnd_tracked _ _ _ Hm Ha) as [Ho [Hl Hd]].
    assert (Hin0 : Forall (fun i => In i (dict_keys (req_id_to_contract a0))) ids).
    { apply Forall_forall. intros i Hi'. rewrite Forall_forall in Hin'.
      eapply dict_del_other_key; [exact Hd | apply Hin', Hi' |].
      intros ->. contradiction. }
    destruct (IH a0 a' Hnd' Hin0 H) as [Ho' [Hl' _]].
    repeat split; lia.
Qed.

Lemma completions_count_witness :
  exists a',
    complete_all [12; 10] opt_three = Ok a' /\
    open_requests a' = open_requests opt_three - 2.
Proof.
  assert (E : exists a', complete_all [12; 10] opt_three = Ok a')
    by (eexists; vm_compute; reflexivity).
  destruct E as [a' E]. exists a'. split; [exact E |].
  refine (proj1 (completions_count [12; 10] opt_three a' _ _ E)).
  - repeat constructor; simpl; intuition lia.
  - assert (K : dict_keys (req_id_to_contract opt_three) = [10; 11; 12])
      by (vm_compute; reflexivity).
    rewrite K. apply Forall_forall. intros i Hi. simpl in *. intuition lia.
Defined.

(** ** Provider errors *)


(** X9: the error callback never removes a registry entry and never
    touches the chain, the queue of times or the output; it changes the
    state only for code 162 with the text "HMDS query returned no data" on
    a tracked request, and then it takes one off the counter and queues
    the side of the request's contract under its strike. For code 162 on a
    tracked request a message without a colon raises [IndexError]. *)
Theorem error_effect (a : IBapi) (id code : Z) (msg : string) :
  (forall a',
      error a id code msg = Ok a' ->
      req_id_to_contract a' = req_id_to_contract a /\
      chain a' = chain a /\
      sent_time_queue a' = sent_time_queue a /\
      output_file a' = output_file a /\
      (a' = a \/
       code = 162 /\
       exists e r,
         dict_get Z.eqb (req_id_to_contract a) id = Some e /\
         entry_data_request e = Ok r /\
         idx (split ":" msg) 1 = Ok "HMDS query returned no data" /\
         open_requests a' = open_requests a - 1 /\
         contracts_to_delete a'
         = queue_removal (contracts_to_delete a) (strike (contract r))
             (right (contract r)))) /\
  (forall e r,
      dict_get Z.eqb (req_id_to_contract a) id = Some e ->
      entry_data_request e = Ok r ->
      code = 162 -> has_char ":" msg = false ->
      error a id code msg = Raise IndexError).
Proof.
  split.
  - intros a' H. unfold error in H.
    destruct (String.eqb (mode a) "historical" && existsb (Z.eqb code) ignored_codes).
    { injection H as <-. repeat split; auto. }
    destruct (dict_get Z.eqb (req_id_to_contract a) id) as [e |] eqn:He.
    2: { injection H as <-. repeat split; auto. }
    inv_bind H. rename a0 into r.
    destruct (Z.eqb_spec code 162) as [-> | Hc].
    2: { injection H as <-. repeat split; auto. }
    inv_bind H.
    destruct (String.eqb_spec a0 "HMDS query returned no data") as [-> | Hs].
    2: { injection H as <-. repeat split; auto. }
    injection H as <-. simpl. repeat split. right. split; [reflexivity |].
    exists e, r. repeat split; assumption.
  - intros e r He Hr -> Hm. unfold error.
    replace (existsb (Z.eqb 162) ignored_codes) with false by reflexivity.
    rewrite andb_false_r, He. simpl. rewrite Hr. simpl.
    rewrite (split_no_sep ":" msg Hm). reflexivity.
Qed.

Lemma error_effect_witness :
  error opt_tracked 10 162 "no data" = Raise IndexError.
Proof.
  refine (proj2 (error_effect opt_tracked 10 162 "no data")
            (entry_of_request "OPT" (with_req_id ask_100_call 10) 0)
            (with_req_id ask_100_call 10) _ _ _ _); reflexivity.
Defined.




(** ** More on the pacing gate *)

Lemma td_seconds_range (d : Z) : 0 <= td_seconds d < 86400.
Proof. unfold td_seconds. apply Z.mod_pos_bound. lia. Qed.

Lemma td_seconds_day (d : Z) : td_seconds (d + usec_per_day) = td_seconds d.
Proof.
  unfold td_seconds, usec_per_day, usec_per_hour, usec_per_min, usec_per_sec.
  replace (d + 24 * (60 * (60 * 1000000))) with (d + 86400 * 1000000) by lia.
  rewrite Z.div_add by lia.
  rewrite <- Zplus_mod_idemp_r, Z.mod_same by lia.
  f_equal. lia.
Qed.

(** X11: a time in the queue counts as older than the window exactly when
    the seconds of its age, days left out, exceed 600; so a time that is a
    whole number of days older than another is judged like it, and one
    sent exactly a day ago counts as fresh. *)
Theorem older_than_window_seconds (now_ sent : Z) :
  (older_than_window now_ sent = true <-> 600 < td_seconds (now_ - sent)) /\
  older_than_window (now_ + usec_per_day) sent = older_than_window now_ sent /\
  older_than_window (sent + usec_per_day) sent = false.
Proof.
  assert (Hiff : forall n s,
             older_than_window n s = true <-> 600 < td_seconds (n - s)).
  { intros n s. unfold older_than_window. rewrite Qlt_bool_iff.
    set (x := td_seconds (n - s)). split.
    - intros H. apply Znot_ge_lt. intros Hge.
      assert (Hq : (inject_Z x <= inject_Z 600)%Q)
        by (rewrite <- Zle_Qle; lia).
      apply (Qlt_not_le _ _ H). apply Qle_shift_div_r; [reflexivity |].
      exact Hq.
    - intros H. apply Qlt_shift_div_l; [reflexivity |].
      rewrite Zlt_Qlt in H. exact H. }
  assert (Hday : forall n s,
             older_than_window (n + usec_per_day) s = older_than_window n s).
  { intros n s.
    destruct (older_than_window n s) eqn:E.
    - apply Hiff. apply Hiff in E.
      replace (n + usec_per_day - s) with (n - s + usec_per_day) by lia.
      now rewrite td_seconds_day.
    - destruct (older_than_window (n + usec_per_day) s) eqn:E'; [| reflexivity].
      apply Hiff in E'.
      replace (n + usec_per_day - s) with (n - s + usec_per_day) in E' by lia.
      rewrite td_seconds_day in E'. apply Hiff in E'. congruence. }
  split; [apply Hiff |]. split; [apply Hday |].
  rewrite Hday. destruct (older_than_window sent sent) eqn:E; [| reflexivity].
  apply Hiff in E. replace (sent - sent) with 0 in E by lia.
  vm_compute in E. discriminate E.
Qed.

Lemma evict_oldest_queue (w : World) :
  sent_time_queue (app (evict_oldest w)) = sent_time_queue (app w)
  \/ sent_time_queue (app (evict_oldest w)) = skipn 1 (sent_time_queue (app w)).
Proof.
  unfold evict_oldest. destruct (sent_time_queue (app w)) as [| t0 q] eqn:E;
    [left; exact E |].
  destruct (older_than_window (now w) t0); [right | left]; simpl; auto.
Qed.

Lemma skipn_skipn_1 {A : Type} (n : nat) (l : list A) :
  skipn n (skipn 1 l) = skipn (S n) l.
Proof. destruct l; [now rewrite !skipn_nil | reflexivity]. Qed.

Lemma window_loop_suffix (sched : list tick) :
  forall w w' s',
    window_loop sched w = Ok (w', s') ->
    exists n,
      sent_time_queue (app w') = skipn n (sent_time_queue (app w)) /\
      ((58 < length (sent_time_queue (app w)))%nat ->
       length (sent_time_queue (app w')) = 58%nat) /\
      ((length (sent_time_queue (app w)) <= 58)%nat -> n = 0%nat).
Proof.
  induction sched as [| t sched IH]; simpl; intros w w' s' H.
  - destruct (58 <? Z.of_nat (length (sent_time_queue (app w)))) eqn:E;
      [discriminate |].
    injection H as <- <-. apply Z.ltb_ge in E. exists 0%nat.
    split; [reflexivity |]. split; [lia | reflexivity].
  - destruct (58 <? Z.of_nat (length (sent_time_queue (app w)))) eqn:E.
    + apply Z.ltb_lt in E. destruct (IH _ _ _ H) as (n & Hq & Hgt & Hle).
      rewrite pass_queue in Hq, Hgt, Hle.
      destruct (evict_oldest_queue w) as [Ev | Ev]; rewrite Ev in Hq, Hgt, Hle.
      * exists n. split; [exact Hq |]. split; [exact Hgt | lia].
      * rewrite skipn_skipn_1 in Hq. exists (S n). split; [exact Hq |].
        split; [| lia]. intros _.
        rewrite length_skipn in Hgt, Hle.
        destruct (Nat.le_gt_cases (length (sent_time_queue (app w)) - 1) 58)
          as [Hsmall | Hbig].
        -- specialize (Hle Hsmall). subst n.
           rewrite Hq. rewrite length_skipn. lia.
        -- apply Hgt. lia.
    + injection H as <- <-. apply Z.ltb_ge in E. exists 0%nat.
      split; [reflexivity |]. split; [lia | reflexivity].
Qed.

(** X12: the gate never raises; when the connection is up, the queue holds
    at most 58 times and at most 49 requests are outstanding it returns at
    once, with the state and the schedule untouched; and whenever it
    returns, the queue is what is left of the old queue after dropping
    some of its oldest times: none if the queue held at most 58, and
    otherwise just enough for 58 to remain. *)
Theorem check_pacing_violations_behaviour (sched : list tick) (w : World) :
  (forall e, check_pacing_violations sched w <> Raise e) /\
  (connected (app w) = true ->
   (length (sent_time_queue (app w)) <= 58)%nat ->
   open_requests (app w) <= 49 ->
   check_pacing_violations sched w = Ok (w, sched)) /\
  (forall w' s',
      check_pacing_violations sched w = Ok (w', s') ->
      exists n,
        sent_time_queue (app w') = skipn n (sent_time_queue (app w)) /\
        ((58 < length (sent_time_queue (app w)))%nat ->
         length (sent_time_queue (app w')) = 58%nat) /\
        ((length (sent_time_queue (app w)) <= 58)%nat -> n = 0%nat)).
Proof.
  split; [| split].
  - intros e. apply check_pacing_violations_never_raises.
  - intros Hc Hq Ho. unfold check_pacing_violations.
    assert (E1 : wait_connected sched w = Ok (w, sched))
      by (destruct sched; simpl; rewrite Hc; reflexivity).
    assert (E2 : window_loop sched w = Ok (w, sched)).
    { assert (E : (58 <? Z.of_nat (length (sent_time_queue (app w)))) = false)
        by (apply Z.ltb_ge; lia).
      destruct sched; simpl; rewrite E; reflexivity. }
    assert (E3 : open_loop sched w = Ok (w, sched)).
    { assert (E : (49 <? open_requests (app w)) = false) by (apply Z.ltb_ge; lia).
      destruct sched; simpl; rewrite E; reflexivity. }
    rewrite E1. simpl. rewrite E2. simpl. exact E3.
  - intros w' s' H. unfold check_pacing_violations in H.
    inv_bind H. destruct a as [w1 s1]. inv_bind H. destruct a as [w2 s2].
    destruct (wait_connected_spec _ _ _ _ Ha) as [_ [Hq1 _]].
    destruct (window_loop_suffix _ _ _ _ Ha0) as (n & Hq & Hgt & Hle).
    destruct (open_loop_spec _ _ _ _ H) as [_ Hq3].
    exists n. rewrite Hq3, <- Hq1. auto.
Qed.

Lemma check_pacing_violations_behaviour_witness :
  check_pacing_violations burst_schedule opt_world = Ok (opt_world, burst_schedule).
Proof.
  apply (proj1 (proj2 (check_pacing_violations_behaviour burst_schedule opt_world)));
    [reflexivity | simpl; lia | simpl; lia].
Defined.

(** ** More on correlation ids *)

(** X13: the search for an id is still going on at the end of the draws
    exactly when every draw fell on an id in use; it never raises; and the
    id it returns comes from the first draw that is free. *)
Theorem get_req_id_first_free (used : list Z) (rng : list Z) :
  (get_req_id used rng = Pending
   <-> Forall (fun raw => In (randint 10 99999 raw) used) rng) /\
  (forall e, get_req_id used rng <> Raise e) /\
  (forall id rng',
      get_req_id used rng = Ok (id, rng') ->
      exists taken raw,
        rng = taken ++ raw :: rng' /\
        id = randint 10 99999 raw /\
        Forall (fun raw' => In (randint 10 99999 raw') used) taken).
Proof.
  induction rng as [| raw rng [IH1 [IH2 IH3]]]; simpl.
  - split; [split; auto |]. split; [discriminate | discriminate].
  - destruct (existsb (Z.eqb (randint 10 99999 raw)) used) eqn:E.
    + apply existsb_eqb_In in E. split; [| split].
      * rewrite IH1. split; [intros H; constructor; assumption |].
        intros H. inversion H; assumption.
      * exact IH2.
      * intros id rng' H. destruct (IH3 _ _ H) as (taken & raw' & -> & Hid & Ht).
        exists (raw :: taken), raw'. repeat split; auto.
    + assert (Hn : ~ In (randint 10 99999 raw) used).
      { intros Hin. apply existsb_eqb_In in Hin. congruence. }
      split; [| split].
      * split; [discriminate |]. intros H. inversion H; contradiction.
      * discriminate.
      * intros id rng' H. injection H as <- <-.
        exists [], raw. repeat split; constructor.
Qed.

(** ** The response thread *)

(** X14: whatever events the response thread handles, it leaves the queue
    of times, the wire and the kind of the application as they are, adds
    no id to the registry and never raises the counter of outstanding
    requests. *)
Theorem response_thread_never_admits (evs : list event) (a : IBapi) :
  sent_time_queue (api_thread evs a) = sent_time_queue a /\
  wire (api_thread evs a) = wire a /\
  kind (api_thread evs a) = kind a /\
  incl (dict_keys (req_id_to_contract (api_thread evs a)))
    (dict_keys (req_id_to_contract a)) /\
  open_requests (api_thread evs a) <= open_requests a.
Proof.
  destruct (api_thread_frame evs a). repeat split; assumption.
Qed.

(** ** Sessions the walk does not fit *)

Lemma walk_back_zero (fuel : nat) (start tmp : Z) :
  start < tmp -> walk_back fuel 0 start tmp = Pending.
Proof.
  intros H. assert (E : (start <? tmp - timedelta_minutes 0) = true)
    by (apply Z.ltb_lt; unfold timedelta_minutes; lia).
  induction fuel as [| fuel IH]; simpl; rewrite E; [reflexivity |].
  replace (tmp - timedelta_minutes 0) with tmp
    by (unfold timedelta_minutes; lia).
  exact IH.
Qed.

Lemma td_seconds_minutes_back (g : Z) :
  0 < g < 1440 -> td_seconds (timedelta_minutes (- g)) / 60 = 1440 - g.
Proof.
  intros Hg. unfold td_seconds, timedelta_minutes, usec_per_min, usec_per_sec.
  replace (- g * (60 * 1000000)) with (- g * 60 * 1000000) by lia.
  rewrite Z.div_mul by lia.
  replace (- g * 60) with ((1440 - g) * 60 + (-1) * 86400) by lia.
  rewrite Z.mod_add by lia. rewrite Z.mod_small by lia.
  apply Z.div_mul. lia.
Qed.

(** X15: with an interval of zero minutes and a session that starts
    before it ends, the walk back from session close never ends, whatever
    the fuel; and when the session start is later in the day than its end,
    no step is walked and the first span is the minutes from start to end
    counted round midnight: 1440 less the minutes by which start exceeds
    end. *)
Theorem get_times_and_interval_edges (fuel : nat) (st en date ri : Z) :
  (ri = 0 ->
   dt_hour st * 60 + dt_minute st < dt_hour en * 60 + dt_minute en ->
   get_times_and_interval fuel st en date ri = Pending) /\
  (0 <= ri ->
   dt_hour en * 60 + dt_minute en < dt_hour st * 60 + dt_minute st ->
   get_times_and_interval fuel st en date ri
   = Ok (dt_replace_hm date (dt_hour en) (dt_minute en) + timedelta_minutes 5,
         1440 - (dt_hour st * 60 + dt_minute st
                 - (dt_hour en * 60 + dt_minute en)),
         dt_replace_hm date (dt_hour en) (dt_minute en))).
Proof.
  pose proof (dt_hour_range st) as Hsh. pose proof (dt_minute_range st) as Hsm.
  pose proof (dt_hour_range en) as Heh. pose proof (dt_minute_range en) as Hem.
  pose proof (dt_replace_hm_diff date (dt_hour st) (dt_minute st)
                (dt_hour en) (dt_minute en)) as Hd.
  assert (Hmin : 0 < usec_per_min) by (unfold usec_per_min, usec_per_sec; lia).
  split.
  - intros -> Hlt. unfold get_times_and_interval.
    rewrite walk_back_zero; [reflexivity |].
    unfold timedelta_minutes in Hd. nia.
  - intros Hri Hlt. unfold get_times_and_interval.
    set (close := dt_replace_hm date (dt_hour en) (dt_minute en)) in *.
    set (start := dt_replace_hm date (dt_hour st) (dt_minute st)) in *.
    assert (E : (start <? close - timedelta_minutes ri) = false).
    { apply Z.ltb_ge. unfold timedelta_minutes in *. nia. }
    assert (W : walk_back fuel ri start close = Ok close)
      by (destruct fuel; simpl; rewrite E; reflexivity).
    rewrite W. simpl. rewrite Hd.
    replace (dt_hour en * 60 + dt_minute en - (dt_hour st * 60 + dt_minute st))
      with (- (dt_hour st * 60 + dt_minute st - (dt_hour en * 60 + dt_minute en)))
      by lia.
    rewrite td_seconds_minutes_back by lia. reflexivity.
Qed.

Lemma get_times_and_interval_edges_witness :
  get_times_and_interval 3 (at_hm 9 30) (at_hm 16 0) sample_date 0 = Pending /\
  get_times_and_interval 3 (at_hm 16 0) (at_hm 9 30) sample_date 60
  = Ok (sample_date + at_hm 9 35, 1050, sample_date + at_hm 9 30).
Proof.
  split.
  - apply (proj1 (get_times_and_interval_edges 3 (at_hm 9 30) (at_hm 16 0)
                    sample_date 0)); [reflexivity | vm_compute; reflexivity].
  - refine (eq_trans
              (proj2 (get_times_and_interval_edges 3 (at_hm 16 0) (at_hm 9 30)
                        sample_date 60) _ _) _);
      [lia | vm_compute; reflexivity | vm_compute; reflexivity].
Defined.

(** ** The last wait *)

Lemma drain_spec (sched : list tick) :
  forall w w' s',
    drain sched w = Ok (w', s') -> open_requests (app w') <= 0.
Proof.
  induction sched as [| t sched IH]; simpl; intros w w' s' H.
  - destruct (0 <? open_requests (app w)) eqn:E; [discriminate |].
    injection H as <- <-. apply Z.ltb_ge in E. exact E.
  - destruct (0 <? open_requests (app w)) eqn:E; [eapply IH; eassumption |].
    injection H as <- <-. apply Z.ltb_ge in E. exact E.
Qed.

Lemma dispatch_keeps_count (a a' : IBapi) (ev : event) :
  completes ev = false ->
  dispatch a ev = Ok a' -> open_requests a' = open_requests a.
Proof.
  destruct ev as [id bar | id | id k | id | id code msg]; simpl; intros Hc H;
    try discriminate.
  - unfold historicalData, OPT_historicalData, STK_historicalData,
      FX_historicalData in H.
    destruct (kind a); crush_outcome H; try reflexivity;
      match goal with
      | Hw : write_to_file _ _ = Ok _ |- _ =>
          unfold write_to_file in Hw; crush_outcome Hw; reflexivity
      end.
  - unfold contractDetails in H. crush_outcome H; reflexivity.
  - unfold contractDetailsEnd in H. crush_outcome H; reflexivity.
  - unfold error in H. rewrite Hc in H. crush_outcome H; reflexivity.
Qed.

Lemma api_thread_keeps_count (evs : list event) :
  forall a,
    forallb (fun ev => negb (completes ev)) evs = true ->
    open_requests (api_thread evs a) = open_requests a.
Proof.
  induction evs as [| ev evs IH]; simpl; intros a H; [reflexivity |].
  apply andb_prop in H. destruct H as [Hev Hevs].
  apply negb_true_iff in Hev.
  destruct (connected a); [| reflexivity].
  destruct (dispatch a ev) as [a' | e |] eqn:E; try reflexivity.
  rewrite (IH a' Hevs). eapply dispatch_keeps_count; eassumption.
Qed.

Lemma drain_waits (sched : list tick) :
  forall w,
    0 < open_requests (app w) -> no_completions sched -> drain sched w = Pending.
Proof.
  induction sched as [| t sched IH]; simpl; intros w Ho Hs;
    assert (E : (0 <? open_requests (app w)) = true) by (apply Z.ltb_lt; lia);
    rewrite E; [reflexivity |].
  inversion Hs as [| ? ? Ht Hrest]; subst. apply IH; [| exact Hrest].
  simpl. rewrite (api_thread_keeps_count _ _ Ht). exact Ho.
Qed.

(** ** The calls of a day *)

Lemma pass_line (t : tick) (w : World) :
  kind (app (pass t w)) = kind (app w) /\ wire (app (pass t w)) = wire (app w).
Proof.
  simpl. split;
    [apply (frame_kind _ _ (api_thread_frame _ _))
    | apply (frame_wire _ _ (api_thread_frame _ _))].
Qed.

Lemma evict_oldest_line (w : World) :
  kind (app (evict_oldest w)) = kind (app w) /\
  wire (app (evict_oldest w)) = wire (app w).
Proof.
  unfold evict_oldest. destruct (sent_time_queue (app w)); [auto |].
  destruct (older_than_window (now w) z); auto.
Qed.

Lemma wait_connected_line (sched : list tick) :
  forall w w' s',
    wait_connected sched w = Ok (w', s') ->
    kind (app w') = kind (app w) /\ wire (app w') = wire (app w).
Proof.
  induction sched as [| t sched IH]; simpl; intros w w' s' H;
    destruct (connected (app w)); try discriminate;
    try (injection H as <- <-; auto; fail).
  destruct (IH _ _ _ H) as [Hk Hw]. destruct (pass_line t w) as [Hk' Hw'].
  split; congruence.
Qed.

Lemma window_loop_line (sched : list tick) :
  forall w w' s',
    window_loop sched w = Ok (w', s') ->
    kind (app w') = kind (app w) /\ wire (app w') = wire (app w).
Proof.
  induction sched as [| t sched IH]; simpl; intros w w' s' H;
    destruct (58 <? Z.of_nat (length (sent_time_queue (app w))));
    try discriminate; try (injection H as <- <-; auto; fail).
  destruct (IH _ _ _ H) as [Hk Hw].
  destruct (pass_line t (evict_oldest w)) as [Hk' Hw'].
  destruct (evict_oldest_line w) as [Hk'' Hw''].
  split; congruence.
Qed.

Lemma open_loop_line (sched : list tick) :
  forall w w' s',
    open_loop sched w = Ok (w', s') ->
    kind (app w') = kind (app w) /\ wire (app w') = wire (app w).
Proof.
  induction sched as [| t sched IH]; simpl; intros w w' s' H;
    destruct (49 <? open_requests (app w));
    try discriminate; try (injection H as <- <-; auto; fail).
  destruct (IH _ _ _ H) as [Hk Hw]. destruct (pass_line t w) as [Hk' Hw'].
  split; congruence.
Qed.

Lemma drain_line (sched : list tick) :
  forall w w' s',
    drain sched w = Ok (w', s') ->
    kind (app w') = kind (app w) /\ wire (app w') = wire (app w).
Proof.
  induction sched as [| t sched IH]; simpl; intros w w' s' H;
    destruct (0 <? open_requests (app w));
    try discriminate; try (injection H as <- <-; auto; fail).
  destruct (IH _ _ _ H) as [Hk Hw]. destruct (pass_line t w) as [Hk' Hw'].
  split; congruence.
Qed.

Lemma check_pacing_violations_line (sched : list tick) (w w' : World)
  (s' : list tick) :
  check_pacing_violations sched w = Ok (w', s') ->
  kind (app w') = kind (app w) /\ wire (app w') = wire (app w).
Proof.
  unfold check_pacing_violations. intros H.
  inv_bind H. destruct a as [w1 s1]. inv_bind H. destruct a as [w2 s2].
  destruct (wait_connected_line _ _ _ _ Ha) as [K1 W1].
  destruct (window_loop_line _ _ _ _ Ha0) as [K2 W2].
  destruct (open_loop_line _ _ _ _ H) as [K3 W3].
  split; congruence.
Qed.

Lemma send_line (r : DataRequest) (sched : list tick) (w w' : World)
  (s' : list tick) :
  send_historical_data_request r sched w = Ok (w', s') ->
  kind (app w') = kind (app w) /\
  exists id,
    10 <= id <= 99999 /\
    wire (app w') = wire (app w) ++ [historical_call id r].
Proof.
  unfold send_historical_data_request. intros H.
  destruct (kind (app w)) eqn:Ek.
  1, 2:
    inv_bind H; injection H as <- <-;
    destruct (tracked_send_spec _ _ _ _ Ha)
      as (id & Hr & _ & _ & Hw & _ & _ & Hk & _);
    split; [congruence |]; exists id; split; [exact Hr | exact Hw].
  unfold FX_send_historical_data_request in H. inv_bind H.
  destruct a as [id rng']. apply get_req_id_spec in Ha.
  destruct Ha as [Hr _].
  destruct sched as [| t rest]; simpl in H; [discriminate |].
  injection H as <- <-.
  match goal with
  | |- context [pass ?t0 ?w0] => destruct (pass_line t0 w0) as [Kp Wp]
  end.
  split; [rewrite Kp; simpl; exact Ek |].
  exists id. split; [exact Hr |]. rewrite Wp. reflexivity.
Qed.

Lemma remove_contracts_line (a a' : IBapi) :
  remove_contracts a = Ok a' -> kind a' = kind a /\ wire a' = wire a.
Proof.
  unfold remove_contracts. intros H.
  destruct (contracts_to_delete a); [injection H as <-; auto |].
  crush_outcome H. auto.
Qed.

Lemma get_wanted_contracts_by_kind (a a' : IBapi) (asset : string) :
  kind a' = kind a -> kind a <> OPT ->
  get_wanted_contracts a' asset = get_wanted_contracts a asset.
Proof.
  unfold get_wanted_contracts. intros -> Hk.
  destruct (kind a); [contradiction | reflexivity | reflexivity].
Qed.

Lemma request_bucket_line (asset : string) (k : Contract) (qt sz : Z)
  (st st' : World * list tick) :
  kind (app (fst st)) <> OPT ->
  get_wanted_contracts (app (fst st)) asset = Ok [k] ->
  request_bucket asset qt sz st = Ok st' ->
  kind (app (fst st')) = kind (app (fst st)) /\
  exists calls,
    wire (app (fst st')) = wire (app (fst st)) ++ calls /\
    Forall2 (asks_for k) calls [(qt, sz, "ASK"); (qt, sz, "BID")].
Proof.
  unfold request_bucket. intros Hk Hwant H.
  inv_bind H. inv_bind H.
  destruct (remove_contracts_line _ _ Ha) as [K0 W0].
  rewrite (get_wanted_contracts_by_kind _ _ asset K0 Hk), Hwant in Ha0.
  injection Ha0 as <-.
  simpl in H.
  destruct (check_pacing_violations (snd st) (with_app a (fst st)))
    as [[w1 s1] | |] eqn:G1; try discriminate. simpl in H.
  destruct (send_historical_data_request (DataRequest_new k qt sz "ASK") s1 w1)
    as [[w2 s2] | |] eqn:S1; try discriminate. simpl in H.
  destruct (check_pacing_violations s2 w2)
    as [[w3 s3] | |] eqn:G2; try discriminate. simpl in H.
  destruct (send_historical_data_request (DataRequest_new k qt sz "BID") s3 w3)
    as [[w4 s4] | |] eqn:S2; try discriminate. simpl in H.
  injection H as <-. simpl.
  destruct (check_pacing_violations_line _ _ _ _ G1) as [K1 W1].
  destruct (send_line _ _ _ _ _ S1) as [K2 (id1 & R1 & W2)].
  destruct (check_pacing_violations_line _ _ _ _ G2) as [K3 W3].
  destruct (send_line _ _ _ _ _ S2) as [K4 (id2 & R2 & W4)].
  simpl in K1, W1.
  split; [congruence |].
  exists [historical_call id1 (DataRequest_new k qt sz "ASK");
          historical_call id2 (DataRequest_new k qt sz "BID")].
  split.
  - rewrite W4, W3, W2, W1, W0, <- app_assoc. reflexivity.
  - repeat constructor; [exists id1 | exists id2]; split; auto.
Qed.

Lemma run_buckets_line (asset : string) (k : Contract) (buckets : list (Z * Z)) :
  forall st st',
    kind (app (fst st)) <> OPT ->
    get_wanted_contracts (app (fst st)) asset = Ok [k] ->
    run_buckets (request_bucket asset) buckets st = Ok st' ->
    kind (app (fst st')) = kind (app (fst st)) /\
    exists calls,
      wire (app (fst st')) = wire (app (fst st)) ++ calls /\
      Forall2 (asks_for k) calls (bucket_queries buckets).
Proof.
  induction buckets as [| [qt sz] buckets IH]; simpl; intros st st' Hk Hwant H.
  - injection H as <-. split; [reflexivity |]. exists [].
    rewrite app_nil_r. split; [reflexivity | constructor].
  - inv_bind H.
    destruct (request_bucket_line _ _ _ _ _ _ Hk Hwant Ha) as [K1 (c1 & W1 & F1)].
    assert (Hk1 : kind (app (fst a)) <> OPT) by congruence.
    assert (Hwant1 : get_wanted_contracts (app (fst a)) asset = Ok [k])
      by (rewrite (get_wanted_contracts_by_kind _ _ asset K1 Hk); exact Hwant).
    destruct (IH _ _ Hk1 Hwant1 H) as [K2 (c2 & W2 & F2)].
    split; [congruence |]. exists (c1 ++ c2). split.
    + rewrite W2, W1, <- app_assoc. reflexivity.
    + inversion F1 as [| ? ? ? ? A1 F1']; subst.
      inversion F1' as [| ? ? ? ? A2 F1'']; subst.
      inversion F1''; subst. simpl. constructor; [exact A1 |].
      constructor; [exact A2 | exact F2].
Qed.

Lemma bucket_loop_lists {S : Type} (body : Z -> Z -> S -> outcome S) (fuel : nat) :
  forall (ri end' q sz : Z) (s s' : S) (acc : list (Z * Z)),
    bucket_loop body fuel ri end' q sz s = Ok s' ->
    exists buckets,
      bucket_loop (fun qt sz acc => Ok (acc ++ [(qt, sz)])) fuel ri end' q sz acc
      = Ok (acc ++ buckets) /\
      run_buckets body buckets s = Ok s'.
Proof.
  induction fuel as [| fuel IH]; simpl; intros ri end' q sz s s' acc H.
  - destruct (q <? end'); [discriminate |]. injection H as <-.
    exists []. rewrite app_nil_r. split; reflexivity.
  - destruct (q <? end').
    + inv_bind H.
      destruct (IH _ _ _ _ _ _ (acc ++ [(q, sz)]) H) as (buckets & Hl & Hr).
      exists ((q, sz) :: buckets). split.
      * rewrite Hl, <- app_assoc. reflexivity.
      * simpl. rewrite Ha. exact Hr.
    + injection H as <-. exists []. rewrite app_nil_r. split; reflexivity.
Qed.

(** ** Filling and closing the chain *)

Lemma dict_get_In_values {K V : Type} (eqb : K -> K -> bool) (d : list (K * V))
  (k : K) (v : V) :
  dict_get eqb d k = Some v -> In v (dict_values d).
Proof.
  induction d as [| [k0 v0] d IH]; simpl; [discriminate |].
  destruct (eqb k0 k); [intros H; injection H as <-; now left |].
  intros H. right. apply IH, H.
Qed.

(** X18: while the chain still takes new strikes, the details of a
    contract that arrive under the reserved id are filed under the
    contract's strike and right, where a lookup finds them; the other
    strikes and the other rights of the same strike are as before; and for
    the option variant the contract is then among the wanted contracts. *)
Theorem contractDetails_records (a : IBapi) (c : option_chain_data) (k : Contract) :
  chain a = Some c ->
  all_contracts_is_defaultdict c = true ->
  exists a' c' sides,
    contractDetails a ALL_OPTION_CONTRACTS_DETAILS_REQ_ID k = Ok a' /\
    chain a' = Some c' /\
    dict_get Qeq_bool (all_contracts c') (strike k) = Some sides /\
    dict_get String.eqb sides (right k) = Some k /\
    (forall x, Qeq_bool (strike k) x = false ->
               dict_get Qeq_bool (all_contracts c') x
               = dict_get Qeq_bool (all_contracts c) x) /\
    (forall sides0 r,
        dict_get Qeq_bool (all_contracts c) (strike k) = Some sides0 ->
        String.eqb (right k) r = false ->
        dict_get String.eqb sides r = dict_get String.eqb sides0 r) /\
    (kind a = OPT ->
     forall asset, exists l, get_wanted_contracts a' asset = Ok l /\ In k l).
Proof.
  intros Hc Hd. unfold contractDetails. rewrite Z.eqb_refl, Hc. simpl.
  unfold chain_record. rewrite Hd.
  assert (Hset : forall (d : list (Q * side_map)) (v : side_map) x,
             dict_get Qeq_bool (dict_set Qeq_bool d (strike k) v) x
             = if Qeq_bool (strike k) x then Some v else dict_get Qeq_bool d x)
    by (intros; apply (dict_get_set_eqb Qeq_bool Qeq_bool_sym Qeq_bool_trans)).
  assert (Hside : forall (m : side_map) r,
             dict_get String.eqb (dict_set String.eqb m (right k) k) r
             = if String.eqb (right k) r then Some k else dict_get String.eqb m r)
    by (intros; apply (dict_get_set_eqb String.eqb String.eqb_sym String_eqb_trans)).
  assert (Hwanted : forall all sides,
             dict_get Qeq_bool all (strike k) = Some sides ->
             dict_get String.eqb sides (right k) = Some k ->
             In k (concat (map (fun s : side_map => dict_values s)
                             (dict_values all)))).
  { intros all sides H1 H2. apply in_concat.
    exists (dict_values sides). split.
    - apply (in_map (fun s : side_map => dict_values s)).
      eapply dict_get_In_values; eassumption.
    - eapply dict_get_In_values; eassumption. }
  destruct (dict_get Qeq_bool (all_contracts c) (strike k)) as [sides0 |] eqn:E;
    simpl.
  - eexists. eexists. exists (dict_set String.eqb sides0 (right k) k).
    split; [reflexivity |]. split; [reflexivity |]. simpl.
    assert (G1 : dict_get Qeq_bool
                   (dict_set Qeq_bool (all_contracts c) (strike k)
                      (dict_set String.eqb sides0 (right k) k)) (strike k)
                 = Some (dict_set String.eqb sides0 (right k) k))
      by (rewrite Hset, Qeq_bool_refl; reflexivity).
    assert (G2 : dict_get String.eqb (dict_set String.eqb sides0 (right k) k)
                   (right k) = Some k)
      by (rewrite Hside, String.eqb_refl; reflexivity).
    repeat split.
    + exact G1.
    + exact G2.
    + intros x Hx. rewrite Hset, Hx. reflexivity.
    + intros s0 r Hs Hr. injection Hs as <-. rewrite Hside, Hr. reflexivity.
    + intros Hk asset. unfold get_wanted_contracts. simpl. rewrite Hk. simpl.
      eexists. split; [reflexivity |]. eapply Hwanted; eassumption.
  - eexists. eexists. exists [(right k, k)].
    split; [reflexivity |]. split; [reflexivity |]. simpl.
    assert (G1 : dict_get Qeq_bool
                   (dict_set Qeq_bool (all_contracts c) (strike k)
                      [(right k, k)]) (strike k)
                 = Some [(right k, k)])
      by (rewrite Hset, Qeq_bool_refl; reflexivity).
    assert (G2 : dict_get String.eqb [(right k, k)] (right k) = Some k)
      by (simpl; rewrite String.eqb_refl; reflexivity).
    repeat split.
    + exact G1.
    + exact G2.
    + intros x Hx. rewrite Hset, Hx. reflexivity.
    + intros s0 r Hs. discriminate Hs.
    + intros Hk asset. unfold get_wanted_contracts. simpl. rewrite Hk. simpl.
      eexists. split; [reflexivity |]. eapply Hwanted; eassumption.
Qed.

Lemma contractDetails_records_witness :
  exists a' c' sides,
    contractDetails opt_discovering ALL_OPTION_CONTRACTS_DETAILS_REQ_ID
      (spy_option 100 "C") = Ok a' /\
    chain a' = Some c' /\
    dict_get Qeq_bool (all_contracts c') 100%Q = Some sides /\
    dict_get String.eqb sides "C" = Some (spy_option 100 "C") /\
    (forall x, Qeq_bool 100 x = false ->
               dict_get Qeq_bool (all_contracts c') x
               = dict_get Qeq_bool (all_contracts (option_chain_data_new "SPY")) x) /\
    (forall sides0 r,
        dict_get Qeq_bool (all_contracts (option_chain_data_new "SPY")) 100%Q
        = Some sides0 ->
        String.eqb "C" r = false ->
        dict_get String.eqb sides r = dict_get String.eqb sides0 r) /\
    (kind opt_discovering = OPT ->
     forall asset, exists l,
         get_wanted_contracts a' asset = Ok l /\ In (spy_option 100 "C") l).
Proof.
  apply (contractDetails_records opt_discovering (option_chain_data_new "SPY")
           (spy_option 100 "C")); reflexivity.
Defined.

Lemma dict_set_keys_incl {V : Type} (d : list (Q * V)) (k : Q) (v : V) :
  incl (dict_keys d) (dict_keys (dict_set Qeq_bool d k v)).
Proof.
  induction d as [| [k0 v0] d IH]; simpl; [intros x [] |].
  destruct (Qeq_bool k0 k); simpl; [apply incl_refl |].
  intros x [Hx | Hx]; [now left | right; apply IH, Hx].
Qed.

Lemma mark_far_keeps_queued (dist atm : Q) (ks : list Q) :
  forall queued queued',
    mark_far dist atm ks queued = Ok queued' ->
    incl (dict_keys queued) (dict_keys queued').
Proof.
  induction ks as [| k ks IH]; simpl; intros queued queued' H.
  - injection H as <-. apply incl_refl.
  - inv_bind H. apply IH in H. destruct a; [| exact H].
    eapply incl_tran; [apply dict_set_keys_incl | exact H].
Qed.

Lemma dict_del_present {V : Type} (d d' : list (Q * V)) (k : Q) :
  dict_del Qeq_bool d k = Some d' ->
  InA Qeq k (dict_keys d) /\ incl (dict_keys d') (dict_keys d).
Proof.
  revert d'. induction d as [| [k0 v0] d IH]; simpl; intros d' H;
    [discriminate |].
  destruct (Qeq_bool k0 k) eqn:E.
  - injection H as <-. split; [| apply incl_tl, incl_refl].
    left. symmetry. apply Qeq_bool_iff, E.
  - destruct (dict_del Qeq_bool d k) as [r |] eqn:Er; [| discriminate].
    injection H as <-. destruct (IH r eq_refl) as [Hin Hincl]. split.
    + right. exact Hin.
    + simpl. intros x [Hx | Hx]; [now left | right; apply Hincl, Hx].
Qed.

Lemma InA_incl (l l' : list Q) (k : Q) :
  incl l l' -> InA Qeq k l -> InA Qeq k l'.
Proof.
  intros Hi H. apply InA_alt in H. destruct H as [x [Hx Hin]].
  apply InA_alt. exists x. split; [exact Hx | apply Hi, Hin].
Qed.

Lemma delete_strikes_present (ks : list Q) :
  forall all all' : list (Q * side_map),
    delete_strikes ks all = Ok all' ->
    (forall k, In k ks -> InA Qeq k (dict_keys all)) /\
    incl (dict_keys all') (dict_keys all).
Proof.
  induction ks as [| k ks IH]; simpl; intros all all' H.
  - injection H as <-. split; [intros k [] | apply incl_refl].
  - inv_bind H. apply of_option_Ok in Ha.
    destruct (dict_del_present _ _ _ Ha) as [Hin Hincl].
    destruct (IH _ _ H) as [Hall Hincl']. split.
    + intros k' [<- | Hk']; [exact Hin |].
      eapply InA_incl; [exact Hincl | apply Hall, Hk'].
    + eapply incl_tran; eassumption.
Qed.

(** X19: when [keep_close_strikes] returns, the queue of removals is
    empty and the reference price is the one it found; every strike that
    was queued for removal beforehand was a strike of the chain, so a
    queued strike the chain does not have keeps it from returning; and
    from then on the chain takes no new strike: contract details for a
    strike it does not hold raise [KeyError]. *)
Theorem keep_close_strikes_closes_chain (a a' : IBapi) (dist : Q) :
  keep_close_strikes a dist = Ok a' ->
  exists c c',
    chain a = Some c /\ chain a' = Some c' /\
    contracts_to_delete a' = [] /\
    open_spot_price c' = open_spot_price c /\
    incl (dict_keys (all_contracts c')) (dict_keys (all_contracts c)) /\
    (forall x, In x (dict_keys (contracts_to_delete a)) ->
               InA Qeq x (dict_keys (all_contracts c))) /\
    (forall k, dict_get Qeq_bool (all_contracts c') (strike k) = None ->
               contractDetails a' ALL_OPTION_CONTRACTS_DETAILS_REQ_ID k
               = Raise KeyError).
Proof.
  unfold keep_close_strikes. intros H.
  destruct (chain a) as [c |] eqn:Hc; [| discriminate]. simpl in H.
  inv_bind H. inv_bind H. inv_bind H. injection H as <-.
  pose proof (sorted_items_perm (all_contracts c)) as Hperm.
  assert (Hkeys : incl (dict_keys (sorted_items (all_contracts c)))
                    (dict_keys (all_contracts c))).
  { intros x Hx. eapply Permutation_in; [| exact Hx].
    apply Permutation_map. exact Hperm. }
  destruct (delete_strikes_present _ _ _ Ha1) as [Hall Hincl].
  eexists. eexists. split; [reflexivity |]. split; [reflexivity |]. simpl.
  repeat split.
  - eapply incl_tran; eassumption.
  - intros x Hx. eapply InA_incl; [exact Hkeys |]. apply Hall.
    eapply mark_far_keeps_queued; eassumption.
  - intros k Hk. unfold contractDetails. rewrite Z.eqb_refl. simpl.
    unfold chain_record. simpl. rewrite Hk. reflexivity.
Qed.

Lemma keep_close_strikes_closes_chain_witness :
  exists c c',
    chain opt_priced = Some c /\ chain opt_kept = Some c' /\
    contracts_to_delete opt_kept = [] /\
    open_spot_price c' = open_spot_price c /\
    incl (dict_keys (all_contracts c')) (dict_keys (all_contracts c)) /\
    (forall x, In x (dict_keys (contracts_to_delete opt_priced)) ->
               InA Qeq x (dict_keys (all_contracts c))) /\
    (forall k, dict_get Qeq_bool (all_contracts c') (strike k) = None ->
               contractDetails opt_kept ALL_OPTION_CONTRACTS_DETAILS_REQ_ID k
               = Raise KeyError).
Proof.
  apply (keep_close_strikes_closes_chain opt_priced opt_kept
           (pct_strikes_from_atm_of 5)).
  vm_compute. reflexivity.
Defined.

(** ** Resolving the chain, from the request to the pruned chain *)

Ltac chain_known Hc :=
  repeat match goal with
    | H : of_option _ (chain _) = Ok _ |- _ =>
        rewrite Hc in H; simpl in H; injection H as <-
    end.

Lemma dispatch_chain_of (asset : string) (a a' : IBapi) (ev : event) :
  dispatch a ev = Ok a' -> chain_of asset a -> chain_of asset a'.
Proof.
  intros H [c [Hc Hu]]. unfold chain_of.
  destruct ev as [id bar | id | id k | id | id code msg]; simpl in H.
  - unfold historicalData, OPT_historicalData, STK_historicalData,
      FX_historicalData in H.
    destruct (kind a); crush_outcome H; chain_known Hc;
      try match goal with
        | Hw : write_to_file _ _ = Ok _ |- _ =>
            unfold write_to_file in Hw; crush_outcome Hw; chain_known Hc;
            simpl; eauto
        end.
    simpl. eexists. split; [reflexivity | reflexivity].
  - unfold historicalDataEnd in H. crush_outcome H; simpl; eauto.
  - unfold contractDetails in H. crush_outcome H; chain_known Hc; simpl; eauto.
    unfold chain_record in *.
    match goal with
    | Hr : _ = Ok _ |- _ => crush_outcome Hr
    end; eexists; (split; [reflexivity | reflexivity]).
  - unfold contractDetailsEnd in H. crush_outcome H; chain_known Hc;
      simpl; eauto.
  - unfold error in H. crush_outcome H; simpl; eauto.
Qed.

Lemma api_thread_chain_of (asset : string) (evs : list event) :
  forall a, chain_of asset a -> chain_of asset (api_thread evs a).
Proof.
  induction evs as [| ev evs IH]; simpl; intros a H; [exact H |].
  destruct (connected a); [| exact H].
  destruct (dispatch a ev) as [a' | e |] eqn:E; try exact H.
  apply IH. eapply dispatch_chain_of; eassumption.
Qed.

Lemma wait_spot_price_line (asset : string) (sched : list tick) :
  forall w w' s',
    wait_spot_price sched w = Ok (w', s') ->
    chain_of asset (app w) ->
    kind (app w') = kind (app w) /\ wire (app w') = wire (app w) /\
    chain_of asset (app w').
Proof.
  induction sched as [| t sched IH]; simpl; intros w w' s' H Hc;
    destruct (chain (app w)) as [c |]; try discriminate;
    destruct (Qeq_bool (open_spot_price c) (-1)); try discriminate;
    try (injection H as <- <-; auto; fail).
  destruct (pass_line t w) as [Kp Wp].
  destruct (IH _ _ _ H) as [K [W C]];
    [simpl; apply api_thread_chain_of, Hc |].
  split; [congruence | split; [congruence | exact C]].
Qed.

Lemma wait_contracts_fetched_line (asset : string) (sched : list tick) :
  forall w w' s',
    wait_contracts_fetched sched w = Ok (w', s') ->
    chain_of asset (app w) ->
    kind (app w') = kind (app w) /\ wire (app w') = wire (app w) /\
    exists c', chain (app w') = Some c' /\ underline c' = asset
               /\ all_contracts_fetched c' = true.
Proof.
  induction sched as [| t sched IH]; simpl; intros w w' s' H Hc;
    destruct (chain (app w)) as [c |] eqn:Ec; try discriminate;
    destruct (all_contracts_fetched c) eqn:Ef; try discriminate;
    try (injection H as <- <-; destruct Hc as [c0 [Hc0 Hu]];
         repeat split; exists c; repeat split; congruence).
  destruct (pass_line t w) as [Kp Wp].
  destruct (IH _ _ _ H) as [K [W C]];
    [simpl; apply api_thread_chain_of, Hc |].
  split; [congruence | split; [congruence | exact C]].
Qed.

(** X20: for the stock and the currency variant [get_all_needed_contracts]
    returns at once and changes nothing. When the option variant returns,
    it has asked for the reference price, by a subscription it cancelled
    again if the date is today and by one historical query otherwise, and
    then for the contract details of the expiry it was given, and has made
    no other call; the chain is the one of the asset, its details have
    all arrived, it takes no new strike any more, and nothing is queued
    for removal. *)
Theorem get_all_needed_contracts_post
  (get_closest_expiry : Z -> bool -> outcome Z) (asset : string) (date : Z)
  (is_weekly : bool) (config : Config) (sched : list tick)
  (w w' : World) (s' : list tick) :
  get_all_needed_contracts get_closest_expiry asset date is_weekly config sched w
  = Ok (w', s') ->
  (kind (app w) <> OPT -> w' = w /\ s' = sched) /\
  (kind (app w) = OPT ->
   exists c' next_expiry,
     get_closest_expiry date is_weekly = Ok next_expiry /\
     chain (app w') = Some c' /\
     underline c' = asset /\
     all_contracts_fetched c' = true /\
     all_contracts_is_defaultdict c' = false /\
     contracts_to_delete (app w') = [] /\
     wire (app w')
     = wire (app w)
       ++ spot_calls asset
            (dt_replace_hm date (dt_hour (start_time config))
               (dt_minute (start_time config))) (now w)
       ++ [reqContractDetails ALL_OPTION_CONTRACTS_DETAILS_REQ_ID
             (get_ambiguous_option_contract next_expiry asset)]).
Proof.
  unfold get_all_needed_contracts. intros H. split; intros Hk.
  - destruct (kind (app w)); [contradiction | |]; injection H as <- <-; auto.
  - rewrite Hk in H.
    destruct (get_closest_expiry date is_weekly) as [next_expiry | |] eqn:Ee;
      try discriminate. simpl in H.
    set (date' := dt_replace_hm date (dt_hour (start_time config))
                    (dt_minute (start_time config))) in *.
    set (w0 := with_app
                 (set_contracts_to_delete []
                    (set_chain (Some (option_chain_data_new asset)) (app w))) w)
      in *.
    destruct (get_underline_open_price asset date' sched w0)
      as [[w1 s1] | |] eqn:Eu; try discriminate. simpl in H.
    match type of H with
    | context [wait_contracts_fetched ?s ?x] =>
        destruct (wait_contracts_fetched s x) as [[w3 s3] | |] eqn:Ew;
        try discriminate
    end. simpl in H.
    destruct (keep_close_strikes (app w3) (pct_strikes_from_atm config))
      as [a4 | |] eqn:Ek; try discriminate. simpl in H.
    injection H as <- <-.
    assert (C0 : chain_of asset (app w0))
      by (eexists; split; reflexivity).
    assert (P : wire (app w1) = wire (app w) ++ spot_calls asset date' (now w)
                /\ chain_of asset (app w1)).
    { unfold get_underline_open_price in Eu. unfold spot_calls.
      change (now w0) with (now w) in Eu.
      destruct (dt_date date' =? dt_date (now w)); simpl in Eu;
        match type of Eu with
        | context [wait_spot_price ?s ?x] =>
            destruct (wait_spot_price s x) as [[w2 s2] | |] eqn:Es;
            try discriminate
        end; simpl in Eu; injection Eu as <- <-;
        destruct (wait_spot_price_line asset _ _ _ _ Es C0) as [_ [W C]];
        simpl in W; simpl.
      - rewrite W, <- app_assoc. split; [reflexivity | exact C].
      - rewrite W. split; [reflexivity | exact C]. }
    destruct P as [W1 C1].
    assert (C2 : chain_of asset
                   (send_call
                      (reqContractDetails ALL_OPTION_CONTRACTS_DETAILS_REQ_ID
                         (get_ambiguous_option_contract next_expiry asset))
                      (app w1))) by exact C1.
    destruct (wait_contracts_fetched_line asset _ _ _ _ Ew C2)
      as [_ [W3 (c3 & E3 & U3 & F3)]]. simpl in W3.
    unfold keep_close_strikes in Ek. rewrite E3 in Ek. simpl in Ek.
    inv_bind Ek. inv_bind Ek. inv_bind Ek. injection Ek as <-.
    eexists. exists next_expiry. split; [reflexivity |]. simpl.
    split; [reflexivity |]. simpl. repeat split; try assumption.
    rewrite W3, W1, <- app_assoc. reflexivity.
Qed.

Lemma get_all_needed_contracts_post_witness :
  exists c' next_expiry,
    next_week sample_date false = Ok next_expiry /\
    chain (app chain_resolved) = Some c' /\
    underline c' = "SPY" /\
    all_contracts_fetched c' = true /\
    all_contracts_is_defaultdict c' = false /\
    contracts_to_delete (app chain_resolved) = [] /\
    wire (app chain_resolved)
    = wire (app skip_world)
      ++ spot_calls "SPY"
           (dt_replace_hm sample_date (dt_hour (start_time skip_config))
              (dt_minute (start_time skip_config))) (now skip_world)
      ++ [reqContractDetails ALL_OPTION_CONTRACTS_DETAILS_REQ_ID
            (get_ambiguous_option_contract next_expiry "SPY")].
Proof.
  refine (proj2 (get_all_needed_contracts_post next_week "SPY" sample_date false
                   skip_config skip_schedule skip_world chain_resolved [] _) _);
    [vm_compute; reflexivity | reflexivity].
Defined.

(** ** The asset names of the configuration *)

Lemma upper_idem (s : string) : upper (upper s) = upper s.
Proof.
  induction s as [| c s IH]; simpl; [reflexivity |].
  now rewrite upper_ascii_idem, IH.
Qed.

Lemma is_space_upper (c : ascii) : is_space (upper_ascii c) = is_space c.
Proof.
  destruct c as [[] [] [] [] [] [] [] []]; reflexivity.
Qed.

Lemma lstrip_upper (s : string) : lstrip (upper s) = upper (lstrip s).
Proof.
  induction s as [| c s IH]; simpl; [reflexivity |].
  rewrite is_space_upper. destruct (is_space c); [exact IH | reflexivity].
Qed.

Lemma rstrip_upper (s : string) : rstrip (upper s) = upper (rstrip s).
Proof.
  induction s as [| c s IH]; simpl; [reflexivity |].
  rewrite IH, is_space_upper.
  destruct (rstrip s); simpl; [destruct (is_space c) |]; reflexivity.
Qed.

Lemma lstrip_idem (s : string) : lstrip (lstrip s) = lstrip s.
Proof.
  induction s as [| c s IH]; simpl; [reflexivity |].
  destruct (is_space c) eqn:E; [exact IH |]. simpl. now rewrite E.
Qed.

Lemma rstrip_idem (s : string) : rstrip (rstrip s) = rstrip s.
Proof.
  induction s as [| c s IH]; simpl; [reflexivity |].
  destruct (rstrip s) as [| d r] eqn:E.
  - destruct (is_space c) eqn:Ec; simpl; [reflexivity |]. now rewrite Ec.
  - change (rstrip (String c (String d r)))
      with (match rstrip (String d r) with
            | EmptyString =>
                if is_space c then EmptyString else String c EmptyString
            | String d' r' => String c (String d' r')
            end).
    rewrite IH. reflexivity.
Qed.

Lemma lstrip_rstrip (t : string) : lstrip t = t -> lstrip (rstrip t) = rstrip t.
Proof.
  destruct t as [| c t]; simpl; [reflexivity |].
  destruct (is_space c) eqn:E.
  - intros H. exfalso.
    assert (Hl : forall s, (String.length (lstrip s) <= String.length s)%nat).
    { induction s as [| d s IHs]; simpl; [lia |].
      destruct (is_space d); simpl; lia. }
    pose proof (Hl t) as Hlen. rewrite H in Hlen. simpl in Hlen. lia.
  - intros _. destruct (rstrip t); simpl; rewrite E; reflexivity.
Qed.

Lemma strip_idem (s : string) : strip (strip s) = strip s.
Proof.
  unfold strip. rewrite (lstrip_rstrip (lstrip s) (lstrip_idem s)).
  apply rstrip_idem.
Qed.

Lemma strip_upper (s : string) : strip (upper s) = upper (strip s).
Proof. unfold strip. now rewrite lstrip_upper, rstrip_upper. Qed.

Lemma split_join_commas (names : list string) :
  names <> [] ->
  Forall (fun x => has_char "," x = false) names ->
  split "," (join_commas names) = names.
Proof.
  induction names as [| x rest IH]; [contradiction |].
  intros _ H. inversion H as [| ? ? Hx Hrest]; subst.
  destruct rest as [| y rest'].
  - simpl. apply split_no_sep, Hx.
  - change (join_commas (x :: y :: rest'))
      with (x ++ String "," (join_commas (y :: rest')))%string.
    rewrite (split_at_sep _ _ _ Hx). f_equal. apply IH; [discriminate | exact Hrest].
Qed.

(** X21: every asset name taken from the configuration is in upper case
    and has no white space at either end; and for a value written as
    names joined by commas, the names of at most one character are
    dropped, as counted before the white space is stripped, and the
    others are kept in their order. *)
Theorem config_assets_normalised :
  (forall value,
      Forall (fun x => upper x = x /\ strip x = x) (config_assets value)) /\
  (forall names,
      names <> [] ->
      Forall (fun x => has_char "," x = false) names ->
      config_assets (join_commas names)
      = map (fun x => upper (strip x))
          (filter (fun x => Nat.ltb 1 (String.length x)) names)).
Proof.
  split.
  - intros value. unfold config_assets. apply Forall_forall. intros x Hx.
    apply in_map_iff in Hx. destruct Hx as [y [<- _]]. split.
    + apply upper_idem.
    + rewrite strip_upper, strip_idem. reflexivity.
  - intros names Hne Hc. unfold config_assets.
    rewrite (split_join_commas names Hne Hc). reflexivity.
Qed.

Lemma config_assets_normalised_witness :
  config_assets "spy, f,F,qqq_W" = ["SPY"; "F"; "QQQ_W"].
Proof.
  refine (eq_trans
            (proj2 config_assets_normalised ["spy"; " f"; "F"; "qqq_W"] _ _) _);
    [discriminate | repeat constructor | reflexivity].
Defined.

(** ** Days on which the counter cannot fall *)

Lemma walk_back_stuck (ri start : Z) (fuel : nat) :
  forall tmp,
    timedelta_minutes ri <= 0 -> start < tmp - timedelta_minutes ri ->
    walk_back fuel ri start tmp = Pending.
Proof.
  induction fuel as [| fuel IH]; intros tmp Hi Hlt; simpl;
    replace (start <? tmp - timedelta_minutes ri) with true
      by (symmetry; apply Z.ltb_lt; exact Hlt);
    [reflexivity |].
  apply IH; lia.
Qed.

(** The walk never ends above the point it starts from. *)
Lemma walk_back_le (ri start : Z) (fuel : nat) :
  forall tmp q, walk_back fuel ri start tmp = Ok q -> q <= tmp.
Proof.
  induction fuel as [| fuel IH]; intros tmp q H; simpl in H;
    destruct (start <? tmp - timedelta_minutes ri) eqn:E;
    try discriminate; try (injection H as <-; lia).
  apply Z.ltb_lt in E.
  destruct (Z_le_gt_dec (timedelta_minutes ri) 0) as [Hi | Hi].
  - rewrite walk_back_stuck in H by lia. discriminate.
  - apply IH in H. lia.
Qed.

(** So the loop over the buckets of a day runs at least once. *)
Lemma get_times_and_interval_first (fuel : nat) (st en date ri end' size q : Z) :
  get_times_and_interval fuel st en date ri = Ok (end', size, q) -> q < end'.
Proof.
  unfold get_times_and_interval. intros H. inv_bind H. injection H as <- _ <-.
  apply walk_back_le in Ha.
  unfold timedelta_minutes, usec_per_min, usec_per_sec in *. lia.
Qed.

Lemma remove_contracts_count (a a' : IBapi) :
  remove_contracts a = Ok a' ->
  open_requests a' = open_requests a /\
  req_id_to_contract a' = req_id_to_contract a.
Proof.
  unfold remove_contracts. intros H.
  destruct (contracts_to_delete a); [injection H as <-; auto |].
  crush_outcome H. auto.
Qed.

Lemma get_wanted_contracts_one (a : IBapi) (asset : string) (l : list Contract) :
  kind a <> OPT -> get_wanted_contracts a asset = Ok l -> length l = 1%nat.
Proof.
  unfold get_wanted_contracts. intros Hk H.
  destruct (kind a); [contradiction | |]; crush_outcome H; reflexivity.
Qed.

Lemma evict_oldest_count (w : World) :
  open_requests (app (evict_oldest w)) = open_requests (app w).
Proof.
  unfold evict_oldest. destruct (sent_time_queue (app w)); [reflexivity |].
  destruct (older_than_window (now w) z); reflexivity.
Qed.

(** What the orchestration thread does in a day, over any condition
    [Inv] on the application and [Sch] on the schedule under which a
    sleep leaves the counter of outstanding requests as it is. *)
Section Stalled.
Variable Inv : IBapi -> Prop.
Variable Sch : list tick -> Prop.
Hypothesis Sch_tail : forall t rest, Sch (t :: rest) -> Sch rest.
Hypothesis Inv_pass :
  forall t rest w,
    Sch (t :: rest) -> Inv (app w) ->
    Inv (app (pass t w)) /\
    open_requests (app (pass t w)) = open_requests (app w).
Hypothesis Inv_queue : forall q a, Inv a -> Inv (set_sent_time_queue q a).
Hypothesis Inv_file : forall f a, Inv a -> Inv (set_output_file f a).
Hypothesis Inv_removed :
  forall a a', Inv a -> remove_contracts a = Ok a' -> Inv a'.
Hypothesis Inv_send :
  forall r sched w w' s',
    Inv (app w) -> Sch sched ->
    send_historical_data_request r sched w = Ok (w', s') ->
    Inv (app w') /\ Sch s' /\ open_requests (app w') = open_requests (app w) + 1.

Lemma stalled_wait_connected (sched : list tick) :
  forall w w' s',
    wait_connected sched w = Ok (w', s') -> Inv (app w) -> Sch sched ->
    Inv (app w') /\ Sch s' /\ open_requests (app w') = open_requests (app w).
Proof.
  induction sched as [| t sched IH]; simpl; intros w w' s' H Hi Hs;
    destruct (connected (app w)); try discriminate;
    try (injection H as <- <-; auto; fail).
  destruct (Inv_pass t sched w Hs Hi) as [Hi' Ho].
  destruct (IH _ _ _ H Hi' (Sch_tail _ _ Hs)) as [Hi'' [Hs'' Ho'']].
  repeat split; try assumption. lia.
Qed.

Lemma stalled_window_loop (sched : list tick) :
  forall w w' s',
    window_loop sched w = Ok (w', s') -> Inv (app w) -> Sch sched ->
    Inv (app w') /\ Sch s' /\ open_requests (app w') = open_requests (app w).
Proof.
  induction sched as [| t sched IH]; simpl; intros w w' s' H Hi Hs;
    destruct (58 <? Z.of_nat (length (sent_time_queue (app w))));
    try discriminate; try (injection H as <- <-; auto; fail).
  assert (Hie : Inv (app (evict_oldest w))).
  { unfold evict_oldest. destruct (sent_time_queue (app w)); [exact Hi |].
    destruct (older_than_window (now w) z); [| exact Hi].
    simpl. apply Inv_queue, Hi. }
  destruct (Inv_pass t sched (evict_oldest w) Hs Hie) as [Hi' Ho].
  destruct (IH _ _ _ H Hi' (Sch_tail _ _ Hs)) as [Hi'' [Hs'' Ho'']].
  repeat split; try assumption. rewrite Ho'', Ho. apply evict_oldest_count.
Qed.

Lemma stalled_open_loop (sched : list tick) :
  forall w w' s',
    open_loop sched w = Ok (w', s') -> Inv (app w) -> Sch sched ->
    Inv (app w') /\ Sch s' /\ open_requests (app w') = open_requests (app w).
Proof.
  induction sched as [| t sched IH]; simpl; intros w w' s' H Hi Hs;
    destruct (49 <? open_requests (app w));
    try discriminate; try (injection H as <- <-; auto; fail).
  destruct (Inv_pass t sched w Hs Hi) as [Hi' Ho].
  destruct (IH _ _ _ H Hi' (Sch_tail _ _ Hs)) as [Hi'' [Hs'' Ho'']].
  repeat split; try assumption. lia.
Qed.

Lemma stalled_gate (sched : list tick) (w w' : World) (s' : list tick) :
  check_pacing_violations sched w = Ok (w', s') -> Inv (app w) -> Sch sched ->
  Inv (app w') /\ Sch s' /\ open_requests (app w') = open_requests (app w).
Proof.
  unfold check_pacing_violations. intros H Hi Hs.
  inv_bind H. destruct a as [w1 s1]. inv_bind H. destruct a as [w2 s2].
  destruct (stalled_wait_connected _ _ _ _ Ha Hi Hs) as [I1 [S1 O1]].
  destruct (stalled_window_loop _ _ _ _ Ha0 I1 S1) as [I2 [S2 O2]].
  destruct (stalled_open_loop _ _ _ _ H I2 S2) as [I3 [S3 O3]].
  repeat split; try assumption. lia.
Qed.

Lemma stalled_request_contracts (qt sz : Z) (contracts : list Contract) :
  forall st st',
    request_contracts contracts qt sz st = Ok st' ->
    Inv (app (fst st)) -> Sch (snd st) ->
    Inv (app (fst st')) /\ Sch (snd st') /\
    open_requests (app (fst st'))
    = open_requests (app (fst st)) + 2 * Z.of_nat (length contracts).
Proof.
  induction contracts as [| k contracts IH]; intros st st' H Hi Hs.
  - simpl in H. injection H as <-. repeat split; try assumption. simpl. lia.
  - cbn [request_contracts] in H.
    destruct (check_pacing_violations (snd st) (fst st))
      as [[w1 s1] | |] eqn:G1; try discriminate. simpl in H.
    destruct (send_historical_data_request (DataRequest_new k qt sz "ASK") s1 w1)
      as [[w2 s2] | |] eqn:S1; try discriminate. simpl in H.
    destruct (check_pacing_violations s2 w2)
      as [[w3 s3] | |] eqn:G2; try discriminate. simpl in H.
    destruct (send_historical_data_request (DataRequest_new k qt sz "BID") s3 w3)
      as [[w4 s4] | |] eqn:S2; try discriminate. simpl in H.
    destruct (stalled_gate _ _ _ _ G1 Hi Hs) as [I1 [C1 O1]].
    destruct (Inv_send _ _ _ _ _ I1 C1 S1) as [I2 [C2 O2]].
    destruct (stalled_gate _ _ _ _ G2 I2 C2) as [I3 [C3 O3]].
    destruct (Inv_send _ _ _ _ _ I3 C3 S2) as [I4 [C4 O4]].
    destruct (IH _ _ H I4 C4) as [I5 [C5 O5]].
    repeat split; try assumption. simpl fst in O5.
    rewrite O5, O4, O3, O2, O1. simpl length. lia.
Qed.

Lemma stalled_request_bucket (asset : string) (qt sz : Z)
  (st st' : World * list tick) :
  request_bucket asset qt sz st = Ok st' ->
  Inv (app (fst st)) -> Sch (snd st) ->
  Inv (app (fst st')) /\ Sch (snd st') /\
  open_requests (app (fst st)) <= open_requests (app (fst st')) /\
  (kind (app (fst st)) <> OPT ->
   open_requests (app (fst st')) = open_requests (app (fst st)) + 2).
Proof.
  unfold request_bucket. intros H Hi Hs.
  inv_bind H. inv_bind H.
  destruct (remove_contracts_count _ _ Ha) as [O0 _].
  destruct (remove_contracts_line _ _ Ha) as [K0 _].
  destruct (stalled_request_contracts _ _ _ _ _ H
              (Inv_removed _ _ Hi Ha) Hs) as [I1 [S1 O1]].
  simpl fst in O1.
  change (open_requests (app (with_app a (fst st)))) with (open_requests a) in O1.
  rewrite O0 in O1. repeat split; try assumption.
  - rewrite O1. lia.
  - intros Hk. rewrite O1.
    rewrite (get_wanted_contracts_one a asset a0); [lia | congruence | exact Ha0].
Qed.

Lemma stalled_bucket_loop (asset : string) (fuel : nat) :
  forall ri end' q sz st st',
    bucket_loop (request_bucket asset) fuel ri end' q sz st = Ok st' ->
    Inv (app (fst st)) -> Sch (snd st) ->
    Inv (app (fst st')) /\ Sch (snd st') /\
    open_requests (app (fst st)) <= open_requests (app (fst st')) /\
    (q < end' -> kind (app (fst st)) <> OPT ->
     open_requests (app (fst st)) + 2 <= open_requests (app (fst st'))).
Proof.
  induction fuel as [| fuel IH]; simpl; intros ri end' q sz st st' H Hi Hs;
    destruct (q <? end') eqn:E; try discriminate.
  - injection H as <-. apply Z.ltb_ge in E. repeat split; try assumption; lia.
  - inv_bind H.
    destruct (stalled_request_bucket _ _ _ _ _ Ha Hi Hs) as [I1 [S1 [O1 P1]]].
    destruct (IH _ _ _ _ _ _ H I1 S1) as [I2 [S2 [O2 _]]].
    repeat split; try assumption; [lia |].
    intros _ Hk. rewrite (P1 Hk) in O2. lia.
  - injection H as <-. apply Z.ltb_ge in E. repeat split; try assumption; lia.
Qed.

Lemma stalled_drain (sched : list tick) :
  forall w w' s',
    Inv (app w) -> Sch sched -> 0 < open_requests (app w) ->
    drain sched w <> Ok (w', s').
Proof.
  induction sched as [| t sched IH]; simpl; intros w w' s' Hi Hs Ho;
    replace (0 <? open_requests (app w)) with true
      by (symmetry; apply Z.ltb_lt; exact Ho);
    [discriminate |].
  destruct (Inv_pass t sched w Hs Hi) as [Hi' Ho'].
  apply IH; [exact Hi' | exact (Sch_tail _ _ Hs) | lia].
Qed.

Lemma stalled_day (get_closest_expiry : Z -> bool -> outcome Z) (fuel : nat)
  (config : Config) (asset base_asset : string) (is_weekly : bool) (date : Z)
  (present : bool) (answer : string) (sched : list tick)
  (w w' : World) (s' : list tick) :
  kind (app w) <> OPT -> Inv (app w) -> Sch sched ->
  0 <= open_requests (app w) ->
  is_file_exists present answer = false ->
  day get_closest_expiry fuel config asset base_asset is_weekly date present
    answer sched w <> Ok (w', s').
Proof.
  intros Hk Hi Hs Ho Hskip H. unfold day in H.
  assert (G : get_all_needed_contracts get_closest_expiry base_asset date
                is_weekly config sched w = Ok (w, sched)).
  { unfold get_all_needed_contracts.
    destruct (kind (app w)); [contradiction | reflexivity | reflexivity]. }
  rewrite G in H. simpl in H. inv_bind H. destruct a as [[end' size] q].
  rewrite Hskip in H. inv_bind H. destruct a as [w3 s3].
  apply get_times_and_interval_first in Ha.
  destruct (stalled_bucket_loop _ _ _ _ _ _
              (with_app (set_output_file (Some []) (app w)) w, sched) (w3, s3)
              Ha0 (Inv_file _ _ Hi) Hs) as [I3 [S3 [_ P3]]].
  specialize (P3 Ha Hk). simpl in P3.
  apply (stalled_drain _ _ _ _ I3 S3) in H; [exact H | simpl; lia].
Qed.

Lemma stalled_main (get_closest_expiry : Z -> bool -> outcome Z) (fuel : nat)
  (config : Config) (present : string -> Z -> bool) (answer : string -> Z -> string)
  (asset : string) (assets : list string) (date : Z) (dates : list Z)
  (sched : list tick) (w w' : World) (s' : list tick) :
  kind (app w) <> OPT -> Inv (app w) -> Sch sched ->
  0 <= open_requests (app w) ->
  is_file_exists (present asset date) (answer asset date) = false ->
  main get_closest_expiry fuel config present answer (asset :: assets)
    (date :: dates) sched w <> Ok (w', s').
Proof.
  intros Hk Hi Hs Ho Hskip H. unfold main in H. inv_bind H.
  cbn [assets_loop] in Ha. inv_bind Ha. destruct a0 as [base_asset is_weekly].
  inv_bind Ha. cbn [dates_loop] in Ha1. inv_bind Ha1.
  destruct a1 as [w1 s1]. simpl in Ha2.
  exact (stalled_day _ _ _ _ _ _ _ _ _ _ _ _ _ Hk Hi Hs Ho Hskip Ha2).
Qed.
End Stalled.

(** *** Schedules without completions *)

Lemma no_completions_tail (t : tick) (rest : list tick) :
  no_completions (t :: rest) -> no_completions rest.
Proof. intros H. inversion H; assumption. Qed.

Lemma no_completions_pass (t : tick) (rest : list tick) (w : World) :
  no_completions (t :: rest) -> True ->
  True /\ open_requests (app (pass t w)) = open_requests (app w).
Proof.
  intros H _. inversion H as [| ? ? Ht _]; subst. split; [exact I |].
  simpl. apply api_thread_keeps_count, Ht.
Qed.

Lemma no_completions_send (r : DataRequest) (sched : list tick) (w w' : World)
  (s' : list tick) :
  True -> no_completions sched ->
  send_historical_data_request r sched w = Ok (w', s') ->
  True /\ no_completions s' /\ open_requests (app w') = open_requests (app w) + 1.
Proof.
  intros _ Hs H. split; [exact I |].
  unfold send_historical_data_request in H.
  destruct (kind (app w)) eqn:Ek.
  1, 2:
    inv_bind H; injection H as <- <-;
    destruct (tracked_send_spec _ _ _ _ Ha)
      as (id & _ & _ & _ & _ & _ & Ho & _);
    split; [exact Hs | exact Ho].
  unfold FX_send_historical_data_request in H. inv_bind H.
  destruct a as [id rng']. destruct sched as [| t rest]; simpl in H;
    [discriminate |].
  injection H as <- <-. inversion Hs as [| ? ? Ht Hrest]; subst.
  split; [exact Hrest |]. simpl.
  rewrite (api_thread_keeps_count _ _ Ht). reflexivity.
Qed.

(** *** The currency-pair variant *)

(** On a registry of the currency-pair variant no callback that returns
    has changed the counter. *)
Lemma fx_dispatch_count (a a' : IBapi) (ev : event) :
  fx_only a -> dispatch a ev = Ok a' -> open_requests a' = open_requests a.
Proof.
  intros Hf H.
  destruct (completes ev) eqn:Ec;
    [| eapply dispatch_keeps_count; eassumption].
  destruct ev as [id bar | id | id k | id | id code msg]; simpl in H;
    try discriminate Ec.
  - unfold historicalDataEnd in H.
    destruct (dict_get Z.eqb (req_id_to_contract a) id) as [e |] eqn:E.
    + destruct (Hf _ _ E) as [Hr [t Ht]]. rewrite Ht, Hr in H. discriminate.
    + destruct (id =? OPEN_SPOT_PRICE_REQ_ID); [| discriminate].
      now injection H as <-.
  - unfold error in H.
    destruct (String.eqb (mode a) "historical" && existsb (Z.eqb code) ignored_codes);
      [now injection H as <- |].
    destruct (dict_get Z.eqb (req_id_to_contract a) id) as [e |] eqn:E.
    + destruct (Hf _ _ E) as [Hr _]. rewrite Hr in H. discriminate.
    + now injection H as <-.
Qed.

Lemma fx_api_thread_count (evs : list event) :
  forall a, kind a = FX -> fx_only a ->
            open_requests (api_thread evs a) = open_requests a.
Proof.
  induction evs as [| ev evs IH]; simpl; intros a Hk Hf; [reflexivity |].
  destruct (connected a); [| reflexivity].
  destruct (dispatch a ev) as [a' | e |] eqn:E; try reflexivity.
  pose proof (fx_dispatch_registry _ _ _ Hk Hf E) as Hr.
  rewrite IH.
  - eapply fx_dispatch_count; eassumption.
  - rewrite (frame_kind _ _ (dispatch_frame _ _ _ E)). exact Hk.
  - unfold fx_only. rewrite Hr. exact Hf.
Qed.

Lemma fx_app_pass (t : tick) (rest : list tick) (w : World) :
  True -> fx_app (app w) ->
  fx_app (app (pass t w)) /\
  open_requests (app (pass t w)) = open_requests (app w).
Proof.
  intros _ [Hk Hf]. simpl. split; [split |].
  - rewrite (frame_kind _ _ (api_thread_frame _ _)). exact Hk.
  - unfold fx_only. rewrite (fx_api_thread _ _ Hk Hf). exact Hf.
  - apply fx_api_thread_count; assumption.
Qed.

Lemma fx_app_removed (a a' : IBapi) :
  fx_app a -> remove_contracts a = Ok a' -> fx_app a'.
Proof.
  intros [Hk Hf] H.
  destruct (remove_contracts_line _ _ H) as [K _].
  destruct (remove_contracts_count _ _ H) as [_ R].
  split; [congruence |]. unfold fx_only. rewrite R. exact Hf.
Qed.

Lemma fx_app_send (r : DataRequest) (sched : list tick) (w w' : World)
  (s' : list tick) :
  fx_app (app w) -> True ->
  send_historical_data_request r sched w = Ok (w', s') ->
  fx_app (app w') /\ True /\ open_requests (app w') = open_requests (app w) + 1.
Proof.
  intros [Hk Hf] _ H.
  unfold send_historical_data_request in H. rewrite Hk in H.
  unfold FX_send_historical_data_request in H. inv_bind H.
  destruct a as [id g']. destruct sched as [| t rest]; simpl in H; [discriminate |].
  injection H as <- <-.
  match goal with
  | |- fx_app (app (pass t ?w0)) /\ _ =>
      assert (H0 : fx_app (app w0))
        by (split; [exact Hk
                   | intros i e0; simpl;
                     apply (fx_only_set (app w) id _ _ Hf)]);
      destruct (fx_app_pass t rest w0 I H0) as [H1 H2]
  end.
  split; [exact H1 |]. split; [exact I |]. rewrite H2. reflexivity.
Qed.

(** ** The last wait *)

Lemma drain_done (sched : list tick) (w : World) :
  open_requests (app w) <= 0 -> drain sched w = Ok (w, sched).
Proof.
  intros H. assert (E : (0 <? open_requests (app w)) = false)
    by (apply Z.ltb_ge; exact H).
  destruct sched; simpl; rewrite E; reflexivity.
Qed.

Lemma day_counter (get_closest_expiry : Z -> bool -> outcome Z) (fuel : nat)
  (config : Config) (asset base_asset : string) (is_weekly : bool) (date : Z)
  (present : bool) (answer : string) (sched : list tick)
  (w w' : World) (s' : list tick) :
  open_requests (app w) <= 0 ->
  day get_closest_expiry fuel config asset base_asset is_weekly date present
    answer sched w = Ok (w', s') ->
  open_requests (app w') <= 0.
Proof.
  intros Ho H. unfold day in H. inv_bind H. destruct a as [w1 s1].
  inv_bind H. destruct a as [[end' size] q].
  destruct (is_file_exists present answer).
  - injection H as <- <-.
    destruct (get_all_needed_contracts_frame _ _ _ _ _ _ _ _ _ Ha) as [F _].
    pose proof (skip_open _ _ F). lia.
  - inv_bind H. destruct a as [w3 s3]. eapply drain_spec; eassumption.
Qed.

Lemma dates_loop_counter (get_closest_expiry : Z -> bool -> outcome Z)
  (fuel : nat) (config : Config) (present : string -> Z -> bool)
  (answer : string -> Z -> string) (asset base_asset : string)
  (is_weekly : bool) (dates : list Z) :
  forall st st',
    open_requests (app (fst st)) <= 0 ->
    dates_loop get_closest_expiry fuel config present answer asset base_asset
      is_weekly dates st = Ok st' ->
    open_requests (app (fst st')) <= 0.
Proof.
  induction dates as [| date dates IH]; simpl; intros st st' Ho H.
  - injection H as <-. exact Ho.
  - inv_bind H. apply (IH a st'); [| exact H].
    destruct a as [w1 s1]. eapply day_counter; eassumption.
Qed.

Lemma assets_loop_counter (get_closest_expiry : Z -> bool -> outcome Z)
  (fuel : nat) (config : Config) (present : string -> Z -> bool)
  (answer : string -> Z -> string) (assets : list string) (dates : list Z) :
  forall st st',
    open_requests (app (fst st)) <= 0 ->
    assets_loop get_closest_expiry fuel config present answer assets dates st
    = Ok st' ->
    open_requests (app (fst st')) <= 0.
Proof.
  induction assets as [| asset assets IH]; simpl; intros st st' Ho H.
  - injection H as <-. exact Ho.
  - inv_bind H. destruct a as [base_asset is_weekly]. inv_bind H.
    apply (IH a st'); [| exact H].
    eapply dates_loop_counter; eassumption.
Qed.

(** X16: [main] returns only with no request counted as outstanding.
    Started with none outstanding, its loops over the assets and the
    dates never end with one outstanding, so its own last wait returns at
    once; the wait that lasts is the one at the end of a day: with the
    stock or the currency variant, a first day that is not skipped and a
    schedule on which neither an end of stream nor an error 162 arrives,
    [main] never returns. *)
Theorem main_last_wait (get_closest_expiry : Z -> bool -> outcome Z) (fuel : nat)
  (config : Config) (present : string -> Z -> bool) (answer : string -> Z -> string)
  (sched : list tick) (w : World) :
  (forall assets dates w' s',
      main get_closest_expiry fuel config present answer assets dates sched w
      = Ok (w', s') ->
      open_requests (app w') <= 0) /\
  (forall assets dates w1 s1,
      open_requests (app w) <= 0 ->
      assets_loop get_closest_expiry fuel config present answer assets dates
        (w, sched) = Ok (w1, s1) ->
      open_requests (app w1) <= 0 /\
      main get_closest_expiry fuel config present answer assets dates sched w
      = Ok (w1, s1)) /\
  (forall asset assets date dates w' s',
      kind (app w) <> OPT ->
      0 <= open_requests (app w) ->
      no_completions sched ->
      is_file_exists (present asset date) (answer asset date) = false ->
      main get_closest_expiry fuel config present answer (asset :: assets)
        (date :: dates) sched w <> Ok (w', s')).
Proof.
  split; [| split].
  - intros assets dates w' s' H. unfold main in H. inv_bind H.
    destruct a as [w1 s1]. eapply drain_spec; eassumption.
  - intros assets dates w1 s1 Ho H.
    pose proof (assets_loop_counter _ _ _ _ _ _ _ (w, sched) (w1, s1) Ho H)
      as Ho1.
    simpl in Ho1. split; [exact Ho1 |].
    unfold main. rewrite H. simpl. apply drain_done, Ho1.
  - intros asset assets date dates w' s' Hk Ho Hs Hskip.
    apply (stalled_main (fun _ => True) no_completions no_completions_tail
             no_completions_pass (fun _ _ _ => I) (fun _ _ _ => I)
             (fun _ _ _ _ => I) no_completions_send);
      auto.
Qed.

Lemma main_last_wait_witness :
  main next_week 5 hour_config (fun _ _ => false) (fun _ _ => "no") ["SPY"]
    [sample_date] stk_schedule stk_world
  = Ok (stk_day_end, []) /\
  forall w' s',
    main next_week 5 hour_config (fun _ _ => false) (fun _ _ => "no") ["SPY"]
      [sample_date] bars_only stk_world <> Ok (w', s').
Proof.
  split.
  - refine (proj2 (proj1 (proj2 (main_last_wait next_week 5 hour_config
                                   (fun _ _ => false) (fun _ _ => "no")
                                   stk_schedule stk_world))
                     ["SPY"] [sample_date] stk_day_end [] _ _));
      [simpl; lia | vm_compute; reflexivity].
  - intros w' s'.
    refine (proj2 (proj2 (main_last_wait next_week 5 hour_config
                            (fun _ _ => false) (fun _ _ => "no")
                            bars_only stk_world))
              "SPY" [] sample_date [] w' s' _ _ _ _);
      [discriminate | simpl; lia | repeat constructor | reflexivity].
Defined.

(** On the sample schedule without completions the stock day is still
    waiting when the schedule ends. *)
Example main_waits_for_completions :
  main next_week 5 hour_config (fun _ _ => false) (fun _ _ => "no") ["SPY"]
    [sample_date] bars_only stk_world
  = Pending.
Proof. vm_compute. reflexivity. Qed.

(** X17: a day of the stock variant that is not skipped and runs to its
    end has sent, for the contract of the asset and for every bucket of
    the day in order, first the query for the selling side and then the
    query for the buying side, each with the bucket's end time and its
    span in seconds, and nothing else, and ends with no request counted
    as outstanding. A day of the currency variant that is not skipped
    never runs to its end: no callback takes one of its requests off the
    counter. *)
Theorem day_sends_ask_bid (get_closest_expiry : Z -> bool -> outcome Z)
  (fuel : nat) (config : Config) (asset base_asset : string) (is_weekly : bool)
  (date : Z) (present : bool) (answer : string) (sched : list tick)
  (w w' : World) (s' : list tick) :
  is_file_exists present answer = false ->
  (kind (app w) = STK ->
   day get_closest_expiry fuel config asset base_asset is_weekly date present
     answer sched w = Ok (w', s') ->
   exists buckets calls,
     day_buckets fuel (start_time config) (end_time config) date
       (request_interval config) = Ok buckets /\
     wire (app w') = wire (app w) ++ calls /\
     Forall2 (asks_for (get_asset_contract asset)) calls (bucket_queries buckets) /\
     open_requests (app w') <= 0) /\
  (fx_reach w ->
   0 <= open_requests (app w) ->
   day get_closest_expiry fuel config asset base_asset is_weekly date present
     answer sched w <> Ok (w', s')).
Proof.
  intros Hskip. split.
  - intros Hstk H.
    assert (Hk : kind (app w) <> OPT) by congruence.
    assert (Hwant : get_wanted_contracts (app w) asset
                    = Ok [get_asset_contract asset])
      by (unfold get_wanted_contracts; rewrite Hstk; reflexivity).
    unfold day in H.
    assert (G : get_all_needed_contracts get_closest_expiry base_asset date
                  is_weekly config sched w = Ok (w, sched))
      by (unfold get_all_needed_contracts; rewrite Hstk; reflexivity).
    rewrite G in H. simpl in H. inv_bind H. destruct a as [[end' size] q].
    rewrite Hskip in H. inv_bind H. destruct a as [w3 s3].
    destruct (bucket_loop_lists _ _ _ _ _ _ _ _ [] Ha0) as (buckets & Hl & Hr).
    destruct (run_buckets_line asset (get_asset_contract asset) buckets
                (with_app (set_output_file (Some []) (app w)) w, sched) (w3, s3)
                Hk Hwant Hr)
      as [K (calls & W & F)].
    destruct (drain_line _ _ _ _ H) as [Kd Wd].
    exists buckets, calls. repeat split.
    + unfold day_buckets. rewrite Ha. exact Hl.
    + rewrite Wd. exact W.
    + exact F.
    + eapply drain_spec; eassumption.
  - intros Hfx Ho. destruct (fx_reach_inv w Hfx) as [Hk Hf].
    apply (stalled_day fx_app (fun _ => True) (fun _ _ _ => I) fx_app_pass);
      try assumption; try exact I.
    + intros q a [K F]. split; [exact K | exact F].
    + intros f a [K F]. split; [exact K | exact F].
    + apply fx_app_removed.
    + apply fx_app_send.
    + congruence.
    + split; assumption.
Qed.

Lemma day_sends_ask_bid_witness :
  (exists buckets calls,
      day_buckets 5 (at_hm 15 0) (at_hm 16 0) sample_date 60 = Ok buckets /\
      wire (app stk_day_end) = wire (app stk_world) ++ calls /\
      Forall2 (asks_for (get_asset_contract "SPY")) calls (bucket_queries buckets) /\
      open_requests (app stk_day_end) <= 0) /\
  forall w' s',
    day next_week 5 hour_config "eur.usd" "eur.usd" false sample_date false "no"
      fx_schedule fx_world <> Ok (w', s').
Proof.
  split.
  - refine (proj1 (day_sends_ask_bid next_week 5 hour_config "SPY" "SPY" false
                     sample_date false "no" stk_schedule stk_world stk_day_end []
                     _) _ _);
      [reflexivity | reflexivity | vm_compute; reflexivity].
  - intros w' s'.
    refine (proj2 (day_sends_ask_bid next_week 5 hour_config "eur.usd" "eur.usd"
                     false sample_date false "no" fx_schedule fx_world w' s' _)
              _ _);
      [reflexivity | apply fx_init | simpl; lia].
Defined.

(** On the sample currency day the end of the first stream raises in the
    response thread, the connection is gone, and the gate waits for it
    until the schedule ends. *)
Example fx_day_never_ends :
  day next_week 5 hour_config "eur.usd" "eur.usd" false sample_date false "no"
    fx_schedule fx_world
  = Pending.
Proof. vm_compute. reflexivity. Qed.
